(** * Snake: the simulation and its reinforcement-learning environment

    A shallow embedding of [snake/objects/snake_head.py] (Level, SnakeHead,
    SnakePiece, Cherry) and of [snake/env.py] (SnakeGameState, SnakeEnv).

    Python objects are mutated in place and exceptions leave the mutations
    made so far; both are kept by a state-and-exception monad.  What the two
    files import from elsewhere (the constant PLAY_AREA, the interpreter's
    [random] module, numpy's RandomState, the iteration order of a [set],
    the rendering step of the windowed game) is collected in one interface,
    [Platform], over which every definition is parametric. *)

From Stdlib Require Import ZArith Lia List.
From stdpp Require Import base decidable numbers option list sets gmap.
From stdpp Require Import strings.

Open Scope Z_scope.

(** ** Values *)

(** Modelled from the spec: [engine.game_object.Vector2] is not among the
    sources; the spec calls it a value type for integer coordinates, so a
    position is a pair, [clone] is the identity, [+] and [+=] add
    componentwise and yield a new value, equality and hashing go by value,
    and no two attributes share one position object. *)
Definition Vector2 : Type := Z * Z.

Definition Vector2_add (a b : Vector2) : Vector2 := (a.1 + b.1, a.2 + b.2).

Record SnakeHead := mkSnakeHead {
  head_position : Vector2;
  head_direction : Vector2;
  head_length : Z
}.

(** A piece's [level] and [head] attributes point to the one Level and the
    one SnakeHead of its simulation; they are read through the simulation. *)
Record SnakePiece := mkSnakePiece {
  piece_position : Vector2;
  piece_age : Z
}.

Record Cherry := mkCherry {
  cherry_position : Vector2
}.

(** ** Exceptions and the monad *)

Inductive exn :=
  | ValueError
  | IndexError
  | AttributeError
  | KeyError
  | ZeroDivisionError.

Inductive result (A : Type) :=
  | Ok (a : A)
  | Raise (e : exn).
Arguments Ok {A} a.
Arguments Raise {A} e.

Definition result_map {A B} (f : A -> B) (r : result A) : result B :=
  match r with Ok a => Ok (f a) | Raise e => Raise e end.

(** A computation over a mutable state [S]: it returns a value or raises,
    and in both cases hands back the state as it was left. *)
Definition M (S A : Type) : Type := S -> result A * S.

Definition ret {S A} (a : A) : M S A := fun s => (Ok a, s).

Definition bind {S A B} (m : M S A) (k : A -> M S B) : M S B :=
  fun s => match m s with
           | (Ok a, s') => k a s'
           | (Raise e, s') => (Raise e, s')
           end.

Definition raise {S A} (e : exn) : M S A := fun s => (Raise e, s).
Definition gets {S A} (f : S -> A) : M S A := fun s => (Ok (f s), s).
Definition modify {S} (f : S -> S) : M S unit := fun s => (Ok tt, f s).

Notation "x <- m ;; k" := (bind m (fun x => k))
  (at level 100, m at next level, right associativity).
Notation "m ;;; k" := (bind m (fun _ => k))
  (at level 100, right associativity).

Definition when {S} (b : bool) (m : M S unit) : M S unit :=
  if b then m else ret tt.

(** ** The simulation *)

(** The object graph of one game: the Level's fields, the live pieces in
    the order of their creation, the controller's direction and the exit
    flag.  [cherry] is absent until [Level.init] has assigned it. *)
Record Game := mkGame {
  free_space : gset Vector2;
  head : SnakeHead;
  cherry : option Cherry;
  pieces : list SnakePiece;
  controller_direction : Vector2;
  should_exit : bool
}.

Definition set_free_space (f : gset Vector2) (g : Game) : Game :=
  mkGame f (head g) (cherry g) (pieces g) (controller_direction g) (should_exit g).
Definition set_head (h : SnakeHead) (g : Game) : Game :=
  mkGame (free_space g) h (cherry g) (pieces g) (controller_direction g) (should_exit g).
Definition set_cherry (c : option Cherry) (g : Game) : Game :=
  mkGame (free_space g) (head g) c (pieces g) (controller_direction g) (should_exit g).
Definition set_pieces (l : list SnakePiece) (g : Game) : Game :=
  mkGame (free_space g) (head g) (cherry g) l (controller_direction g) (should_exit g).
Definition set_controller_direction (d : Vector2) (g : Game) : Game :=
  mkGame (free_space g) (head g) (cherry g) (pieces g) d (should_exit g).

Definition set_position (p : Vector2) (h : SnakeHead) : SnakeHead :=
  mkSnakeHead p (head_direction h) (head_length h).
Definition set_direction (d : Vector2) (h : SnakeHead) : SnakeHead :=
  mkSnakeHead (head_position h) d (head_length h).
Definition set_length (n : Z) (h : SnakeHead) : SnakeHead :=
  mkSnakeHead (head_position h) (head_direction h) n.

(** ** What the sources take from outside *)

Class Platform := {
  (** [constants.PLAY_AREA] *)
  PLAY_AREA : Z * Z;
  (** the state of the interpreter-wide generator of module [random] *)
  rng : Type;
  (** [random.seed(n)] *)
  random_seed : Z -> rng;
  (** the generator's draw below a bound, as used by [random.choice] *)
  randbelow : rng -> nat -> nat * rng;
  randbelow_lt : forall g n, (0 < n)%nat -> ((randbelow g n).1 < n)%nat;
  (** [list(s)] for a set of positions: some enumeration of [s] *)
  set_to_list : gset Vector2 -> list Vector2;
  set_to_list_perm : forall s, set_to_list s ≡ₚ elements s;
  (** iterating a [set] of piece objects: some order of the pieces *)
  set_iter : list SnakePiece -> list SnakePiece;
  set_iter_perm : forall l, set_iter l ≡ₚ l;
  (** [np.random.RandomState(seed)] (numpy refuses some seeds) and
      [RandomState.randint(n)] *)
  np_state : Type;
  np_RandomState : Z -> option np_state;
  np_randint : np_state -> Z -> Z * np_state;
  (** [_extrastep] of the windowed game: drawing and window events *)
  extrastep : Game -> Game
}.

(** A simulation runs inside an interpreter whose [random] module it
    shares with everything else in the process; [R] is the type of that
    generator's states. *)
Record Simulation (R : Type) := mkSim {
  py_random : R;
  game : Game
}.
Arguments mkSim {R} _ _.
Arguments py_random {R} _.
Arguments game {R} _.

Abbreviation Sim := (Simulation rng).

Section Simulating.
Context {P : Platform}.

Definition on_game (f : Game -> Game) (s : Sim) : Sim :=
  mkSim (py_random s) (f (game s)).

(** [random.choice(seq)]: IndexError on an empty sequence, otherwise the
    element at the index the generator draws. *)
Definition random_choice (l : list Vector2) : M Sim Vector2 :=
  fun s =>
    match l with
    | [] => (Raise IndexError, s)
    | x :: _ =>
        let (i, g') := randbelow (py_random s) (length l) in
        (Ok (nth i l x), mkSim g' (game s))
    end.

(** *** Level *)

Definition Level_occupy_space (position : Vector2) : M Sim unit :=
  modify (on_game (fun g =>
    if decide (position ∈ free_space g)
    then set_free_space (free_space g ∖ {[position]}) g
    else g)).

Definition Level_unoccupy_space (position : Vector2) : M Sim unit :=
  modify (on_game (fun g =>
    if decide (position ∉ free_space g)
    then set_free_space (free_space g ∪ {[position]}) g
    else g)).

Definition Level_cherry_position_lottery : M Sim Vector2 :=
  fs <- gets (fun s => free_space (game s)) ;;
  random_choice (set_to_list fs).

(** [Cherry.init] stores the position it is given. *)
Definition Cherry_init (position : Vector2) : Cherry := mkCherry position.

Definition Level_create_cherry : M Sim Cherry :=
  position <- Level_cherry_position_lottery ;;
  ret (Cherry_init position).

Definition Level_on_cherry_eaten : M Sim unit :=
  c <- Level_create_cherry ;;
  modify (on_game (set_cherry (Some c))).

(** *** Cherry *)

(** [Cherry.on_being_eaten]: the Level installs the replacement, then the
    eaten cherry is destroyed; it was the Level's only record of it. *)
Definition Cherry_on_being_eaten : M Sim unit :=
  Level_on_cherry_eaten.

(** *** SnakeHead *)

Definition SnakeHead_init : SnakeHead :=
  mkSnakeHead (0, 0) (1, 0) 3.

Definition Level_create_snake_head : SnakeHead := SnakeHead_init.

(** The cells of the two nested [range] loops of [Level.init]. *)
Definition all_cells : list Vector2 :=
  x ← seqZ 0 PLAY_AREA.1; y ← seqZ 0 PLAY_AREA.2; [(x, y)].

Definition Level_init : M Sim unit :=
  modify (on_game (set_free_space (list_to_set all_cells))) ;;;
  modify (on_game (set_head Level_create_snake_head)) ;;;
  c <- Level_create_cherry ;;
  modify (on_game (set_cherry (Some c))).

Definition SnakeHead_update_input : M Sim unit :=
  modify (on_game (fun g =>
    set_head (set_direction (controller_direction g) (head g)) g)).

Definition SnakeHead_on_cherry_eaten : M Sim unit :=
  Cherry_on_being_eaten ;;;
  modify (on_game (fun g =>
    set_head (set_length (head_length (head g) + 1) (head g)) g)).

(** [# TODO: Die] followed by [pass]. *)
Definition SnakeHead_on_collision : M Sim unit := ret tt.

(** *** SnakePiece *)

(** [SnakePiece.init]: age 0, and the cell is taken from the free set. *)
Definition SnakePiece_init (position : Vector2) : M Sim SnakePiece :=
  Level_occupy_space position ;;;
  ret (mkSnakePiece position 0).

(** Modelled from the spec: [GameObject.instantiate] is not among the
    sources; it builds the object, runs its [init] and adds it to the live
    objects, as [GameObject.destroy] removes one from them.  The Level
    keeps its Head and its Cherry in fields of their own, so only pieces
    are listed. *)
Definition GameObject_instantiate_SnakePiece (position : Vector2) : M Sim unit :=
  piece <- SnakePiece_init position ;;
  modify (on_game (fun g => set_pieces (pieces g ++ [piece]) g)).

(** [SnakePiece.update] for the piece [p]: the result is the piece as it
    lives on, or [None] once [GameObject.destroy] has removed it. *)
Definition SnakePiece_update (p : SnakePiece) : M Sim (option SnakePiece) :=
  let p' := mkSnakePiece (piece_position p) (piece_age p + 1) in
  len <- gets (fun s => head_length (head (game s))) ;;
  if decide (len - piece_age p' <= 0)
  then Level_unoccupy_space (piece_position p') ;;; ret None
  else ret (Some p').

Definition wrap_overflow (p : Vector2) : Vector2 :=
  let x := if decide (p.1 >= PLAY_AREA.1) then 0 else p.1 in
  let y := if decide (p.2 >= PLAY_AREA.2) then 0 else p.2 in
  (x, y).

Definition SnakeHead_update : M Sim unit :=
  position <- gets (fun s => head_position (head (game s))) ;;
  Level_unoccupy_space position ;;;
  let old_pos := position in
  direction <- gets (fun s => head_direction (head (game s))) ;;
  let position := Vector2_add position direction in
  modify (on_game (fun g => set_head (set_position position (head g)) g)) ;;;
  fs <- gets (fun s => free_space (game s)) ;;
  when (bool_decide (position ∉ fs)) SnakeHead_on_collision ;;;
  Level_occupy_space position ;;;
  c <- gets (fun s => cherry (game s)) ;;
  match c with
  | None => raise AttributeError
  | Some c =>
      when (bool_decide (position = cherry_position c)) SnakeHead_on_cherry_eaten
  end ;;;
  GameObject_instantiate_SnakePiece old_pos ;;;
  modify (on_game (fun g =>
    set_head (set_position (wrap_overflow (head_position (head g))) (head g)) g)).


(** *** The game loop *)

(** Modelled from the spec: the game classes of [snake.snake] and the
    controller are not among the sources.  A freshly constructed game has
    no Level yet, no input (the zero direction) and no exit request. *)
Definition Game_new : Game :=
  mkGame ∅ SnakeHead_init None [] (0, 0) false.

(** Modelled from the spec: the constructor called with [random_seed]
    seeds the interpreter-wide generator with it, which is how the seed
    reaches the cherry lottery. *)
Definition Game_construct (random_seed_kw : Z) : Sim :=
  mkSim (random_seed random_seed_kw) Game_new.

(** Modelled from the spec: [_init_game] creates the Level, which creates
    the Head and the first Cherry. *)
Definition Game_init_game : M Sim unit := Level_init.

Fixpoint update_all (l : list SnakePiece) : M Sim (list SnakePiece) :=
  match l with
  | [] => ret []
  | p :: t =>
      r <- SnakePiece_update p ;;
      rest <- update_all t ;;
      ret (match r with Some p' => p' :: rest | None => rest end)
  end.

(** Modelled from the spec: one tick of the engine.  The Head takes the
    controller's direction and moves; then every Piece that was alive when
    the tick began ages, so a Piece ages for the first time on the tick
    after its creation. *)
Definition Game_run_step : M Sim unit :=
  n <- gets (fun s => length (pieces (game s))) ;;
  SnakeHead_update_input ;;;
  SnakeHead_update ;;;
  ps <- gets (fun s => pieces (game s)) ;;
  survivors <- update_all (take n ps) ;;
  modify (on_game (set_pieces (survivors ++ drop n ps))).

End Simulating.

(** ** Observation tensors *)

(** A numpy array of three axes as nested lists; the entries of the
    observation are whole numbers stored as floats. *)
Abbreviation ndarray := (list (list (list Z))).

Definition rbind {A B} (r : result A) (k : A -> result B) : result B :=
  match r with Ok a => k a | Raise e => Raise e end.

Notation "x <~ r ;; k" := (rbind r (fun x => k))
  (at level 100, r at next level, right associativity).

(** [np.zeros(shape)]: numpy refuses a negative dimension. *)
Definition np_zeros (shape : Z * Z * Z) : result ndarray :=
  let '(w, h, c) := shape in
  if decide (0 <= w /\ 0 <= h /\ 0 <= c)
  then Ok (replicate (Z.to_nat w) (replicate (Z.to_nat h) (replicate (Z.to_nat c) 0)))
  else Raise ValueError.

(** Indexing an axis of length [n]: a negative index counts from the end,
    anything outside [-n, n) is an IndexError. *)
Definition np_index (n : nat) (i : Z) : result nat :=
  if decide (0 <= i < Z.of_nat n) then Ok (Z.to_nat i)
  else if decide (- Z.of_nat n <= i < 0) then Ok (Z.to_nat (i + Z.of_nat n))
  else Raise IndexError.

Definition lookup_or_raise {A} (l : list A) (i : nat) : result A :=
  match l !! i with Some a => Ok a | None => Raise IndexError end.

(** [features[x][y][c] = v] *)
Definition np_setitem (features : ndarray) (x y c v : Z) : result ndarray :=
  i <~ np_index (length features) x ;;
  row <~ lookup_or_raise features i ;;
  j <~ np_index (length row) y ;;
  cell <~ lookup_or_raise row j ;;
  k <~ np_index (length cell) c ;;
  Ok (<[i := <[j := <[k := v]> cell]> row]> features).

(** [features[x][y][c]] for indices within the shape, 0 elsewhere *)
Definition np_get (features : ndarray) (x y c : nat) : Z :=
  match features !! x with
  | Some row => match row !! y with
                | Some cell => default 0 (cell !! c)
                | None => 0
                end
  | None => 0
  end.

(** ** SnakeGameState *)

(** The attributes of a [SnakeGameState]; [N] is the type of numpy's
    generator states, and [st_game] is absent until the first [reset]. *)
Record GameState (N : Type) := mkSnakeGameState {
  shape : Z * Z * Z;
  width : Z;
  height : Z;
  headless : bool;
  loop : bool;
  random : N;
  st_game : option Game
}.
Arguments mkSnakeGameState {N} _ _ _ _ _ _ _.
Arguments shape {N} _.
Arguments width {N} _.
Arguments height {N} _.
Arguments headless {N} _.
Arguments loop {N} _.
Arguments random {N} _.
Arguments st_game {N} _.

Abbreviation SnakeGameState := (GameState np_state).

(** The interpreter with one environment in it. *)
Record Interpreter (R N : Type) := mkWorld {
  process_random : R;
  state : GameState N
}.
Arguments mkWorld {R N} _ _.
Arguments process_random {R N} _.
Arguments state {R N} _.

Abbreviation World := (Interpreter rng np_state).

Section Environment.
Context {P : Platform}.

Definition set_random (r : np_state) (st : SnakeGameState) : SnakeGameState :=
  mkSnakeGameState (shape st) (width st) (height st) (headless st) (loop st) r (st_game st).
Definition set_game (g : option Game) (st : SnakeGameState) : SnakeGameState :=
  mkSnakeGameState (shape st) (width st) (height st) (headless st) (loop st) (random st) g.

Definition on_state (f : SnakeGameState -> SnakeGameState) (w : World) : World :=
  mkWorld (process_random w) (f (state w)).

(** Run a computation of the simulation on [self.game]; without a game the
    attribute is missing. *)
Definition with_game {A} (m : M Sim A) : M World A :=
  fun w =>
    match st_game (state w) with
    | None => (Raise AttributeError, w)
    | Some g =>
        let (r, s) := m (mkSim (process_random w) g) in
        (r, mkWorld (py_random s) (set_game (Some (game s)) (state w)))
    end.

(** [seed if seed else 1234]: [None] and 0 are both falsy. *)
Definition seed_or_default (seed : option Z) : Z :=
  match seed with
  | Some v => if decide (v = 0) then 1234 else v
  | None => 1234
  end.

Definition SnakeGameState_seed (seed : option Z) : M World unit :=
  let seed := seed_or_default seed in
  match np_RandomState seed with
  | Some r => modify (on_state (set_random r))
  | None => raise ValueError
  end.

(** [SnakeGameState.__init__]; the paths of the windowed game's content
    play no part in the simulation. *)
Definition SnakeGameState_new (width height : Z) (headless loop : bool)
  : result SnakeGameState :=
  if decide ((height, width) <> PLAY_AREA) then Raise ValueError
  else match np_RandomState (seed_or_default None) with
       | Some r => Ok (mkSnakeGameState (width, height, 4) width height headless loop r None)
       | None => Raise ValueError
       end.

(** [reset]: the sub-seed drawn from the environment's own generator is
    handed to the game's constructor; the new game replaces the old one
    and is initialised. *)
Definition SnakeGameState_reset : M World unit :=
  fun w =>
    let (seed, r) := np_randint (random (state w)) 99999 in
    let s := Game_construct seed in
    let st := set_game (Some (game s)) (set_random r (state w)) in
    with_game Game_init_game (mkWorld (py_random s) st).

Definition SnakeGameState_step (direction : Vector2) : M World Z :=
  with_game (modify (on_game (set_controller_direction direction))) ;;;
  last_lenght <- with_game (gets (fun s => head_length (head (game s)))) ;;
  with_game Game_run_step ;;;
  hl <- gets (fun w => headless (state w)) ;;
  when (negb hl) (with_game (modify (on_game extrastep))) ;;;
  len <- with_game (gets (fun s => head_length (head (game s)))) ;;
  exit <- with_game (gets (fun s => should_exit (game s))) ;;
  if decide (len > last_lenght) then ret 1
  else if exit then ret (-1)
  else ret 0.

Definition in_bounds (st : SnakeGameState) (p : Vector2) : bool :=
  bool_decide (p.1 < width st /\ p.1 >= 0 /\ p.2 < height st /\ p.2 >= 0).

(** Python's [%] on integers: the sign follows the divisor, as [Z.modulo]
    does; a zero divisor raises. *)
Definition py_mod (a b : Z) : result Z :=
  if decide (b = 0) then Raise ZeroDivisionError else Ok (a mod b).

Fixpoint encode_pieces (features : ndarray) (l : list SnakePiece) : result ndarray :=
  match l with
  | [] => Ok features
  | piece :: rest =>
      features <~ np_setitem features (piece_position piece).1 (piece_position piece).2
                    0 (piece_age piece + 1) ;;
      encode_pieces features rest
  end.

Definition SnakeGameState_encode (st : SnakeGameState) : result ndarray :=
  features <~ np_zeros (shape st) ;;
  g <~ match st_game st with Some g => Ok g | None => Raise AttributeError end ;;
  features <~ encode_pieces features (set_iter (pieces g)) ;;
  let p := head_position (head g) in
  features <~ (if in_bounds st p then np_setitem features p.1 p.2 1 1 else Ok features) ;;
  let n := Vector2_add (head_position (head g)) (head_direction (head g)) in
  n <~ (if loop st
        then (x <~ py_mod n.1 (width st) ;; y <~ py_mod n.2 (height st) ;; Ok (x, y))
        else Ok n) ;;
  features <~ (if in_bounds st n then np_setitem features n.1 n.2 2 1 else Ok features) ;;
  c <~ match cherry g with Some c => Ok c | None => Raise KeyError end ;;
  np_setitem features (cherry_position c).1 (cherry_position c).2 3 1.

(** ** SnakeEnv *)

(** [SnakeEnv.__init__(height, width, headless)]: the state is built with
    the default [loop=False]; the observation space
    [gym.spaces.Box(shape=self.state.shape)] holds arrays of the state's
    shape, which numpy refuses to allocate for a negative dimension as
    [np.zeros] does; then the state is seeded once more with the
    default. *)
Definition SnakeEnv_new (height width : Z) (headless : bool) : result SnakeGameState :=
  st <~ SnakeGameState_new width height headless false ;;
  _ <~ np_zeros (shape st) ;;
  match np_RandomState (seed_or_default None) with
  | Some r => Ok (set_random r st)
  | None => Raise ValueError
  end.

Definition SnakeEnv_seed (seed : option Z) : M World unit :=
  SnakeGameState_seed seed.

Definition encode : M World ndarray :=
  fun w => (SnakeGameState_encode (state w), w).

Definition SnakeEnv_reset : M World ndarray :=
  SnakeGameState_reset ;;; encode.

(** The [if]/[elif] chain of [SnakeEnv.step] on the fresh [Vector2(0, 0)]. *)
Definition action_direction (action : Z) : option Vector2 :=
  if decide (action = 0) then Some (1, 0)
  else if decide (action = 1) then Some (-1, 0)
  else if decide (action = 2) then Some (0, 1)
  else if decide (action = 3) then Some (0, -1)
  else None.

Definition SnakeEnv_step (action : Z) : M World (ndarray * Z * bool) :=
  match action_direction action with
  | None => raise ValueError
  | Some direction =>
      reward <- SnakeGameState_step direction ;;
      observation <- encode ;;
      ret (observation, reward, bool_decide (reward < 0))
  end.

End Environment.

(** ** Episodes *)

Section Episodes.
Context {P : Platform}.

Definition valid_action (action : Z) : Prop := 0 <= action <= 3.

(** The world after a sequence of [step] calls, whatever each returned. *)
Definition run_actions (actions : list Z) (w : World) : World :=
  fold_left (fun w action => (SnakeEnv_step action w).2) actions w.



(** Two environments built with the same arguments: they agree on all but
    their generator and their current game. *)
Definition same_config (st1 st2 : SnakeGameState) : Prop :=
  shape st1 = shape st2 /\ width st1 = width st2 /\ height st1 = height st2 /\
  headless st1 = headless st2 /\ loop st1 = loop st2.

(** The state of a piece after its first [n] updates, the [k]-th of them
    made in the simulation state [sims k]. *)
Fixpoint piece_after (sims : nat -> Sim) (p : SnakePiece) (n : nat)
  : result (option SnakePiece) :=
  match n with
  | O => Ok (Some p)
  | S k =>
      match piece_after sims p k with
      | Ok (Some q) => (SnakePiece_update q (sims (S k))).1
      | r => r
      end
  end.

(** *** Vocabulary of the statements *)

(** A running headless environment whose grid is not empty and whose Head
    lies below the upper bounds and at most [n] cells below zero. *)
Definition head_within (n : Z) (w : World) : Prop :=
  headless (state w) = true /\ 0 < PLAY_AREA.1 /\ 0 < PLAY_AREA.2 /\
  exists g, st_game (state w) = Some g /\ is_Some (cherry g) /\
    - n <= (head_position (head g)).1 < PLAY_AREA.1 /\
    - n <= (head_position (head g)).2 < PLAY_AREA.2.

(** The coordinates numpy accepts as indices into the observation. *)
Definition index_ok (st : SnakeGameState) (p : Vector2) : Prop :=
  - width st <= p.1 < width st /\ - height st <= p.2 < height st.

(** The cell such coordinates address: a negative index counts from the
    end of its axis. *)
Definition cell_of (st : SnakeGameState) (p : Vector2) : Vector2 :=
  (p.1 mod width st, p.2 mod height st).

End Episodes.

Definition has_shape (f : ndarray) (w h c : nat) : Prop :=
  length f = w /\
  Forall (fun row => length row = h /\ Forall (fun cell : list Z => length cell = c) row) f.

(** ** Further parts of the environment *)

(** *** The spaces of [SnakeEnv.__init__] *)

(** [gym.spaces.Box(low, high, shape)] with scalar bounds. *)
Record Box := mkBox {
  box_low : Z;
  box_high : Z;
  box_shape : Z * Z * Z
}.

(** What [SnakeEnv.__init__] declares beside its state: the reward range,
    [Discrete(4)] by its size, and the observation space, whose upper
    bound is [max_age = height * width]. *)
Record Spaces := mkSpaces {
  reward_range : Z * Z;
  action_space : Z;
  observation_space : Box
}.

Definition SnakeEnv_spaces (height width : Z) : Spaces :=
  let max_age := height * width in
  mkSpaces (-1, 1) 4 (mkBox 0 max_age (width, height, 4)).

(** [Discrete(n).contains] and [Box.contains] on an entry. *)
Definition Discrete_contains (n : Z) (a : Z) : Prop := 0 <= a < n.

Definition Box_contains_entry (b : Box) (v : Z) : Prop := box_low b <= v <= box_high b.

(** ** Registration *)

(** The ids of the presets, a dict read with constant keys. *)
Definition ENV_NAMES : list (string * string) :=
  [("small", "SnakeSmall-v0"); ("normal", "Snake-v0"); ("big", "SnakeBig-v0");
   ("big-headless", "SnakeBigHeadless-v0"); ("normal-headless", "SnakeHeadless-v0")]%string.

Definition ENV_NAMES_getitem (key : string) : result string :=
  match list_find (fun kv => kv.1 = key) ENV_NAMES with
  | Some (_, (_, v)) => Ok v
  | None => Raise KeyError
  end.

(** One call of [gym.envs.register]: the id, the keyword arguments kept
    for the entry point [snake.env:SnakeEnv] and the reward threshold
    (25.0 or 400.0, a whole number in each call).  [headless] is absent
    from the kwargs of the windowed presets and then takes its default;
    [max_episode_steps] is [None] in all five calls. *)
Record registration := mkRegistration {
  reg_id : string;
  reg_width : Z;
  reg_height : Z;
  reg_headless : bool;
  reg_reward_threshold : Z
}.

(** [register()]: the five calls, in order. *)
Definition register : result (list registration) :=
  small <~ ENV_NAMES_getitem "small" ;;
  normal <~ ENV_NAMES_getitem "normal" ;;
  big <~ ENV_NAMES_getitem "big" ;;
  big_headless <~ ENV_NAMES_getitem "big-headless" ;;
  normal_headless <~ ENV_NAMES_getitem "normal-headless" ;;
  Ok [mkRegistration small 4 4 false 25;
      mkRegistration normal 8 8 false 25;
      mkRegistration big 20 20 false 400;
      mkRegistration big_headless 20 20 true 400;
      mkRegistration normal_headless 8 8 true 25].

Section Making.
Context {P : Platform}.

(** The entry point called with the keyword arguments of a registration. *)
Definition registration_make (r : registration) : result SnakeGameState :=
  SnakeEnv_new (reg_height r) (reg_width r) (reg_headless r).

End Making.

(** ** Rendering as text *)

(** [features[x][y][c]] *)
Definition np_getitem (features : ndarray) (x y c : Z) : result Z :=
  i <~ np_index (length features) x ;;
  row <~ lookup_or_raise features i ;;
  j <~ np_index (length row) y ;;
  cell <~ lookup_or_raise row j ;;
  k <~ np_index (length cell) c ;;
  lookup_or_raise cell k.

(** A file is the text written to it so far; [write] appends. *)
Definition write (s : string) : M (list Ascii.ascii) unit :=
  modify (fun out => out ++ String.list_ascii_of_string s).

Definition lift {S A} (r : result A) : M S A := fun s => (r, s).

Fixpoint for_each {S A} (l : list A) (body : A -> M S unit) : M S unit :=
  match l with
  | [] => ret tt
  | a :: rest => body a ;;; for_each rest body
  end.

Definition newline : string := String (Ascii.ascii_of_nat 10) EmptyString.

Section Rendering.
Context {P : Platform}.

(** [render_ansi]: the observation is encoded first, then the frame is
    written line by line; a non-zero entry is truthy. *)
Definition SnakeGameState_render_ansi (st : SnakeGameState) : M (list Ascii.ascii) unit :=
  features <- lift (SnakeGameState_encode st) ;;
  for_each (seqZ 0 (2 * width st + 3)) (fun _ => write "#") ;;;
  write newline ;;;
  for_each (seqZ 0 (height st)) (fun y =>
    write "# " ;;;
    for_each (seqZ 0 (width st)) (fun x =>
      c0 <- lift (np_getitem features x y 0) ;;
      if decide (c0 <> 0) then write "O " else
      (c1 <- lift (np_getitem features x y 1) ;;
       if decide (c1 <> 0) then write "@ " else
       (c3 <- lift (np_getitem features x y 3) ;;
        if decide (c3 <> 0) then write "% " else write ". "))) ;;;
    write ("#" +:+ newline)) ;;;
  for_each (seqZ 0 (2 * width st + 3)) (fun _ => write "#") ;;;
  write newline.

(** What [render] returns: a new [StringIO] with its text, or
    [sys.stdout] itself. *)
Inductive outfile := StringIO (text : list Ascii.ascii) | sys_stdout.

(** [SnakeEnv.render] in a process whose standard output holds the state's
    text: only the mode ["ansi"] is told apart. *)
Definition SnakeEnv_render (mode : string) (st : SnakeGameState)
  : M (list Ascii.ascii) outfile :=
  if decide (mode = "ansi")
  then fun stdout =>
         let (r, text) := SnakeGameState_render_ansi st [] in
         (result_map (fun _ => StringIO text) r, stdout)
  else SnakeGameState_render_ansi st ;;; ret sys_stdout.

(** The two characters [render_ansi] writes for cell (x, y). *)
Definition glyph (features : ndarray) (x y : Z) : string :=
  if decide (np_get features (Z.to_nat x) (Z.to_nat y) 0 <> 0) then "O "
  else if decide (np_get features (Z.to_nat x) (Z.to_nat y) 1 <> 0) then "@ "
  else if decide (np_get features (Z.to_nat x) (Z.to_nat y) 3 <> 0) then "% "
  else ". ".

End Rendering.

Section Frames.
Context {P : Platform}.

(** The frame of an observation as a comprehension: a border of
    2 * width + 3 hashes above and below one line per y. *)
Definition frame_border (st : SnakeGameState) : list Ascii.ascii :=
  concat (map (fun _ : Z => String.list_ascii_of_string "#") (seqZ 0 (2 * width st + 3)))
  ++ String.list_ascii_of_string newline.

Definition frame_line (st : SnakeGameState) (features : ndarray) (y : Z) : list Ascii.ascii :=
  String.list_ascii_of_string "# "
  ++ concat (map (fun x => String.list_ascii_of_string (glyph features x y))
                 (seqZ 0 (width st)))
  ++ String.list_ascii_of_string ("#" +:+ newline).

Definition frame (st : SnakeGameState) (features : ndarray) : list Ascii.ascii :=
  frame_border st
  ++ concat (map (frame_line st features) (seqZ 0 (height st)))
  ++ frame_border st.

End Frames.

(** ** Vocabulary of the further statements *)

Section Reach.
Context {P : Platform}.

(** A cell below the upper bounds of the play area and at most [n] cells
    below zero. *)
Definition within (n : Z) (c : Vector2) : Prop :=
  - n <= c.1 < PLAY_AREA.1 /\ - n <= c.2 < PLAY_AREA.2.

(** Pieces in the order of their creation whose ages count down from
    [hi - 1] to [lo]. *)
Fixpoint ages_run (l : list SnakePiece) (hi lo : Z) : Prop :=
  match l with
  | [] => hi = lo
  | p :: t => piece_age p = hi - 1 /\ ages_run t (hi - 1) lo
  end.

(** What holds of a headless environment [n] ticks after [reset]. *)
Definition episode_state (n : Z) (w : World) : Prop :=
  headless (state w) = true /\ 0 < PLAY_AREA.1 /\ 0 < PLAY_AREA.2 /\
  exists g c,
    st_game (state w) = Some g /\ cherry g = Some c /\
    should_exit g = false /\
    within n (head_position (head g)) /\
    within n (cherry_position c) /\
    (forall x, x ∈ free_space g -> within n x) /\
    Forall (fun p => within n (piece_position p)) (pieces g) /\
    3 <= head_length (head g) <= 3 + n /\
    ages_run (pieces g) (Z.min n (head_length (head g))) 0.

End Reach.

Section Traces.
Context {P : Platform}.

(** What each [step] call of a sequence returns. *)
Fixpoint step_results (actions : list Z) (w : World)
  : list (result (ndarray * Z * bool)) :=
  match actions with
  | [] => []
  | action :: rest =>
      let (r, w') := SnakeEnv_step action w in
      r :: step_results rest w'
  end.

End Traces.

(** The rewards an agent has collected from a sequence of [step] calls:
    a call that raised handed none back. *)
Definition total_reward (results : list (result (ndarray * Z * bool))) : Z :=
  foldr (fun r acc => match r with Ok (_, reward, _) => reward + acc | Raise _ => acc end)
        0 results.

(** ** A small platform to run the definitions on *)

Module Toy.

(** A counter serves as either generator: the draw below [n] is the
    counter modulo [n].  Sets are enumerated by [elements], pieces in the
    order of their creation, and the rendering step does nothing. *)
Definition platform (area : Z * Z) : Platform := {|
  PLAY_AREA := area;
  rng := nat;
  random_seed := Z.to_nat;
  randbelow := fun g n => ((g mod n)%nat, S g);
  randbelow_lt := fun g n H => Nat.mod_upper_bound g n (proj2 (Nat.neq_0_lt_0 n) H);
  set_to_list := elements;
  set_to_list_perm := fun s => reflexivity (elements s);
  set_iter := fun l => l;
  set_iter_perm := fun l => reflexivity l;
  np_state := Z;
  np_RandomState := fun z => if decide (0 <= z < 2 ^ 32) then Some z else None;
  np_randint := fun s n => (s mod n, s + 1);
  extrastep := fun g => g
|}.

Definition small : Platform := platform (4, 4).

#[local] Existing Instance small.

(** What [SnakeEnv(4, 4, headless=True)] builds on it. *)
Definition state0 : SnakeGameState :=
  mkSnakeGameState (4, 4, 4) 4 4 true false 1234 None.

(** The world after [seed(seed)] and [reset()]. *)
Definition start (seed : option Z) : World :=
  (SnakeEnv_reset (SnakeEnv_seed seed (mkWorld 0%nat state0)).2).2.

(** A simulation at rest with the Head at the origin facing +x, the
    cherry on the cell ahead, and the Head's length fixed at 3. *)
Definition sim0 : Sim :=
  mkSim 7%nat
    (mkGame (list_to_set [(1, 0); (0, 1); (1, 1)]) SnakeHead_init
            (Some (mkCherry (1, 0))) [] (1, 0) false).

(** The game of a running world. *)
Definition game_of (w : World) : Game :=
  default Game_new (st_game (state w)).

(** One channel of an observation, cell by cell. *)
Definition channel (k : nat) (T : ndarray) : list Z :=
  flat_map (map (fun cell : list Z => default 0 (cell !! k))) T.

End Toy.

(** * Facts *)

(** Projections of the state records applied to their constructors and
    setters. *)
Ltac record_simpl :=
  cbn [game py_random on_game head cherry pieces free_space controller_direction
       should_exit head_position head_direction head_length
       set_free_space set_head set_cherry set_pieces set_controller_direction
       set_position set_direction set_length
       piece_position piece_age cherry_position fst snd] in *.

Ltac env_simpl :=
  cbn [state process_random on_state st_game set_game set_random shape width height
       headless loop random] in *.

(** ** The Level *)

Section LevelFacts.
Context {P : Platform}.

Lemma Level_unoccupy_space_run (p : Vector2) (s : Sim) :
  Level_unoccupy_space p s
  = (Ok tt, on_game (set_free_space (free_space (game s) ∪ {[p]})) s).
Proof.
  unfold Level_unoccupy_space, modify, on_game. f_equal. f_equal.
  destruct (decide _) as [H|H]; [reflexivity|].
  apply dec_stable in H.
  destruct (game s) as [F h c ps cd ex]; unfold set_free_space; simpl in *.
  f_equal. set_solver.
Qed.

Lemma Level_occupy_space_run (p : Vector2) (s : Sim) :
  Level_occupy_space p s
  = (Ok tt, on_game (set_free_space (free_space (game s) ∖ {[p]})) s).
Proof.
  unfold Level_occupy_space, modify, on_game. f_equal. f_equal.
  destruct (decide _) as [H|H]; [reflexivity|].
  destruct (game s) as [F h c ps cd ex]; unfold set_free_space; simpl in *.
  f_equal. set_solver.
Qed.

Lemma random_choice_run (l : list Vector2) (s : Sim) :
  l <> [] ->
  exists x, x ∈ l /\
    random_choice l s
    = (Ok x, mkSim (randbelow (py_random s) (length l)).2 (game s)).
Proof.
  intros Hl. destruct l as [|a l']; [congruence|].
  unfold random_choice.
  pose proof (randbelow_lt (py_random s) (length (a :: l'))) as Hlt.
  destruct (randbelow (py_random s) (length (a :: l'))) as [i g'] eqn:E.
  simpl in Hlt. eexists; split; [|reflexivity].
  apply list_elem_of_In, nth_In. simpl. apply Hlt. lia.
Qed.

Lemma set_to_list_nil (F : gset Vector2) : set_to_list F = [] <-> F = ∅.
Proof.
  split; intros H.
  - apply leibniz_equiv, elements_empty_inv. pose proof (set_to_list_perm F) as Hp.
    rewrite H in Hp. apply Permutation_nil_l in Hp. rewrite Hp. reflexivity.
  - subst. pose proof (set_to_list_perm ∅) as Hp. rewrite elements_empty in Hp.
    apply Permutation_nil_r in Hp. exact Hp.
Qed.

Lemma elem_of_set_to_list (F : gset Vector2) (x : Vector2) :
  x ∈ set_to_list F <-> x ∈ F.
Proof. rewrite (set_to_list_perm F). apply elem_of_elements. Qed.

End LevelFacts.

(** ** The Head's update *)

Section HeadFacts.
Context {P : Platform}.

Lemma SnakeHead_on_collision_noop (s : Sim) : SnakeHead_on_collision s = (Ok tt, s).
Proof. reflexivity. Qed.

Lemma SnakeHead_update_run (s : Sim) (c : Cherry) :
  cherry (game s) = Some c ->
  let g := game s in
  let p := head_position (head g) in
  let q := Vector2_add p (head_direction (head g)) in
  let free := (free_space g ∪ {[p]}) ∖ {[q]} in
  let after_update (r : rng) (c' : Cherry) (len : Z) :=
    mkSim r
      (mkGame (free ∖ {[p]})
              (mkSnakeHead
                 (if decide (q.1 >= PLAY_AREA.1) then 0 else q.1,
                  if decide (q.2 >= PLAY_AREA.2) then 0 else q.2)
                 (head_direction (head g)) len)
              (Some c')
              (pieces g ++ [mkSnakePiece p 0])
              (controller_direction g) (should_exit g)) in
  (forall s', SnakeHead_on_collision s' = (Ok tt, s')) /\
  (q <> cherry_position c ->
     SnakeHead_update s
     = (Ok tt, after_update (py_random s) c (head_length (head g)))) /\
  (q = cherry_position c -> free <> ∅ ->
     exists x, x ∈ free /\
       SnakeHead_update s
       = (Ok tt, after_update (randbelow (py_random s) (length (set_to_list free))).2
                   (mkCherry x) (head_length (head g) + 1))) /\
  (q = cherry_position c -> free = ∅ ->
     SnakeHead_update s
     = (Raise IndexError,
        mkSim (py_random s)
          (mkGame free (mkSnakeHead q (head_direction (head g)) (head_length (head g)))
                  (Some c) (pieces g) (controller_direction g) (should_exit g)))).
Proof.
  intros Hc. cbv zeta.
  split; [reflexivity|].
  destruct s as [r [F [hp hd hl] ch ps cd ex]]; simpl in *. subst ch.
  unfold SnakeHead_update.
  cbv [bind gets modify].
  rewrite Level_unoccupy_space_run. record_simpl.
  assert (Hcoll : forall (b : bool) s', when b SnakeHead_on_collision s' = (Ok tt, s'))
    by (intros [] ?; reflexivity).
  rewrite Hcoll. unfold when.
  rewrite Level_occupy_space_run. record_simpl.
  repeat split.
  - intros Hne. rewrite bool_decide_eq_false_2 by exact Hne.
    unfold ret at 1. unfold GameObject_instantiate_SnakePiece, SnakePiece_init. cbv [bind modify ret].
    rewrite Level_occupy_space_run. record_simpl. reflexivity.
  - intros Heq Hfree. rewrite bool_decide_eq_true_2 by exact Heq.
    unfold SnakeHead_on_cherry_eaten, Cherry_on_being_eaten, Level_on_cherry_eaten,
      Level_create_cherry, Level_cherry_position_lottery.
    cbv [bind gets modify ret]. record_simpl.
    match goal with |- context [random_choice ?l ?s] =>
      destruct (random_choice_run l s) as (x & Hx & ->) end.
    { rewrite set_to_list_nil. exact Hfree. }
    exists x. split; [apply elem_of_set_to_list in Hx; exact Hx|].
    unfold GameObject_instantiate_SnakePiece, SnakePiece_init, Cherry_init. cbv [bind modify ret].
    rewrite Level_occupy_space_run. record_simpl. reflexivity.
  - intros Heq Hfree. rewrite bool_decide_eq_true_2 by exact Heq.
    unfold SnakeHead_on_cherry_eaten, Cherry_on_being_eaten, Level_on_cherry_eaten,
      Level_create_cherry, Level_cherry_position_lottery.
    cbv [bind gets modify ret]. record_simpl.
    apply set_to_list_nil in Hfree. unfold random_choice. rewrite Hfree.
    reflexivity.
Qed.

(** C1: one update of the Head, in this order: its cell is released;
    the position becomes position + direction, unwrapped; a position that
    is not free calls the collision handler, which changes nothing; the
    new position is occupied; on the Cherry's position the length grows by
    one and a Cherry is drawn from the free set as it is at that moment
    (the new position excluded, the released cell included); a Piece of
    age 0 is spawned on the position held before the move and takes that
    cell; at last x is reset to 0 if x >= PLAY_AREA[0] and y to 0 if
    y >= PLAY_AREA[1], and a negative coordinate stays as it is. *)
Theorem SnakeHead_update_order (s : Sim) (c : Cherry) :
  cherry (game s) = Some c ->
  let g := game s in
  let p := head_position (head g) in
  let q := Vector2_add p (head_direction (head g)) in
  let free := (free_space g ∪ {[p]}) ∖ {[q]} in
  let wrapped := (if decide (q.1 >= PLAY_AREA.1) then 0 else q.1,
                  if decide (q.2 >= PLAY_AREA.2) then 0 else q.2) in
  let after_update (r : rng) (c' : Cherry) (len : Z) :=
    mkSim r
      (mkGame (free ∖ {[p]})
              (mkSnakeHead wrapped (head_direction (head g)) len)
              (Some c')
              (pieces g ++ [mkSnakePiece p 0])
              (controller_direction g) (should_exit g)) in
  (forall s', SnakeHead_on_collision s' = (Ok tt, s')) /\
  (q <> cherry_position c ->
     SnakeHead_update s
     = (Ok tt, after_update (py_random s) c (head_length (head g)))) /\
  (q = cherry_position c -> free <> ∅ ->
     exists x, x ∈ free /\ x <> q /\
       SnakeHead_update s
       = (Ok tt, after_update (randbelow (py_random s) (length (set_to_list free))).2
                   (mkCherry x) (head_length (head g) + 1))) /\
  (0 <= PLAY_AREA.1 -> q.1 < 0 -> wrapped.1 = q.1) /\
  (0 <= PLAY_AREA.2 -> q.2 < 0 -> wrapped.2 = q.2).
Proof.
  intros Hc. cbv zeta.
  destruct (SnakeHead_update_run s c Hc) as (Hcoll & Hmiss & Hhit & _).
  split; [exact Hcoll|]. split; [exact Hmiss|]. split.
  - intros Hq Hfree. destruct (Hhit Hq Hfree) as (x & Hx & E).
    exists x. split; [exact Hx|]. split; [set_solver | exact E].
  - clear. cbn [fst snd]. split; intros Harea Hneg.
    + destruct (decide (_ >= PLAY_AREA.1)); [lia | reflexivity].
    + destruct (decide (_ >= PLAY_AREA.2)); [lia | reflexivity].
Qed.

End HeadFacts.

(** ** Cherries *)

Section CherryFacts.
Context {P : Platform}.

Lemma Level_create_cherry_run (s : Sim) :
  free_space (game s) <> ∅ ->
  exists x, x ∈ free_space (game s) /\
    Level_create_cherry s
    = (Ok (mkCherry x),
       mkSim (randbelow (py_random s) (length (set_to_list (free_space (game s))))).2
             (game s)).
Proof.
  intros Hne. unfold Level_create_cherry, Level_cherry_position_lottery.
  cbv [bind gets ret].
  destruct (random_choice_run (set_to_list (free_space (game s))) s) as (x & Hx & ->).
  { rewrite set_to_list_nil. exact Hne. }
  exists x. split; [apply elem_of_set_to_list; exact Hx | reflexivity].
Qed.

Lemma Level_create_cherry_empty (s : Sim) :
  free_space (game s) = ∅ -> Level_create_cherry s = (Raise IndexError, s).
Proof.
  intros He. unfold Level_create_cherry, Level_cherry_position_lottery, random_choice.
  cbv [bind gets ret]. apply set_to_list_nil in He. rewrite He. reflexivity.
Qed.

Lemma Level_init_run (s : Sim) :
  all_cells <> [] ->
  exists x, x ∈ (list_to_set all_cells : gset Vector2) /\
    Level_init s
    = (Ok tt,
       mkSim (randbelow (py_random s)
                (length (set_to_list (list_to_set all_cells)))).2
         (mkGame (list_to_set all_cells) SnakeHead_init (Some (mkCherry x))
                 (pieces (game s)) (controller_direction (game s))
                 (should_exit (game s)))).
Proof.
  intros Hne. unfold Level_init. cbv [bind modify].
  match goal with |- context [Level_create_cherry ?s0] =>
    destruct (Level_create_cherry_run s0) as (x & Hx & ->) end.
  { record_simpl. destruct all_cells as [|a l]; [congruence|]. set_solver. }
  record_simpl. exists x. split; [exact Hx | reflexivity].
Qed.

Lemma Level_init_empty (s : Sim) :
  all_cells = [] -> (Level_init s).1 = Raise IndexError.
Proof.
  intros He. unfold Level_init. cbv [bind modify]. rewrite Level_create_cherry_empty.
  - reflexivity.
  - record_simpl. rewrite He. reflexivity.
Qed.

(** C7: spawning a cherry, at initialisation and when one is eaten, takes
    the position from the free set as it is then and leaves the free set
    as it was; the drawn cell stays a member. *)
Theorem create_cherry_keeps_free_space (s : Sim) :
  free_space (game (Level_create_cherry s).2) = free_space (game s) /\
  free_space (game (Level_on_cherry_eaten s).2) = free_space (game s) /\
  free_space (game (Level_init s).2) = list_to_set all_cells /\
  (free_space (game s) <> ∅ ->
     exists c, (Level_create_cherry s).1 = Ok c /\
       cherry_position c ∈ free_space (game s) /\
       cherry_position c ∈ free_space (game (Level_create_cherry s).2) /\
       cherry (game (Level_on_cherry_eaten s).2) = Some c /\
       cherry_position c ∈ free_space (game (Level_on_cherry_eaten s).2)) /\
  (all_cells <> [] ->
     exists c, (Level_init s).1 = Ok tt /\
       cherry (game (Level_init s).2) = Some c /\
       cherry_position c ∈ free_space (game (Level_init s).2)).
Proof.
  assert (Hfr : forall s', free_space (game (Level_create_cherry s').2) = free_space (game s')).
  { intros s'. destruct (decide (free_space (game s') = ∅)) as [He|Hne].
    - rewrite (Level_create_cherry_empty _ He). reflexivity.
    - destruct (Level_create_cherry_run _ Hne) as (x & _ & ->). reflexivity. }
  assert (Hea : forall s', free_space (game (Level_on_cherry_eaten s').2) = free_space (game s')).
  { intros s'. unfold Level_on_cherry_eaten. cbv [bind modify].
    specialize (Hfr s'). destruct (Level_create_cherry s') as [[c|e] s'']; exact Hfr. }
  split; [apply Hfr|]. split; [apply Hea|].
  split.
  { unfold Level_init. cbv [bind modify].
    match goal with |- context [Level_create_cherry ?s0] =>
      specialize (Hfr s0); destruct (Level_create_cherry s0) as [[c|e] s''] end;
      record_simpl; exact Hfr. }
  split.
  - intros Hne. destruct (Level_create_cherry_run _ Hne) as (x & Hx & E).
    exists (mkCherry x). unfold Level_on_cherry_eaten. cbv [bind modify].
    rewrite E. record_simpl. repeat split; assumption.
  - intros Hne. destruct (Level_init_run s Hne) as (x & Hx & ->).
    exists (mkCherry x). record_simpl. repeat split. exact Hx.
Qed.

End CherryFacts.

(** ** The reward of a step *)

Section StepFacts.
Context {P : Platform}.

Lemma SnakeGameState_step_run (w : World) (d : Vector2) (g : Game) (s1 : Sim) :
  st_game (state w) = Some g ->
  Game_run_step (mkSim (process_random w) (set_controller_direction d g)) = (Ok tt, s1) ->
  let g2 := if headless (state w) then game s1 else extrastep (game s1) in
  let reward :=
    if decide (head_length (head g2) > head_length (head g)) then 1
    else if should_exit g2 then -1 else 0 in
  SnakeGameState_step d w
  = (Ok reward, mkWorld (py_random s1) (set_game (Some g2) (state w))).
Proof.
  intros Hg Hrun. cbv zeta.
  destruct w as [r st]. env_simpl.
  unfold SnakeGameState_step. cbv [bind]. unfold with_game at 1. env_simpl.
  rewrite Hg. cbv [modify]. unfold with_game at 1. env_simpl.
  cbv [gets]. record_simpl. unfold with_game at 1. env_simpl. record_simpl.
  unfold on_game at 1. record_simpl.
  rewrite Hrun. env_simpl.
  destruct (headless st) eqn:Hh; cbn [negb when]; unfold ret at 1.
  - unfold with_game. env_simpl. record_simpl.
    destruct (decide _); [reflexivity|].
    destruct (should_exit (game s1)); reflexivity.
  - unfold with_game. env_simpl. record_simpl.
    destruct (decide _); [reflexivity|].
    destruct (should_exit (extrastep (game s1))); reflexivity.
Qed.

Lemma SnakeGameState_step_raise (w : World) (d : Vector2) (g : Game) (s1 : Sim) (e : exn) :
  st_game (state w) = Some g ->
  Game_run_step (mkSim (process_random w) (set_controller_direction d g)) = (Raise e, s1) ->
  SnakeGameState_step d w
  = (Raise e, mkWorld (py_random s1) (set_game (Some (game s1)) (state w))).
Proof.
  intros Hg Hrun.
  destruct w as [r st]. env_simpl.
  unfold SnakeGameState_step. cbv [bind]. unfold with_game at 1. env_simpl.
  rewrite Hg. cbv [modify]. unfold with_game at 1. env_simpl.
  cbv [gets]. record_simpl. unfold with_game at 1. env_simpl. record_simpl.
  unfold on_game at 1. record_simpl.
  rewrite Hrun. env_simpl. reflexivity.
Qed.

End StepFacts.

(** ** One tick *)

Section TickFacts.
Context {P : Platform}.

Lemma SnakePiece_update_run (p : SnakePiece) (s : Sim) :
  SnakePiece_update p s
  = if decide (head_length (head (game s)) - (piece_age p + 1) <= 0)
    then (Ok None,
          on_game (set_free_space (free_space (game s) ∪ {[piece_position p]})) s)
    else (Ok (Some (mkSnakePiece (piece_position p) (piece_age p + 1))), s).
Proof.
  unfold SnakePiece_update. cbv [bind gets]. record_simpl.
  destruct (decide _); [|reflexivity].
  rewrite Level_unoccupy_space_run. reflexivity.
Qed.

Lemma update_all_run (l : list SnakePiece) (s : Sim) :
  exists F,
    update_all l s
    = (Ok (omap (fun p =>
                   if decide (head_length (head (game s)) - (piece_age p + 1) <= 0)
                   then None
                   else Some (mkSnakePiece (piece_position p) (piece_age p + 1))) l),
       on_game (set_free_space F) s).
Proof.
  revert s. induction l as [|p l IH]; intros s.
  - exists (free_space (game s)). destruct s as [r []]. reflexivity.
  - cbn [update_all]. cbv [bind]. rewrite SnakePiece_update_run.
    destruct (decide _) as [Hd|Hd].
    + destruct (IH (on_game (set_free_space (free_space (game s) ∪ {[piece_position p]})) s))
        as (F & ->).
      exists F. cbv [ret]. record_simpl. cbn [omap list_omap].
      destruct (decide _); [reflexivity | contradiction].
    + destruct (IH s) as (F & ->). exists F. cbv [ret]. cbn [omap list_omap].
      destruct (decide _); [contradiction | reflexivity].
Qed.

Lemma Vector2_add_moves (p d : Vector2) : d <> (0, 0) -> Vector2_add p d <> p.
Proof.
  destruct p as [x y], d as [dx dy]. unfold Vector2_add. simpl.
  intros Hd Heq. apply Hd. injection Heq as H1 H2. f_equal; lia.
Qed.

Lemma Game_run_step_moves (s : Sim) (c : Cherry) :
  cherry (game s) = Some c ->
  controller_direction (game s) <> (0, 0) ->
  exists s',
    Game_run_step s = (Ok tt, s') /\
    head_position (head (game s'))
      = wrap_overflow (Vector2_add (head_position (head (game s)))
                         (controller_direction (game s))) /\
    head_direction (head (game s')) = controller_direction (game s) /\
    (head_length (head (game s')) = head_length (head (game s)) \/
     head_length (head (game s')) = head_length (head (game s)) + 1) /\
    is_Some (cherry (game s')) /\
    controller_direction (game s') = controller_direction (game s) /\
    should_exit (game s') = should_exit (game s) /\
    pieces (game s')
    = omap (fun p =>
              if decide (head_length (head (game s')) - (piece_age p + 1) <= 0)
              then None
              else Some (mkSnakePiece (piece_position p) (piece_age p + 1)))
           (pieces (game s))
      ++ [mkSnakePiece (head_position (head (game s))) 0].
Proof.
  intros Hc Hd.
  unfold Game_run_step. cbv [bind gets]. unfold SnakeHead_update_input at 1.
  cbv [modify].
  set (s1 := on_game _ s).
  assert (Hc1 : cherry (game s1) = Some c) by exact Hc.
  destruct (SnakeHead_update_run s1 c Hc1) as (_ & Hmiss & Hhit & _).
  destruct (decide (Vector2_add (head_position (head (game s1)))
                      (head_direction (head (game s1))) = cherry_position c)) as [He|Hn].
  - destruct (Hhit He) as (x & _ & ->).
    { assert (head_position (head (game s1)) ∈
              (free_space (game s1) ∪ {[head_position (head (game s1))]})
                ∖ {[Vector2_add (head_position (head (game s1)))
                      (head_direction (head (game s1)))]}) as Hin.
      { apply elem_of_difference. split; [set_solver|].
        rewrite elem_of_singleton. intros E. symmetry in E. revert E.
        apply Vector2_add_moves. exact Hd. }
      set_solver. }
    record_simpl. rewrite take_app_length, drop_app_length.
    match goal with |- context [update_all ?l ?s0] =>
      destruct (update_all_run l s0) as (F & ->) end.
    eexists. split; [reflexivity|]. record_simpl. unfold wrap_overflow.
    subst s1. record_simpl. repeat split; eauto.
  - rewrite (Hmiss Hn).
    record_simpl. rewrite take_app_length, drop_app_length.
    match goal with |- context [update_all ?l ?s0] =>
      destruct (update_all_run l s0) as (F & ->) end.
    eexists. split; [reflexivity|]. record_simpl. unfold wrap_overflow.
    subst s1. record_simpl. repeat split; eauto.
Qed.

End TickFacts.

(** ** Trajectories *)

Section TrajectoryFacts.
Context {P : Platform}.

Lemma action_direction_valid (action : Z) :
  valid_action action <-> exists d, action_direction action = Some d.
Proof.
  unfold valid_action, action_direction. split.
  - intros H. repeat (destruct (decide _); [eauto|]). lia.
  - intros [d H]. repeat (destruct (decide _) in H; [lia|]). discriminate.
Qed.

Lemma action_direction_unit (action : Z) (d : Vector2) :
  action_direction action = Some d ->
  d <> (0, 0) /\ -1 <= d.1 <= 1 /\ -1 <= d.2 <= 1.
Proof.
  unfold action_direction. intros H.
  repeat (destruct (decide _) in H;
          [injection H as <-; simpl; split; [discriminate | lia]|]).
  discriminate.
Qed.

Lemma SnakeEnv_step_world (w : World) (action : Z) (d : Vector2) (g : Game) (s1 : Sim) :
  action_direction action = Some d ->
  st_game (state w) = Some g ->
  Game_run_step (mkSim (process_random w) (set_controller_direction d g)) = (Ok tt, s1) ->
  (SnakeEnv_step action w).2
  = mkWorld (py_random s1)
      (set_game (Some (if headless (state w) then game s1 else extrastep (game s1)))
                (state w)).
Proof.
  intros Ha Hg Hrun. unfold SnakeEnv_step. rewrite Ha. cbv [bind].
  rewrite (SnakeGameState_step_run w d g s1 Hg Hrun).
  unfold encode at 1. cbn [state].
  destruct (SnakeGameState_encode _); reflexivity.
Qed.

Lemma all_cells_nil : PLAY_AREA.1 <= 0 \/ PLAY_AREA.2 <= 0 -> all_cells = [].
Proof.
  unfold all_cells, seqZ. intros [H|H].
  - replace (Z.to_nat PLAY_AREA.1) with O by lia. reflexivity.
  - replace (Z.to_nat PLAY_AREA.2) with O by lia. simpl.
    induction (_ <$> seq 0 (Z.to_nat PLAY_AREA.1)) as [|a l IH]; [reflexivity|].
    simpl. exact IH.
Qed.

Lemma head_within_step (n : Z) (w : World) (action : Z) :
  0 <= n -> valid_action action -> head_within n w ->
  head_within (n + 1) (SnakeEnv_step action w).2.
Proof.
  intros Hn Ha (Hh & Hp1 & Hp2 & g & Hg & [c Hc] & Hx & Hy).
  apply action_direction_valid in Ha as [d Hd].
  destruct (action_direction_unit _ _ Hd) as (Hd0 & Hd1 & Hd2).
  destruct (Game_run_step_moves (mkSim (process_random w) (set_controller_direction d g)) c)
    as (s1 & Hrun & Hpos & _ & _ & Hch & _); [exact Hc | exact Hd0 |].
  rewrite (SnakeEnv_step_world w action d g s1 Hd Hg Hrun).
  rewrite Hh. split; [exact Hh|]. do 2 (split; [assumption|]). exists (game s1). split; [reflexivity|].
  split; [exact Hch|].
  rewrite Hpos. record_simpl. unfold wrap_overflow, Vector2_add. cbn [fst snd].
  split; destruct (decide _); lia.
Qed.

Lemma head_within_run (actions : list Z) (n : Z) (w : World) :
  0 <= n -> Forall valid_action actions -> head_within n w ->
  head_within (n + Z.of_nat (length actions)) (run_actions actions w).
Proof.
  revert n w. induction actions as [|a l IH]; intros n w Hn Hv Hw.
  - cbn [run_actions fold_left length]. replace (n + Z.of_nat 0) with n by lia. exact Hw.
  - inversion Hv as [|? ? Ha Hl]; subst. cbn [run_actions fold_left length].
    replace (n + Z.of_nat (S (length l))) with ((n + 1) + Z.of_nat (length l)) by lia.
    apply IH; [lia | exact Hl |]. apply head_within_step; assumption.
Qed.

Lemma SnakeGameState_reset_run (w : World) :
  (SnakeGameState_reset w).1 = Ok tt ->
  exists g c, st_game (state (SnakeGameState_reset w).2) = Some g /\
    head g = SnakeHead_init /\ cherry g = Some c /\ pieces g = [] /\
    free_space g = list_to_set all_cells /\
    cherry_position c ∈ free_space g /\
    0 < PLAY_AREA.1 /\ 0 < PLAY_AREA.2 /\
    headless (state (SnakeGameState_reset w).2) = headless (state w).
Proof.
  unfold SnakeGameState_reset.
  destruct (np_randint (random (state w)) 99999) as [seed r].
  unfold with_game, Game_construct. env_simpl. record_simpl. unfold Game_init_game.
  set (s0 := mkSim (random_seed seed) Game_new).
  destruct (decide (all_cells = [])) as [He|Hne].
  - pose proof (Level_init_empty s0 He) as E.
    destruct (Level_init s0) as [res s1]. cbn [fst] in *. subst res. discriminate.
  - destruct (Level_init_run s0 Hne) as (x & Hx & ->). intros _. env_simpl.
    eexists _, (mkCherry x). split; [reflexivity|]. record_simpl.
    repeat split; try assumption.
    + destruct (Z_lt_le_dec 0 PLAY_AREA.1); [assumption|].
      exfalso. apply Hne, all_cells_nil. left. lia.
    + destruct (Z_lt_le_dec 0 PLAY_AREA.2); [assumption|].
      exfalso. apply Hne, all_cells_nil. right. lia.
Qed.

Lemma elem_of_all_cells (x y : Z) :
  (x, y) ∈ all_cells <-> 0 <= x < PLAY_AREA.1 /\ 0 <= y < PLAY_AREA.2.
Proof.
  unfold all_cells. split.
  - intros Hin. apply list_elem_of_bind in Hin as (a & Hin & Ha).
    apply list_elem_of_bind in Hin as (b & Hin & Hb).
    apply list_elem_of_singleton in Hin. injection Hin as -> ->.
    apply elem_of_seqZ in Ha. apply elem_of_seqZ in Hb. lia.
  - intros [Hx Hy]. apply list_elem_of_bind. exists x. split; [|apply elem_of_seqZ; lia].
    apply list_elem_of_bind. exists y. split; [left | apply elem_of_seqZ; lia].
Qed.

(** [SnakeHead.init] takes no cell: after [reset] the cell under the Head
    is still in the free set the cherry was drawn from. *)
Lemma reset_leaves_head_cell_free (w : World) :
  (SnakeGameState_reset w).1 = Ok tt ->
  exists g, st_game (state (SnakeGameState_reset w).2) = Some g /\
    head_position (head g) = (0, 0) /\
    head_position (head g) ∈ free_space g.
Proof.
  intros Hok.
  destruct (SnakeGameState_reset_run w Hok)
    as (g & c & Hg & Hhead & _ & _ & Hfree & _ & Hp1 & Hp2 & _).
  exists g. split; [exact Hg|]. rewrite Hhead, Hfree. split; [reflexivity|].
  apply elem_of_list_to_set, elem_of_all_cells. cbn [head_position SnakeHead_init]. lia.
Qed.

(** C2: every [step] with a valid action in a running environment runs
    the tick to its end and computes reward +1 when the Head's length grew
    during the tick, otherwise -1 when the game's exit flag is set,
    otherwise 0; what it returns is the observation with that reward and
    with [done] true exactly when the reward is negative. *)
Theorem step_reward_contract (w : World) (action : Z) (g : Game) (c : Cherry) :
  valid_action action ->
  st_game (state w) = Some g -> cherry g = Some c ->
  exists d s1,
    action_direction action = Some d /\
    Game_run_step (mkSim (process_random w) (set_controller_direction d g)) = (Ok tt, s1) /\
    let g2 := if headless (state w) then game s1 else extrastep (game s1) in
    let w2 := mkWorld (py_random s1) (set_game (Some g2) (state w)) in
    let grew := head_length (head g2) > head_length (head g) in
    let reward := if decide grew then 1 else if should_exit g2 then -1 else 0 in
    let done := bool_decide (reward < 0) in
    SnakeGameState_step d w = (Ok reward, w2) /\
    SnakeEnv_step action w
    = (result_map (fun obs => (obs, reward, done)) (SnakeGameState_encode (state w2)), w2) /\
    (grew -> reward = 1) /\
    (~ grew -> should_exit g2 = true -> reward = -1) /\
    (~ grew -> should_exit g2 = false -> reward = 0) /\
    (done = true <-> reward < 0) /\ (reward < 0 <-> reward = -1).
Proof.
  intros Ha Hg Hc.
  apply action_direction_valid in Ha as [d Hd].
  destruct (action_direction_unit _ _ Hd) as (Hd0 & _).
  destruct (Game_run_step_moves (mkSim (process_random w) (set_controller_direction d g)) c)
    as (s1 & Hrun & _); [exact Hc | exact Hd0 |].
  exists d, s1. split; [exact Hd|]. split; [exact Hrun|]. cbv zeta.
  pose proof (SnakeGameState_step_run w d g s1 Hg Hrun) as Hstep. cbv zeta in Hstep.
  split; [exact Hstep|]. split.
  - unfold SnakeEnv_step. rewrite Hd. cbv [bind]. rewrite Hstep.
    unfold encode at 1. cbn [state].
    destruct (SnakeGameState_encode _); reflexivity.
  - rewrite bool_decide_eq_true.
    destruct (decide _) as [Hgrew|Hgrew];
      [|destruct (should_exit _)]; repeat split; intros; try lia; try contradiction;
      try discriminate.
Qed.

(** C8 (as the code has it): from the state that [reset] leaves, whatever valid
    actions follow, the Head stays below the width and the height, and
    after [n] ticks no coordinate is below [-n]; nothing keeps it from
    going negative. *)
Theorem head_coordinates_bounds (w0 : World) (actions : list Z) :
  headless (state w0) = true ->
  (SnakeGameState_reset w0).1 = Ok tt ->
  Forall valid_action actions ->
  exists g, st_game (state (run_actions actions (SnakeGameState_reset w0).2)) = Some g /\
    - Z.of_nat (length actions) <= (head_position (head g)).1 < PLAY_AREA.1 /\
    - Z.of_nat (length actions) <= (head_position (head g)).2 < PLAY_AREA.2.
Proof.
  intros Hh Hok Hv.
  destruct (SnakeGameState_reset_run w0 Hok)
    as (g0 & c0 & Hg0 & Hhead & Hch & _ & _ & _ & Hp1 & Hp2 & Hhl).
  assert (Hw : head_within 0 (SnakeGameState_reset w0).2).
  { split; [congruence|]. do 2 (split; [assumption|]). exists g0. rewrite Hhead, Hch. simpl.
    repeat split; eauto; lia. }
  destruct (head_within_run actions 0 _ ltac:(lia) Hv Hw) as (_ & _ & _ & g & Hg & _ & Hx & Hy).
  exists g. split; [exact Hg|]. split; lia.
Qed.

End TrajectoryFacts.

(** ** Actions, seeds and episodes *)

Section ContractFacts.
Context {P : Platform}.

(** C6: actions 0, 1, 2, 3 become the directions (1,0), (-1,0), (0,1),
    (0,-1), which is what the simulation is stepped with; any other action
    raises ValueError and leaves the world as it was. *)
Theorem step_action_contract :
  action_direction 0 = Some (1, 0) /\
  action_direction 1 = Some (-1, 0) /\
  action_direction 2 = Some (0, 1) /\
  action_direction 3 = Some (0, -1) /\
  (forall action d w, action_direction action = Some d ->
     SnakeEnv_step action w
     = (reward <- SnakeGameState_step d ;;
        observation <- encode ;;
        ret (observation, reward, bool_decide (reward < 0))) w) /\
  (forall action d w g c,
     action_direction action = Some d ->
     st_game (state w) = Some g -> cherry g = Some c -> headless (state w) = true ->
     exists g', st_game (state (SnakeEnv_step action w).2) = Some g' /\
       controller_direction g' = d /\ head_direction (head g') = d) /\
  (forall action w, ~ (action = 0 \/ action = 1 \/ action = 2 \/ action = 3) ->
     SnakeEnv_step action w = (Raise ValueError, w)).
Proof.
  repeat (split; [reflexivity|]).
  split; [|split].
  - intros action d w Hd. unfold SnakeEnv_step. rewrite Hd. reflexivity.
  - intros action d w g c Hd Hg Hc Hh.
    destruct (action_direction_unit _ _ Hd) as (Hd0 & _).
    destruct (Game_run_step_moves (mkSim (process_random w) (set_controller_direction d g)) c)
      as (s1 & Hrun & _ & Hdir & _ & _ & Hctl & _); [exact Hc | exact Hd0 |].
    rewrite (SnakeEnv_step_world w action d g s1 Hd Hg Hrun). rewrite Hh.
    exists (game s1). split; [reflexivity|]. split; assumption.
  - intros action w Hn. unfold SnakeEnv_step, action_direction.
    repeat (destruct (decide _); [exfalso; apply Hn; tauto|]). reflexivity.
Qed.

(** C10: [seed(0)] takes the default: the generator is built from 1234,
    exactly as by [seed()] without an argument. *)
Theorem seed_zero_is_default_seed (w : World) :
  seed_or_default (Some 0) = 1234 /\
  SnakeGameState_seed (Some 0) w = SnakeGameState_seed None w /\
  SnakeEnv_seed (Some 0) w = SnakeEnv_seed None w /\
  SnakeGameState_seed (Some 0) w
  = match np_RandomState 1234 with
    | Some r => (Ok tt, on_state (set_random r) w)
    | None => (Raise ValueError, w)
    end.
Proof.
  repeat split. unfold SnakeGameState_seed. cbn [seed_or_default].
  destruct (decide (0 = 0)) as [_|H]; [|congruence].
  destruct (np_RandomState 1234); reflexivity.
Qed.


End ContractFacts.

(** ** The life of a piece *)

Section PieceFacts.
Context {P : Platform}.

Lemma piece_after_alive (sims : nat -> Sim) (p q : SnakePiece) (n : nat) :
  piece_after sims p n = Ok (Some q) ->
  piece_position q = piece_position p /\
  piece_age q = piece_age p + Z.of_nat n /\
  ((0 < n)%nat -> head_length (head (game (sims n))) - piece_age q > 0) /\
  (forall k, (k <= n)%nat -> exists q', piece_after sims p k = Ok (Some q')).
Proof.
  revert q. induction n as [|n IH]; intros q H.
  - injection H as <-. repeat split; try lia.
    intros k Hk. exists p. replace k with O by lia. reflexivity.
  - cbn [piece_after] in H.
    destruct (piece_after sims p n) as [[q0|]|e] eqn:E; try discriminate.
    destruct (IH q0 eq_refl) as (Hp & Ha & _ & Hall).
    rewrite SnakePiece_update_run in H.
    destruct (decide _) as [Hd|Hd]; cbn [fst] in H; [discriminate|].
    injection H as <-. record_simpl. repeat split; try lia; try congruence.
    intros k Hk. destruct (decide (k = S n)) as [->|Hne].
    + cbn [piece_after]. rewrite E, SnakePiece_update_run.
      destruct (decide _); [contradiction|]. eauto.
    + apply Hall. lia.
Qed.

Lemma piece_after_total (sims : nat -> Sim) (p : SnakePiece) (n : nat) :
  exists r, piece_after sims p n = Ok r.
Proof.
  induction n as [|n [r IH]]; [eexists; reflexivity|].
  cbn [piece_after]. rewrite IH. destruct r as [q|]; [|eauto].
  rewrite SnakePiece_update_run. destruct (decide _); eauto.
Qed.

Lemma piece_after_gone (sims : nat -> Sim) (p : SnakePiece) (n m : nat) :
  piece_after sims p n = Ok None -> (n <= m)%nat -> piece_after sims p m = Ok None.
Proof.
  intros H Hle. induction Hle as [|m Hle IH]; [exact H|].
  cbn [piece_after]. rewrite IH. reflexivity.
Qed.

Lemma piece_after_expired (sims : nat -> Sim) (p : SnakePiece) (n : nat) :
  (0 < n)%nat ->
  head_length (head (game (sims n))) <= piece_age p + Z.of_nat n ->
  piece_after sims p n = Ok None.
Proof.
  intros Hn Hlen. destruct n as [|n]; [lia|].
  cbn [piece_after].
  destruct (piece_after_total sims p n) as [[q|] E]; rewrite E; [|reflexivity].
  destruct (piece_after_alive sims p q n E) as (_ & Ha & _).
  rewrite SnakePiece_update_run. destruct (decide _) as [|Hd]; [reflexivity|].
  exfalso. apply Hd. lia.
Qed.

(** The first update that finds the piece gone. *)
Lemma piece_after_first_gone (sims : nat -> Sim) (p : SnakePiece) (n : nat) :
  piece_after sims p n = Ok None ->
  exists k q, (k < n)%nat /\ piece_after sims p k = Ok (Some q) /\
    piece_after sims p (S k) = Ok None.
Proof.
  induction n as [|n IH]; [discriminate|].
  intros H. destruct (piece_after_total sims p n) as [[q|] E].
  - exists n, q. repeat split; [lia | exact E | exact H].
  - destruct (IH E) as (k & q & Hk & H1 & H2). exists k, q. repeat split; [lia|..]; assumption.
Qed.

(** C5: an update adds one to the piece's age and destroys it, returning
    its cell to the free set, exactly when head.length - age <= 0 for the
    new age.  Over the updates of its life, one per tick: a piece created
    with age 0 that is destroyed by its n-th update has n equal to the
    Head's length at that update, whatever the length was at creation;
    and it is destroyed by the first update at which the length does not
    exceed the number of updates so far. *)
Theorem piece_update_and_lifetime (sims : nat -> Sim) (p : SnakePiece) :
  (forall s,
     let aged := mkSnakePiece (piece_position p) (piece_age p + 1) in
     (head_length (head (game s)) - piece_age aged <= 0 ->
        SnakePiece_update p s
        = (Ok None, on_game (set_free_space (free_space (game s) ∪ {[piece_position p]})) s) /\
        piece_position p ∈ free_space (game (SnakePiece_update p s).2)) /\
     (~ head_length (head (game s)) - piece_age aged <= 0 ->
        SnakePiece_update p s = (Ok (Some aged), s))) /\
  (piece_age p = 0 ->
   (forall k, 1 <= head_length (head (game (sims k)))) ->
   (forall k, head_length (head (game (sims k))) <= head_length (head (game (sims (S k))))) ->
   (forall n q,
      piece_after sims p n = Ok (Some q) ->
      piece_after sims p (S n) = Ok None ->
      Z.of_nat (S n) = head_length (head (game (sims (S n)))) /\
      head_length (head (game (sims 0%nat))) <= Z.of_nat (S n)) /\
   (forall n, (0 < n)%nat ->
      head_length (head (game (sims n))) <= Z.of_nat n ->
      exists k q, (k < n)%nat /\
        piece_after sims p k = Ok (Some q) /\ piece_age q = Z.of_nat k /\
        piece_after sims p (S k) = Ok None /\
        Z.of_nat (S k) = head_length (head (game (sims (S k)))))).
Proof.
  split.
  - intros s aged. split; intros H.
    + rewrite SnakePiece_update_run. subst aged. record_simpl.
      destruct (decide _); [|contradiction]. split; [reflexivity|].
      cbn [snd]. unfold on_game. record_simpl. set_solver.
    + rewrite SnakePiece_update_run. subst aged. record_simpl.
      destruct (decide _); [contradiction|]. reflexivity.
  - intros Hage Hpos Hmono.
    assert (Hmono' : forall a b, (a <= b)%nat ->
              head_length (head (game (sims a))) <= head_length (head (game (sims b)))).
    { intros a b Hab. induction Hab as [|b Hab IH]; [lia|].
      specialize (Hmono b). lia. }
    assert (Hfirst : forall n q,
      piece_after sims p n = Ok (Some q) ->
      piece_after sims p (S n) = Ok None ->
      Z.of_nat (S n) = head_length (head (game (sims (S n)))) /\
      head_length (head (game (sims 0%nat))) <= Z.of_nat (S n)).
    { intros n q Hq Hgone.
      destruct (piece_after_alive sims p q n Hq) as (_ & Ha & Hlive & _).
      cbn [piece_after] in Hgone. rewrite Hq in Hgone.
      rewrite SnakePiece_update_run in Hgone.
      destruct (decide _) as [Hd|Hd]; cbn [fst] in Hgone; [|discriminate].
      assert (Z.of_nat (S n) = head_length (head (game (sims (S n))))) as Heq.
      { destruct n as [|n].
        - specialize (Hpos 1%nat). lia.
        - specialize (Hlive ltac:(lia)). specialize (Hmono (S n)). lia. }
      split; [exact Heq|]. rewrite Heq. apply Hmono'. lia. }
    split; [exact Hfirst|].
    intros n Hn Hlen.
    destruct (piece_after_first_gone sims p n) as (k & q & Hk & H1 & H2).
    { apply piece_after_expired; [exact Hn | lia]. }
    exists k, q. split; [exact Hk|]. split; [exact H1|].
    destruct (piece_after_alive sims p q k H1) as (_ & Ha & _).
    split; [lia|]. split; [exact H2|]. apply (Hfirst k q H1 H2).
Qed.

End PieceFacts.

(** ** Tensors *)

Section TensorFacts.

Lemma np_zeros_shape (w h c : Z) :
  0 <= w -> 0 <= h -> 0 <= c ->
  exists f, np_zeros (w, h, c) = Ok f /\
    has_shape f (Z.to_nat w) (Z.to_nat h) (Z.to_nat c) /\
    forall i j k, np_get f i j k = 0.
Proof.
  intros Hw Hh Hc. unfold np_zeros.
  destruct (decide _) as [_|Hn]; [|lia].
  eexists. split; [reflexivity|]. split.
  - split; [apply length_replicate|].
    apply Forall_replicate. split; [apply length_replicate|].
    apply Forall_replicate. apply length_replicate.
  - intros i j k. unfold np_get.
    destruct (_ !! i) as [row|] eqn:E1; [|reflexivity].
    apply lookup_replicate in E1 as [-> _].
    destruct (_ !! j) as [cell|] eqn:E2; [|reflexivity].
    apply lookup_replicate in E2 as [-> _].
    destruct (_ !! k) as [v|] eqn:E3; [|reflexivity].
    apply lookup_replicate in E3 as [-> _]. reflexivity.
Qed.

Lemma np_index_ok (n : nat) (i : Z) :
  - Z.of_nat n <= i < Z.of_nat n ->
  np_index n i = Ok (Z.to_nat (i mod Z.of_nat n)) /\
  (Z.to_nat (i mod Z.of_nat n) < n)%nat.
Proof.
  intros H. unfold np_index.
  assert (0 < Z.of_nat n) by lia.
  pose proof (Z.mod_pos_bound i (Z.of_nat n) ltac:(lia)).
  split; [|lia].
  destruct (decide (0 <= i < Z.of_nat n)).
  - rewrite Z.mod_small by lia. reflexivity.
  - destruct (decide _); [|lia].
    replace (i mod Z.of_nat n) with (i + Z.of_nat n); [reflexivity|].
    symmetry. rewrite <- (Z.mod_small (i + Z.of_nat n) (Z.of_nat n)) by lia.
    rewrite <- (Z_mod_plus_full i 1 (Z.of_nat n)). f_equal. lia.
Qed.

Lemma np_setitem_ok (f : ndarray) (w h c : nat) (x y k v : Z) :
  has_shape f w h c ->
  - Z.of_nat w <= x < Z.of_nat w ->
  - Z.of_nat h <= y < Z.of_nat h ->
  0 <= k < Z.of_nat c ->
  exists f', np_setitem f x y k v = Ok f' /\ has_shape f' w h c /\
    forall i j l,
      np_get f' i j l
      = if decide (i = Z.to_nat (x mod Z.of_nat w) /\ j = Z.to_nat (y mod Z.of_nat h)
                   /\ l = Z.to_nat k)
        then v else np_get f i j l.
Proof.
  intros [Hlen Hrows] Hx Hy Hk. unfold np_setitem.
  rewrite Hlen. destruct (np_index_ok w x Hx) as [-> Hi]. cbn [rbind].
  set (i0 := Z.to_nat (x mod Z.of_nat w)) in *.
  destruct (lookup_lt_is_Some_2 f i0 ltac:(lia)) as [row Hrow].
  unfold lookup_or_raise at 1. rewrite Hrow. cbn [rbind].
  pose proof (proj1 (Forall_lookup _ _) Hrows i0 row Hrow) as [Hrl Hcells].
  rewrite Hrl. destruct (np_index_ok h y Hy) as [-> Hj]. cbn [rbind].
  set (j0 := Z.to_nat (y mod Z.of_nat h)) in *.
  destruct (lookup_lt_is_Some_2 row j0 ltac:(lia)) as [cell Hcell].
  unfold lookup_or_raise at 1. rewrite Hcell. cbn [rbind].
  pose proof (proj1 (Forall_lookup _ _) Hcells j0 cell Hcell) as Hcl.
  cbv beta in Hcl. rewrite Hcl.
  assert (np_index c k = Ok (Z.to_nat k)) as ->.
  { unfold np_index. destruct (decide _); [reflexivity | lia]. }
  cbn [rbind]. eexists. split; [reflexivity|]. split.
  - unfold has_shape. split; [rewrite length_insert; exact Hlen|].
    apply Forall_insert; [exact Hrows|]. cbv beta.
    split; [rewrite length_insert; exact Hrl|].
    apply Forall_insert; [exact Hcells|]. cbv beta. rewrite length_insert. exact Hcl.
  - intros i j l. unfold np_get.
    destruct (decide (i = i0)) as [->|Hni].
    + rewrite list_lookup_insert_eq by lia. rewrite Hrow.
      destruct (decide (j = j0)) as [->|Hnj].
      * rewrite list_lookup_insert_eq by lia. rewrite Hcell.
        destruct (decide (l = Z.to_nat k)) as [->|Hnl].
        -- rewrite list_lookup_insert_eq by lia.
           destruct (decide _) as [_|Hn]; [reflexivity|]. exfalso. apply Hn. tauto.
        -- rewrite list_lookup_insert_ne by congruence.
           destruct (decide _) as [(_ & _ & Hl)|_]; [contradiction | reflexivity].
      * rewrite list_lookup_insert_ne by congruence.
        destruct (decide _) as [(_ & Hj' & _)|_]; [contradiction | reflexivity].
    + rewrite list_lookup_insert_ne by congruence.
      destruct (decide _) as [(Hi' & _)|_]; [contradiction | reflexivity].
Qed.

End TensorFacts.

(** ** The observation *)

Section EncodeFacts.
Context {P : Platform}.

Lemma np_setitem_cell (st : SnakeGameState) (f : ndarray) (p : Vector2) (k v : Z) :
  has_shape f (Z.to_nat (width st)) (Z.to_nat (height st)) 4 ->
  index_ok st p -> 0 <= k < 4 ->
  exists f', np_setitem f p.1 p.2 k v = Ok f' /\
    has_shape f' (Z.to_nat (width st)) (Z.to_nat (height st)) 4 /\
    forall x y l, 0 <= x < width st -> 0 <= y < height st ->
      np_get f' (Z.to_nat x) (Z.to_nat y) l
      = if decide (cell_of st p = (x, y) /\ l = Z.to_nat k) then v
        else np_get f (Z.to_nat x) (Z.to_nat y) l.
Proof.
  intros Hs [Hx Hy] Hk.
  destruct (np_setitem_ok f _ _ 4 p.1 p.2 k v Hs) as (f' & E & Hs' & Hget);
    [lia | lia | lia |].
  exists f'. split; [exact E|]. split; [exact Hs'|].
  intros x y l Hxr Hyr. rewrite Hget.
  rewrite !Z2Nat.id by lia.
  pose proof (Z.mod_pos_bound p.1 (width st) ltac:(lia)).
  pose proof (Z.mod_pos_bound p.2 (height st) ltac:(lia)).
  unfold cell_of.
  destruct (decide (_ /\ _ /\ _)) as [(H1 & H2 & H3)|Hn];
    destruct (decide (_ /\ _)) as [[H4 H5]|Hm]; try reflexivity.
  - exfalso. apply Hm. split; [|exact H3]. f_equal; lia.
  - exfalso. apply Hn. injection H4 as H4 H6. repeat split; [lia | lia | exact H5].
Qed.

Lemma in_bounds_cell (st : SnakeGameState) (p : Vector2) :
  in_bounds st p = true -> index_ok st p /\ cell_of st p = p.
Proof.
  unfold in_bounds. intros H. apply bool_decide_eq_true in H.
  split; [unfold index_ok; lia|].
  unfold cell_of. destruct p as [a b]. cbn [fst snd] in *.
  rewrite !Z.mod_small by lia. reflexivity.
Qed.

Lemma guarded_setitem_cell (st : SnakeGameState) (f : ndarray) (p : Vector2) (k : Z) :
  has_shape f (Z.to_nat (width st)) (Z.to_nat (height st)) 4 ->
  0 <= k < 4 ->
  exists f', (if in_bounds st p then np_setitem f p.1 p.2 k 1 else Ok f) = Ok f' /\
    has_shape f' (Z.to_nat (width st)) (Z.to_nat (height st)) 4 /\
    forall x y l, 0 <= x < width st -> 0 <= y < height st ->
      np_get f' (Z.to_nat x) (Z.to_nat y) l
      = if decide (p = (x, y) /\ l = Z.to_nat k) then 1
        else np_get f (Z.to_nat x) (Z.to_nat y) l.
Proof.
  intros Hs Hk. destruct (in_bounds st p) eqn:Hb.
  - destruct (in_bounds_cell st p Hb) as [Hok Hcell].
    destruct (np_setitem_cell st f p k 1 Hs Hok Hk) as (f' & E & Hs' & Hget).
    exists f'. split; [exact E|]. split; [exact Hs'|].
    intros x y l Hx Hy. rewrite (Hget x y l Hx Hy), Hcell. reflexivity.
  - exists f. split; [reflexivity|]. split; [exact Hs|].
    intros x y l Hx Hy. destruct (decide _) as [[-> _]|_]; [|reflexivity].
    exfalso. unfold in_bounds in Hb. apply bool_decide_eq_false in Hb.
    apply Hb. cbn [fst snd]. lia.
Qed.

Lemma encode_pieces_cells (st : SnakeGameState) (f : ndarray) (l : list SnakePiece) :
  has_shape f (Z.to_nat (width st)) (Z.to_nat (height st)) 4 ->
  Forall (fun p => index_ok st (piece_position p)) l ->
  exists f', encode_pieces f l = Ok f' /\
    has_shape f' (Z.to_nat (width st)) (Z.to_nat (height st)) 4 /\
    forall x y, 0 <= x < width st -> 0 <= y < height st ->
      (forall k, k <> 0%nat ->
         np_get f' (Z.to_nat x) (Z.to_nat y) k = np_get f (Z.to_nat x) (Z.to_nat y) k) /\
      (((forall p, p ∈ l -> cell_of st (piece_position p) <> (x, y)) /\
        np_get f' (Z.to_nat x) (Z.to_nat y) 0 = np_get f (Z.to_nat x) (Z.to_nat y) 0) \/
       (exists p, p ∈ l /\ cell_of st (piece_position p) = (x, y) /\
          np_get f' (Z.to_nat x) (Z.to_nat y) 0 = piece_age p + 1)).
Proof.
  revert f. induction l as [|p l IH]; intros f Hs Hall.
  - exists f. split; [reflexivity|]. split; [exact Hs|].
    intros x y Hx Hy. split; [reflexivity|]. left. split; [|reflexivity].
    intros p Hp. inversion Hp.
  - inversion Hall as [|? ? Hp Hl]; subst.
    destruct (np_setitem_cell st f (piece_position p) 0 (piece_age p + 1) Hs Hp ltac:(lia))
      as (f1 & E1 & Hs1 & Hget1).
    destruct (IH f1 Hs1 Hl) as (f' & E' & Hs' & Hget').
    exists f'. cbn [encode_pieces]. rewrite E1. cbn [rbind]. split; [exact E'|].
    split; [exact Hs'|].
    intros x y Hx Hy. destruct (Hget' x y Hx Hy) as [Hother Hzero]. split.
    + intros k Hk. rewrite (Hother k Hk), (Hget1 x y k Hx Hy).
      destruct (decide _) as [[_ Hk0]|_]; [|reflexivity]. simpl in Hk0. contradiction.
    + destruct Hzero as [[Hnone Hsame]|(q & Hq & Hcell & Hval)].
      * rewrite Hsame, (Hget1 x y 0%nat Hx Hy).
        destruct (decide _) as [[Hc _]|Hn].
        -- right. exists p. split; [left|]. split; [exact Hc | reflexivity].
        -- left. split; [|reflexivity].
           intros q Hq. apply elem_of_cons in Hq as [->|Hq]; [|apply Hnone; exact Hq].
           intros Hc. apply Hn. split; [exact Hc | reflexivity].
      * right. exists q. split; [right; exact Hq|]. split; assumption.
Qed.

End EncodeFacts.

Section EncodeTheorem.
Context {P : Platform}.


End EncodeTheorem.

(** * The definitions at work on the small platform *)

Section Runs.
#[local] Existing Instance Toy.small.

(** [Toy.state0] is what the constructor returns. *)
Lemma SnakeEnv_new_small : SnakeEnv_new 4 4 true = Ok Toy.state0.
Proof. reflexivity. Qed.

(** The Head of [Toy.sim0] moves onto the cherry ahead of it: it grows to
    length 4 and leaves a piece of age 0 behind. *)
Lemma SnakeHead_update_order_witness :
  cherry (game Toy.sim0) = Some (mkCherry (1, 0)) /\
  Vector2_add (head_position (head (game Toy.sim0)))
    (head_direction (head (game Toy.sim0))) = (1, 0) /\
  (SnakeHead_update Toy.sim0).1 = Ok tt /\
  head (game (SnakeHead_update Toy.sim0).2) = mkSnakeHead (1, 0) (1, 0) 4 /\
  pieces (game (SnakeHead_update Toy.sim0).2) = [mkSnakePiece (0, 0) 0].
Proof.
  split; [reflexivity|]. split; [reflexivity|].
  destruct (SnakeHead_update_order Toy.sim0 (mkCherry (1, 0)) eq_refl)
    as (_ & _ & Hhit & _).
  destruct Hhit as (x & _ & _ & E).
  - reflexivity.
  - intros H. apply (f_equal elements) in H. vm_compute in H. discriminate H.
  - rewrite E. repeat split.
Defined.

(** A cherry drawn for [Toy.sim0] lies in its free set, before and after. *)
Lemma create_cherry_keeps_free_space_witness :
  free_space (game Toy.sim0) <> ∅ /\
  exists c, (Level_create_cherry Toy.sim0).1 = Ok c /\
    cherry_position c ∈ free_space (game (Level_create_cherry Toy.sim0).2).
Proof.
  assert (H : free_space (game Toy.sim0) <> ∅).
  { intros H. apply (f_equal elements) in H. vm_compute in H. discriminate H. }
  split; [exact H|].
  destruct (create_cherry_keeps_free_space Toy.sim0) as (_ & _ & _ & Hdraw & _).
  destruct (Hdraw H) as (c & Hc & _ & Hin & _).
  exists c. split; assumption.
Defined.

(** After [reset] with the default seed the cherry lies on (0,1); action 2
    moves the Head onto it: reward 1, not done, length 4. *)
Lemma step_reward_contract_witness :
  let w := Toy.start None in
  let g := Toy.game_of w in
  valid_action 2 /\ st_game (state w) = Some g /\ cherry g = Some (mkCherry (0, 1)) /\
  head_length (head g) = 3 /\
  exists obs w2,
    SnakeEnv_step 2 w = (Ok (obs, 1, false), w2) /\
    head_length (head (Toy.game_of w2)) = 4.
Proof.
  intros w g.
  assert (Ha : valid_action 2) by (unfold valid_action; lia).
  assert (Hg : st_game (state w) = Some g) by (vm_compute; reflexivity).
  assert (Hc : cherry g = Some (mkCherry (0, 1))) by (vm_compute; reflexivity).
  repeat (split; [first [assumption | reflexivity]|]).
  destruct (@step_reward_contract Toy.small w 2 g (mkCherry (0, 1)) Ha Hg Hc)
    as (d & s1 & Hd & Hrun & _ & E & _).
  injection Hd as <-.
  assert (Hs1 : s1 = (Game_run_step
                        (mkSim (process_random w) (set_controller_direction (0, 1) g))).2)
    by (rewrite Hrun; reflexivity).
  rewrite Hs1 in E. rewrite E.
  match goal with
  | |- exists obs w2, (result_map _ (SnakeGameState_encode (state ?X)), _) = _ /\ _ =>
      exists (match SnakeGameState_encode (state X) with Ok o => o | Raise _ => [] end), X
  end.
  split; vm_compute; reflexivity.
Defined.


(** Two steps to the left from the initial state: both coordinates lie in
    [-2, 4). *)
Lemma head_coordinates_bounds_witness :
  let w0 : World := mkWorld 0%nat Toy.state0 in
  headless (state w0) = true /\
  (SnakeGameState_reset w0).1 = Ok tt /\
  Forall valid_action [1; 1] /\
  exists g, st_game (state (run_actions [1; 1] (SnakeGameState_reset w0).2)) = Some g /\
    -2 <= (head_position (head g)).1 < 4 /\ -2 <= (head_position (head g)).2 < 4.
Proof.
  intros w0.
  assert (Hv : Forall valid_action [1; 1]).
  { repeat constructor; unfold valid_action; lia. }
  split; [reflexivity|]. split; [vm_compute; reflexivity|]. split; [exact Hv|].
  apply (@head_coordinates_bounds Toy.small w0 [1; 1] eq_refl); [vm_compute; reflexivity | exact Hv].
Defined.

(** With action 1 as the first step after [reset], the Head stands on
    x = -1. *)
Lemma head_goes_negative :
  Forall valid_action [1] /\
  exists g, st_game (state (run_actions [1] (Toy.start None))) = Some g /\
    head_position (head g) = (-1, 0) /\
    ~ (0 <= (head_position (head g)).1).
Proof.
  split; [repeat constructor; unfold valid_action; lia|].
  eexists. split; [vm_compute; reflexivity|]. split; [reflexivity|].
  cbn. lia.
Qed.

(** Action 4 raises and leaves the world alone; action 1 steps the
    simulation with direction (-1,0). *)
Lemma step_action_contract_witness :
  ~ (4 = 0 \/ 4 = 1 \/ 4 = 2 \/ 4 = 3) /\
  SnakeEnv_step 4 (Toy.start None) = (Raise ValueError, Toy.start None) /\
  action_direction 1 = Some (-1, 0) /\
  SnakeEnv_step 1 (Toy.start None)
  = (reward <- SnakeGameState_step (-1, 0) ;;
     observation <- encode ;;
     ret (observation, reward, bool_decide (reward < 0))) (Toy.start None).
Proof.
  assert (H : ~ (4 = 0 \/ 4 = 1 \/ 4 = 2 \/ 4 = 3)) by lia.
  destruct (@step_action_contract Toy.small) as (_ & H1 & _ & _ & Hvalid & _ & Hbad).
  split; [exact H|]. split; [exact (Hbad 4 (Toy.start None) H)|].
  split; [exact H1|]. exact (Hvalid 1 (-1, 0) (Toy.start None) H1).
Defined.

(** With the Head's length constant at 3 a piece is destroyed by its third
    update. *)
Lemma piece_update_and_lifetime_witness :
  let sims := fun _ : nat => Toy.sim0 in
  let p := mkSnakePiece (0, 0) 0 in
  piece_age p = 0 /\
  (forall k, 1 <= head_length (head (game (sims k)))) /\
  (forall k, head_length (head (game (sims k))) <= head_length (head (game (sims (S k))))) /\
  head_length (head (game (sims 3%nat))) <= 3 /\
  exists k q, (k < 3)%nat /\
    piece_after sims p k = Ok (Some q) /\ piece_age q = Z.of_nat k /\
    piece_after sims p (S k) = Ok None /\
    Z.of_nat (S k) = head_length (head (game (sims (S k)))).
Proof.
  intros sims p.
  assert (H1 : forall k, 1 <= head_length (head (game (sims k)))) by (intros k; cbn; lia).
  assert (H2 : forall k, head_length (head (game (sims k)))
                         <= head_length (head (game (sims (S k))))) by (intros k; cbn; lia).
  assert (H3 : head_length (head (game (sims 3%nat))) <= 3) by (cbn; lia).
  split; [reflexivity|]. split; [exact H1|]. split; [exact H2|]. split; [exact H3|].
  destruct (piece_update_and_lifetime sims p) as [_ Hlife].
  destruct (Hlife eq_refl H1 H2) as [_ Hex].
  exact (Hex 3%nat ltac:(lia) H3).
Defined.



(** C9: on the 4x4 grid the lottery of [reset] draws from all sixteen
    cells, the Head's own cell among them; with the generator's first draw
    on that cell's index the cherry lies under the Head: channel 3 has
    its single 1 at (0,0). *)
Theorem reset_cherry_on_head_cell :
  let w := Toy.start (Some 3) in
  exists T g,
    SnakeGameState_encode (state w) = Ok T /\
    st_game (state w) = Some g /\
    head_position (head g) = (0, 0) /\
    cherry g = Some (mkCherry (0, 0)) /\
    (0, 0) ∈ free_space g /\
    np_get T 0 0 3 = 1 /\
    count_occ Z.eq_dec (Toy.channel 3 T) 1 = 1%nat.
Proof.
  eexists _, _.
  split; [vm_compute; reflexivity|]. split; [vm_compute; reflexivity|].
  split; [reflexivity|]. split; [reflexivity|].
  split; [|split; reflexivity].
  apply elem_of_elements. vm_compute. do 3 right. left.
Qed.

End Runs.

(** * Further facts *)

(** * Further facts: what an episode keeps *)

Section ReachFacts.
Context {P : Platform}.

Lemma update_all_within (l : list SnakePiece) (s : Sim) :
  exists F,
    update_all l s
    = (Ok (omap (fun p =>
                   if decide (head_length (head (game s)) - (piece_age p + 1) <= 0)
                   then None
                   else Some (mkSnakePiece (piece_position p) (piece_age p + 1))) l),
       on_game (set_free_space F) s) /\
    forall x, x ∈ F -> x ∈ free_space (game s) \/ exists p, p ∈ l /\ piece_position p = x.
Proof.
  revert s. induction l as [|p l IH]; intros s.
  - exists (free_space (game s)). split; [destruct s as [r []]; reflexivity|].
    intros x Hx. left. exact Hx.
  - cbn [update_all]. cbv [bind]. rewrite SnakePiece_update_run.
    destruct (decide _) as [Hd|Hd].
    + destruct (IH (on_game (set_free_space (free_space (game s) ∪ {[piece_position p]})) s))
        as (F & -> & HF).
      exists F. split.
      * cbv [ret]. record_simpl. cbn [omap list_omap].
        destruct (decide _); [reflexivity | contradiction].
      * intros x Hx. destruct (HF x Hx) as [Hin|(q & Hq & Hpos)].
        -- record_simpl. apply elem_of_union in Hin as [Hin|Hin]; [left; exact Hin|].
           apply elem_of_singleton in Hin. right. exists p. split; [left | congruence].
        -- right. exists q. split; [right; exact Hq | exact Hpos].
    + destruct (IH s) as (F & -> & HF). exists F. split.
      * cbv [ret]. cbn [omap list_omap].
        destruct (decide _); [contradiction | reflexivity].
      * intros x Hx. destruct (HF x Hx) as [Hin|(q & Hq & Hpos)]; [left; exact Hin|].
        right. exists q. split; [right; exact Hq | exact Hpos].
Qed.

(** One tick with a non-zero direction, in full. *)
Lemma Game_run_step_full (s : Sim) (c : Cherry) :
  cherry (game s) = Some c ->
  controller_direction (game s) <> (0, 0) ->
  let g := game s in
  let p := head_position (head g) in
  let d := controller_direction g in
  let q := Vector2_add p d in
  exists s' c',
    Game_run_step s = (Ok tt, s') /\
    head_position (head (game s')) = wrap_overflow q /\
    head_direction (head (game s')) = d /\
    cherry (game s') = Some c' /\
    (q <> cherry_position c ->
       c' = c /\ head_length (head (game s')) = head_length (head g) /\
       py_random s' = py_random s) /\
    (q = cherry_position c ->
       head_length (head (game s')) = head_length (head g) + 1 /\
       cherry_position c' <> q /\
       (cherry_position c' ∈ free_space g \/ cherry_position c' = p)) /\
    (forall x, x ∈ free_space (game s') ->
       x ∈ free_space g \/ x = p \/ exists a, a ∈ pieces g /\ piece_position a = x) /\
    controller_direction (game s') = d /\
    should_exit (game s') = should_exit g /\
    pieces (game s')
    = omap (fun a =>
              if decide (head_length (head (game s')) - (piece_age a + 1) <= 0)
              then None
              else Some (mkSnakePiece (piece_position a) (piece_age a + 1)))
           (pieces g)
      ++ [mkSnakePiece p 0].
Proof.
  intros Hc Hd. cbv zeta.
  unfold Game_run_step. cbv [bind gets]. unfold SnakeHead_update_input at 1.
  cbv [modify].
  set (s1 := on_game _ s).
  assert (Hc1 : cherry (game s1) = Some c) by exact Hc.
  destruct (SnakeHead_update_run s1 c Hc1) as (_ & Hmiss & Hhit & _).
  assert (Hfree : forall (F : gset Vector2) (x : Vector2),
            x ∈ F ->
            (forall y, y ∈ F -> y ∈ ((free_space (game s) ∪ {[head_position (head (game s))]})
                       ∖ {[Vector2_add (head_position (head (game s)))
                             (controller_direction (game s))]})
                       ∖ {[head_position (head (game s))]}
                     \/ exists a, a ∈ pieces (game s) /\ piece_position a = y) ->
            x ∈ free_space (game s) \/ x = head_position (head (game s)) \/
            exists a, a ∈ pieces (game s) /\ piece_position a = x).
  { intros F x Hx HF. destruct (HF x Hx) as [Hin|Hp]; [|right; right; exact Hp].
    left. set_solver. }
  destruct (decide (Vector2_add (head_position (head (game s1)))
                      (head_direction (head (game s1))) = cherry_position c)) as [He|Hn].
  - destruct (Hhit He) as (x & Hx & ->).
    { assert (head_position (head (game s1)) ∈
              (free_space (game s1) ∪ {[head_position (head (game s1))]})
                ∖ {[Vector2_add (head_position (head (game s1)))
                      (head_direction (head (game s1)))]}) as Hin.
      { apply elem_of_difference. split; [set_solver|].
        rewrite elem_of_singleton. intros E. symmetry in E. revert E.
        apply Vector2_add_moves. exact Hd. }
      set_solver. }
    record_simpl. rewrite take_app_length, drop_app_length.
    match goal with |- context [update_all ?l ?s0] =>
      destruct (update_all_within l s0) as (F & -> & HF) end.
    eexists _, (mkCherry x). split; [reflexivity|]. record_simpl. unfold wrap_overflow.
    subst s1. record_simpl.
    split; [reflexivity|]. split; [reflexivity|]. split; [reflexivity|].
    split; [intros Hne; contradiction|].
    split.
    { intros _. split; [reflexivity|]. split; [set_solver|]. set_solver. }
    split.
    { intros y Hy. apply (Hfree F y Hy). intros z Hz.
      destruct (HF z Hz) as [Hin|(a & Ha & Hpos)]; [left; exact Hin | right; eauto]. }
    repeat split; eauto.
  - rewrite (Hmiss Hn).
    record_simpl. rewrite take_app_length, drop_app_length.
    match goal with |- context [update_all ?l ?s0] =>
      destruct (update_all_within l s0) as (F & -> & HF) end.
    eexists _, c. split; [reflexivity|]. record_simpl. unfold wrap_overflow.
    subst s1. record_simpl.
    split; [reflexivity|]. split; [reflexivity|]. split; [reflexivity|].
    split; [intros _; repeat split|].
    split; [intros He; contradiction|].
    split.
    { intros y Hy. apply (Hfree F y Hy). intros z Hz.
      destruct (HF z Hz) as [Hin|(a & Ha & Hpos)]; [left; exact Hin | right; eauto]. }
    repeat split; eauto.
Qed.

End ReachFacts.

Section EpisodeFacts.
Context {P : Platform}.

Lemma ages_run_length (l : list SnakePiece) (hi lo : Z) :
  ages_run l hi lo -> Z.of_nat (length l) = hi - lo.
Proof.
  revert hi. induction l as [|p l IH]; intros hi H; cbn [ages_run length] in *.
  - lia.
  - destruct H as [_ H]. specialize (IH _ H). lia.
Qed.

Lemma ages_run_bounds (l : list SnakePiece) (hi lo : Z) :
  ages_run l hi lo -> Forall (fun p => lo <= piece_age p < hi) l.
Proof.
  revert hi. induction l as [|p l IH]; intros hi H; cbn [ages_run] in *; [constructor|].
  destruct H as [Hp H]. pose proof (ages_run_length _ _ _ H) as Hlen.
  constructor; [lia|].
  eapply Forall_impl; [apply (IH _ H)|]. cbv beta. intros q Hq. lia.
Qed.

Lemma ages_run_aged (l : list SnakePiece) (hi lo : Z) :
  ages_run l hi lo ->
  ages_run (map (fun p => mkSnakePiece (piece_position p) (piece_age p + 1)) l)
           (hi + 1) (lo + 1).
Proof.
  revert hi. induction l as [|p l IH]; intros hi H; cbn [ages_run map] in *; [lia|].
  destruct H as [Hp H]. split; [cbn; lia|].
  replace (hi + 1 - 1) with (hi - 1 + 1) by lia. apply IH. exact H.
Qed.

Lemma ages_run_app (l l' : list SnakePiece) (hi mid lo : Z) :
  ages_run l hi mid -> ages_run l' mid lo -> ages_run (l ++ l') hi lo.
Proof.
  revert hi. induction l as [|p l IH]; intros hi H H'; cbn [ages_run app] in *.
  - subst. exact H'.
  - destruct H as [Hp H]. split; [exact Hp|]. apply IH; assumption.
Qed.

Lemma omap_all_aged (len : Z) (l : list SnakePiece) :
  Forall (fun p => piece_age p + 1 < len) l ->
  omap (fun p => if decide (len - (piece_age p + 1) <= 0) then None
                 else Some (mkSnakePiece (piece_position p) (piece_age p + 1))) l
  = map (fun p => mkSnakePiece (piece_position p) (piece_age p + 1)) l.
Proof.
  induction 1 as [|p l Hp _ IH]; [reflexivity|].
  cbn [omap list_omap map]. destruct (decide _); [lia|]. cbn. f_equal. exact IH.
Qed.

Lemma omap_positions (len : Z) (Q : Vector2 -> Prop) (l : list SnakePiece) :
  Forall (fun p => Q (piece_position p)) l ->
  Forall (fun p => Q (piece_position p))
    (omap (fun p => if decide (len - (piece_age p + 1) <= 0) then None
                    else Some (mkSnakePiece (piece_position p) (piece_age p + 1))) l).
Proof.
  induction 1 as [|p l Hp _ IH]; [constructor|].
  cbn [omap list_omap]. destruct (decide _); [exact IH|]. cbn. constructor; assumption.
Qed.

(** The tail after one more tick: every piece a tick older, the oldest
    gone once the tail is as long as the Head says, a new piece of age 0. *)
Lemma ages_run_tick (n len len' : Z) (l : list SnakePiece) (p : Vector2) :
  0 <= n -> 3 <= len -> len <= len' <= len + 1 ->
  ages_run l (Z.min n len) 0 ->
  ages_run (omap (fun a => if decide (len' - (piece_age a + 1) <= 0) then None
                           else Some (mkSnakePiece (piece_position a) (piece_age a + 1))) l
            ++ [mkSnakePiece p 0])
           (Z.min (n + 1) len') 0.
Proof.
  intros Hn Hlen Hlen' Hrun.
  assert (Hnew : ages_run [mkSnakePiece p 0] (0 + 1) 0) by (cbn; lia).
  destruct (decide (Z.min n len < len')) as [Hlt|Hge].
  - rewrite omap_all_aged.
    + replace (Z.min (n + 1) len') with (Z.min n len + 1) by lia.
      eapply ages_run_app; [apply ages_run_aged; exact Hrun | exact Hnew].
    + eapply Forall_impl; [apply (ages_run_bounds _ _ _ Hrun)|]. cbv beta. intros q Hq. lia.
  - assert (Hk : Z.min n len = len') by lia.
    destruct l as [|a t]; cbn [ages_run] in Hrun; [lia|]. destruct Hrun as [Ha Hrun].
    cbn [omap list_omap]. destruct (decide _) as [_|Hd]; [|lia].
    rewrite omap_all_aged.
    + replace (Z.min (n + 1) len') with (Z.min n len - 1 + 1) by lia.
      eapply ages_run_app; [apply ages_run_aged; exact Hrun | exact Hnew].
    + eapply Forall_impl; [apply (ages_run_bounds _ _ _ Hrun)|]. cbv beta. intros q Hq. lia.
Qed.

Lemma within_mono (n m : Z) (c : Vector2) : n <= m -> within n c -> within m c.
Proof. unfold within. lia. Qed.

Lemma within_wrap (n : Z) (p d : Vector2) :
  0 <= n -> 0 < PLAY_AREA.1 -> 0 < PLAY_AREA.2 ->
  within n p -> -1 <= d.1 <= 1 -> -1 <= d.2 <= 1 ->
  within (n + 1) (wrap_overflow (Vector2_add p d)).
Proof.
  destruct p as [x y], d as [dx dy]. unfold within, wrap_overflow, Vector2_add.
  cbn [fst snd]. intros Hn H1 H2 [Hx Hy] Hdx Hdy.
  split; [destruct (decide (_ >= PLAY_AREA.1)) | destruct (decide (_ >= PLAY_AREA.2))]; lia.
Qed.

(** One [step] of a running headless environment. *)
Lemma episode_state_step (n : Z) (w : World) (action : Z) :
  0 <= n -> valid_action action -> episode_state n w ->
  exists d g c s1,
    action_direction action = Some d /\
    st_game (state w) = Some g /\ cherry g = Some c /\
    Game_run_step (mkSim (process_random w) (set_controller_direction d g)) = (Ok tt, s1) /\
    let w' := mkWorld (py_random s1) (set_game (Some (game s1)) (state w)) in
    let reward :=
      if decide (Vector2_add (head_position (head g)) d = cherry_position c) then 1 else 0 in
    SnakeGameState_step d w = (Ok reward, w') /\
    SnakeEnv_step action w
    = (result_map (fun obs => (obs, reward, false)) (SnakeGameState_encode (state w')), w') /\
    head_length (head (game s1)) = head_length (head g) + reward /\
    episode_state (n + 1) w'.
Proof.
  intros Hn Ha (Hh & Hp1 & Hp2 & g & c & Hg & Hc & Hex & Hhead & Hcw & Hfree & Hps & Hlen & Hages).
  apply action_direction_valid in Ha as [d Hd].
  destruct (action_direction_unit _ _ Hd) as (Hd0 & Hd1 & Hd2).
  destruct (Game_run_step_full (mkSim (process_random w) (set_controller_direction d g)) c)
    as (s1 & c' & Hrun & Hpos & Hdir & Hc' & Hmiss & Hhit & Hfr & Hctl & Hexit & Hpieces);
    [exact Hc | exact Hd0 |].
  record_simpl.
  exists d, g, c, s1. split; [exact Hd|]. split; [exact Hg|]. split; [exact Hc|].
  split; [exact Hrun|]. cbv zeta.
  pose proof (SnakeGameState_step_run w d g s1 Hg Hrun) as Hstep. cbv zeta in Hstep.
  rewrite Hh in Hstep. rewrite Hexit, Hex in Hstep.
  assert (Hrew : (if decide (head_length (head (game s1)) > head_length (head g)) then 1
                  else if false then -1 else 0)
                 = if decide (Vector2_add (head_position (head g)) d = cherry_position c)
                   then 1 else 0).
  { destruct (decide (Vector2_add _ d = _)) as [He|Hne].
    - destruct (Hhit He) as (Hl & _). destruct (decide _); [reflexivity | lia].
    - destruct (Hmiss Hne) as (_ & Hl & _). destruct (decide _); [lia | reflexivity]. }
  rewrite Hrew in Hstep.
  split; [exact Hstep|].
  assert (Hlen' : head_length (head (game s1))
                  = head_length (head g)
                    + if decide (Vector2_add (head_position (head g)) d = cherry_position c)
                      then 1 else 0).
  { destruct (decide (Vector2_add _ d = _)) as [He|Hne].
    - destruct (Hhit He) as (Hl & _). exact Hl.
    - destruct (Hmiss Hne) as (_ & Hl & _). lia. }
  split.
  { unfold SnakeEnv_step. rewrite Hd. cbv [bind]. rewrite Hstep.
    unfold encode at 1. cbn [state].
    destruct (SnakeGameState_encode _); cbn [result_map]; cbv [ret];
      destruct (decide _); reflexivity. }
  split; [exact Hlen'|].
  split; [exact Hh|]. split; [exact Hp1|]. split; [exact Hp2|].
  exists (game s1), c'. env_simpl.
  split; [reflexivity|]. split; [exact Hc'|]. split; [congruence|].
  assert (Hp : within (n + 1) (head_position (head g))) by (apply (within_mono n); [lia | exact Hhead]).
  split.
  { rewrite Hpos. apply within_wrap; assumption. }
  split.
  { destruct (decide (Vector2_add (head_position (head g)) d = cherry_position c)) as [He|Hne].
    - destruct (Hhit He) as (_ & _ & [Hin|Heq]).
      + apply (within_mono n); [lia | apply Hfree; exact Hin].
      + rewrite Heq. exact Hp.
    - destruct (Hmiss Hne) as (-> & _). apply (within_mono n); [lia | exact Hcw]. }
  split.
  { intros x Hx. destruct (Hfr x Hx) as [Hin|[->|(a & Ha & <-)]].
    - apply (within_mono n); [lia | apply Hfree; exact Hin].
    - exact Hp.
    - apply (within_mono n); [lia|].
      apply (proj1 (Forall_forall _ _) Hps a Ha). }
  split.
  { rewrite Hpieces. apply Forall_app. split.
    - apply (omap_positions _ (within (n + 1))).
      eapply Forall_impl; [exact Hps|]. cbv beta. intros a. apply within_mono. lia.
    - constructor; [exact Hp | constructor]. }
  split; [rewrite Hlen'; destruct (decide (Vector2_add _ d = _)); lia|].
  rewrite Hpieces. apply (ages_run_tick n (head_length (head g))); try lia; try assumption.
  rewrite Hlen'; destruct (decide (Vector2_add _ d = _)); lia.
Qed.

End EpisodeFacts.

Section RunFacts.
Context {P : Platform}.

Lemma same_config_refl (st : SnakeGameState) : same_config st st.
Proof. repeat split. Qed.

Lemma same_config_trans (a b c : SnakeGameState) :
  same_config a b -> same_config b c -> same_config a c.
Proof. unfold same_config. intros (?&?&?&?&?) (?&?&?&?&?). repeat split; congruence. Qed.

(** [reset] in full: the game it leaves. *)
Lemma SnakeGameState_reset_game (w : World) :
  (SnakeGameState_reset w).1 = Ok tt ->
  0 < PLAY_AREA.1 /\ 0 < PLAY_AREA.2 /\
  exists x,
    0 <= x.1 < PLAY_AREA.1 /\ 0 <= x.2 < PLAY_AREA.2 /\
    state (SnakeGameState_reset w).2
    = set_game (Some (mkGame (list_to_set all_cells) SnakeHead_init (Some (mkCherry x))
                             [] (0, 0) false))
        (set_random (np_randint (random (state w)) 99999).2 (state w)).
Proof.
  unfold SnakeGameState_reset.
  destruct (np_randint (random (state w)) 99999) as [seed r].
  unfold with_game, Game_construct. env_simpl. record_simpl. unfold Game_init_game.
  set (s0 := mkSim (random_seed seed) Game_new).
  destruct (decide (all_cells = [])) as [He|Hne].
  - pose proof (Level_init_empty s0 He) as E.
    destruct (Level_init s0) as [res s1]. cbn [fst] in *. subst res. discriminate.
  - destruct (Level_init_run s0 Hne) as (x & Hx & ->). intros _. env_simpl.
    assert (Hp : 0 < PLAY_AREA.1 /\ 0 < PLAY_AREA.2).
    { split.
      - destruct (Z_lt_le_dec 0 PLAY_AREA.1); [assumption|].
        exfalso. apply Hne, all_cells_nil. left. lia.
      - destruct (Z_lt_le_dec 0 PLAY_AREA.2); [assumption|].
        exfalso. apply Hne, all_cells_nil. right. lia. }
    split; [apply Hp|]. split; [apply Hp|].
    exists x. apply elem_of_list_to_set in Hx. destruct x as [a b].
    apply elem_of_all_cells in Hx. cbn [fst snd].
    split; [lia|]. split; [lia|]. reflexivity.
Qed.

Lemma episode_state_reset (w : World) :
  headless (state w) = true ->
  (SnakeGameState_reset w).1 = Ok tt ->
  episode_state 0 (SnakeGameState_reset w).2 /\
  same_config (state w) (state (SnakeGameState_reset w).2).
Proof.
  intros Hh Hok.
  destruct (SnakeGameState_reset_game w Hok) as (Hp1 & Hp2 & x & Hx1 & Hx2 & E).
  split.
  - split; [rewrite E; exact Hh|]. split; [exact Hp1|]. split; [exact Hp2|].
    eexists _, (mkCherry x). rewrite E. env_simpl. split; [reflexivity|]. record_simpl.
    split; [reflexivity|]. split; [reflexivity|].
    split; [unfold within; cbn; lia|].
    split; [unfold within; lia|].
    split.
    { intros [a b] Hin. apply elem_of_list_to_set, elem_of_all_cells in Hin.
      unfold within. cbn [fst snd]. lia. }
    split; [constructor|]. split; [cbn; lia|]. cbn. lia.
  - rewrite E. repeat split.
Qed.

Lemma episode_state_run (actions : list Z) (n : Z) (w : World) :
  0 <= n -> Forall valid_action actions -> episode_state n w ->
  episode_state (n + Z.of_nat (length actions)) (run_actions actions w) /\
  same_config (state w) (state (run_actions actions w)) /\
  Forall (fun r => forall obs reward done,
            r = Ok (obs, reward, done) -> done = false /\ (reward = 0 \/ reward = 1))
         (step_results actions w).
Proof.
  revert n w. induction actions as [|a l IH]; intros n w Hn Hv Hw.
  - cbn [run_actions fold_left length step_results].
    replace (n + Z.of_nat 0) with n by lia.
    split; [exact Hw|]. split; [apply same_config_refl | constructor].
  - inversion Hv as [|? ? Ha Hl]; subst.
    destruct (episode_state_step n w a Hn Ha Hw)
      as (d & g & c & s1 & Hd & Hg & Hc & Hrun & Hstep & Henv & Hlen & Hnext).
    cbv zeta in Henv, Hnext.
    cbn [run_actions fold_left length step_results]. rewrite Henv. cbn [snd].
    destruct (IH (n + 1) _ ltac:(lia) Hl Hnext) as (Hfin & Hcfg & Hres).
    replace (n + Z.of_nat (S (length l))) with ((n + 1) + Z.of_nat (length l)) by lia.
    split; [exact Hfin|]. split.
    + eapply same_config_trans; [|exact Hcfg]. env_simpl. repeat split.
    + constructor; [|exact Hres].
      intros obs reward done Hr.
      destruct (SnakeGameState_encode _) as [o|e]; cbn [result_map] in Hr; [|discriminate].
      injection Hr as _ <- <-. split; [reflexivity|]. destruct (decide _); tauto.
Qed.

End RunFacts.

Section EntryFacts.
Context {P : Platform}.

Lemma np_setitem_entry (f f' : ndarray) (x y c v : Z) :
  np_setitem f x y c v = Ok f' ->
  forall i j k, np_get f' i j k = v \/ np_get f' i j k = np_get f i j k.
Proof.
  unfold np_setitem. intros H i j k.
  destruct (np_index (length f) x) as [i0|] eqn:Ei; cbn [rbind] in H; [|discriminate].
  unfold lookup_or_raise in H at 1.
  destruct (f !! i0) as [row|] eqn:Erow; cbn [rbind] in H; [|discriminate].
  destruct (np_index (length row) y) as [j0|] eqn:Ej; cbn [rbind] in H; [|discriminate].
  unfold lookup_or_raise in H at 1.
  destruct (row !! j0) as [cell|] eqn:Ecell; cbn [rbind] in H; [|discriminate].
  destruct (np_index (length cell) c) as [k0|] eqn:Ek; cbn [rbind] in H; [|discriminate].
  injection H as <-.
  pose proof (lookup_lt_Some _ _ _ Erow) as Hi0.
  pose proof (lookup_lt_Some _ _ _ Ecell) as Hj0.
  unfold np_get.
  destruct (decide (i = i0)) as [->|Hni]; [|rewrite list_lookup_insert_ne by congruence; right; reflexivity].
  rewrite list_lookup_insert_eq by lia. rewrite Erow.
  destruct (decide (j = j0)) as [->|Hnj]; [|rewrite list_lookup_insert_ne by congruence; right; reflexivity].
  rewrite list_lookup_insert_eq by lia. rewrite Ecell.
  destruct (decide (k = k0)) as [->|Hnk]; [|rewrite list_lookup_insert_ne by congruence; right; reflexivity].
  destruct (decide (k0 < length cell)%nat).
  - rewrite list_lookup_insert_eq by lia. left. reflexivity.
  - rewrite list_insert_ge by lia. right. reflexivity.
Qed.

Lemma encode_pieces_entry (l : list SnakePiece) (f f' : ndarray) :
  encode_pieces f l = Ok f' ->
  forall i j k,
    np_get f' i j k = np_get f i j k \/
    exists p, p ∈ l /\ np_get f' i j k = piece_age p + 1.
Proof.
  revert f. induction l as [|p l IH]; intros f H i j k; cbn [encode_pieces] in H.
  - injection H as <-. left. reflexivity.
  - destruct (np_setitem f _ _ 0 _) as [f1|] eqn:E1; cbn [rbind] in H; [|discriminate].
    destruct (IH f1 H i j k) as [Hsame|(q & Hq & Hval)].
    + destruct (np_setitem_entry _ _ _ _ _ _ E1 i j k) as [Hv|Hv].
      * right. exists p. split; [left | congruence].
      * left. congruence.
    + right. exists q. split; [right; exact Hq | exact Hval].
Qed.

(** Whatever [encode] returns: an entry is 0, 1 or age+1 of a live piece. *)
Lemma SnakeGameState_encode_entry (st : SnakeGameState) (g : Game) (T : ndarray) :
  st_game st = Some g -> SnakeGameState_encode st = Ok T ->
  forall i j k,
    np_get T i j k = 0 \/ np_get T i j k = 1 \/
    exists p, p ∈ pieces g /\ np_get T i j k = piece_age p + 1.
Proof.
  intros Hg H i j k. unfold SnakeGameState_encode in H. rewrite Hg in H. cbn [rbind] in H.
  destruct (np_zeros (shape st)) as [f0|] eqn:E0; cbn [rbind] in H; [|discriminate].
  destruct (encode_pieces f0 _) as [f1|] eqn:E1; cbn [rbind] in H; [|discriminate].
  match type of H with rbind ?a _ = _ => destruct a as [f2|] eqn:E2 end;
    cbn [rbind] in H; [|discriminate].
  match type of H with rbind ?a _ = _ => destruct a as [nx|] eqn:En end;
    cbn [rbind] in H; [|discriminate].
  match type of H with rbind ?a _ = _ => destruct a as [f3|] eqn:E3 end;
    cbn [rbind] in H; [|discriminate].
  destruct (cherry g) as [ch|]; cbn [rbind] in H; [|discriminate].
  assert (H0 : np_get f0 i j k = 0).
  { unfold np_zeros in E0. destruct (shape st) as [[a b] d].
    destruct (decide _) as [(?&?&?)|]; [|discriminate]. injection E0 as <-.
    destruct (np_zeros_shape a b d) as (f & Ef & _ & Hz); [lia..|].
    unfold np_zeros in Ef. destruct (decide _); [|discriminate]. injection Ef as <-.
    apply Hz. }
  assert (H1 : np_get f1 i j k = 0 \/
               exists p, p ∈ pieces g /\ np_get f1 i j k = piece_age p + 1).
  { destruct (encode_pieces_entry _ _ _ E1 i j k) as [Hs|(p & Hp & Hv)].
    - left. congruence.
    - right. exists p. split; [|exact Hv]. rewrite <- (set_iter_perm (pieces g)). exact Hp. }
  assert (Hguard : forall (b : bool) (fa fb : ndarray) x y z,
             (if b then np_setitem fa x y z 1 else Ok fa) = Ok fb ->
             np_get fb i j k = 1 \/ np_get fb i j k = np_get fa i j k).
  { intros [] fa fb x y z Hs.
    - apply (np_setitem_entry _ _ _ _ _ _ Hs).
    - injection Hs as <-. right. reflexivity. }
  destruct (np_setitem_entry _ _ _ _ _ _ H i j k) as [Hv|Hv]; [tauto|]. rewrite Hv.
  destruct (Hguard _ _ _ _ _ _ E3) as [Hv3|Hv3]; [tauto|]. rewrite Hv3.
  destruct (Hguard _ _ _ _ _ _ E2) as [Hv2|Hv2]; [tauto|]. rewrite Hv2.
  destruct H1 as [H1|H1]; [left; exact H1 | right; right; exact H1].
Qed.

(** With every coordinate a valid index [encode] returns. *)
Lemma SnakeGameState_encode_returns (st : SnakeGameState) (g : Game) (c : Cherry) :
  st_game st = Some g -> cherry g = Some c ->
  shape st = (width st, height st, 4) ->
  Forall (fun p => index_ok st (piece_position p)) (pieces g) ->
  index_ok st (cherry_position c) ->
  exists T, SnakeGameState_encode st = Ok T /\
    has_shape T (Z.to_nat (width st)) (Z.to_nat (height st)) 4.
Proof.
  intros Hg Hc Hshape Hpieces Hcherry.
  assert (Hw : 0 < width st) by (destruct Hcherry; lia).
  assert (Hh : 0 < height st) by (destruct Hcherry; lia).
  unfold SnakeGameState_encode. rewrite Hg, Hshape. cbn [rbind].
  destruct (np_zeros_shape (width st) (height st) 4) as (f0 & -> & Hs0 & Hz);
    [lia | lia | lia |].
  cbn [rbind]. change (Z.to_nat 4) with 4%nat in Hs0.
  assert (Hp' : Forall (fun p => index_ok st (piece_position p)) (set_iter (pieces g))).
  { rewrite (set_iter_perm (pieces g)). exact Hpieces. }
  destruct (encode_pieces_cells st f0 _ Hs0 Hp') as (f1 & -> & Hs1 & _).
  cbn [rbind].
  destruct (guarded_setitem_cell st f1 (head_position (head g)) 1 Hs1 ltac:(lia))
    as (f2 & -> & Hs2 & _).
  cbn [rbind].
  set (ahead := Vector2_add (head_position (head g)) (head_direction (head g))).
  assert (Hnext : exists next,
            (if loop st
             then x <~ py_mod ahead.1 (width st) ;;
                  y <~ py_mod ahead.2 (height st) ;; Ok (x, y)
             else Ok ahead) = Ok next).
  { destruct (loop st); [|eauto].
    unfold py_mod. destruct (decide (width st = 0)); [lia|]. cbn [rbind].
    destruct (decide (height st = 0)); [lia|]. eauto. }
  destruct Hnext as [next ->]. cbn [rbind].
  destruct (guarded_setitem_cell st f2 next 2 Hs2 ltac:(lia)) as (f3 & -> & Hs3 & _).
  cbn [rbind]. rewrite Hc. cbn [rbind].
  destruct (np_setitem_cell st f3 (cherry_position c) 3 1 Hs3 Hcherry ltac:(lia))
    as (T & -> & HsT & _).
  exists T. split; [reflexivity | exact HsT].
Qed.

End EntryFacts.

Section EpisodeTheorems.
Context {P : Platform}.


(** X10: [n] ticks after [reset] the tail counts min(n, length) pieces;
    in the order of their creation their ages count down to 0 one by
    one, and the Head's length lies between 3 and 3 + n. *)
Theorem tail_follows_length (w0 : World) (actions : list Z) :
  headless (state w0) = true ->
  (SnakeGameState_reset w0).1 = Ok tt ->
  Forall valid_action actions ->
  let n := Z.of_nat (length actions) in
  exists g, st_game (state (run_actions actions (SnakeGameState_reset w0).2)) = Some g /\
    3 <= head_length (head g) <= 3 + n /\
    Z.of_nat (length (pieces g)) = Z.min n (head_length (head g)) /\
    ages_run (pieces g) (Z.min n (head_length (head g))) 0 /\
    Forall (fun p => 0 <= piece_age p < head_length (head g)) (pieces g).
Proof.
  intros Hh Hok Hv n.
  destruct (episode_state_reset w0 Hh Hok) as [H0 _].
  destruct (episode_state_run actions 0 _ ltac:(lia) Hv H0) as (Hfin & _ & _).
  destruct Hfin as (_ & _ & _ & g & c & Hg & _ & _ & _ & _ & _ & _ & Hlen & Hages).
  replace (0 + Z.of_nat (length actions)) with n in * by (subst n; lia).
  exists g. split; [exact Hg|]. split; [exact Hlen|].
  split; [rewrite (ages_run_length _ _ _ Hages); lia|]. split; [exact Hages|].
  eapply Forall_impl; [apply (ages_run_bounds _ _ _ Hages)|]. cbv beta. intros p Hp. lia.
Qed.

(** X11: [n] ticks after [reset] the cherry, every live piece and every
    cell of the free set lie below the upper bounds of the play area and
    at most [n] cells below zero. *)
Theorem cells_stay_within (w0 : World) (actions : list Z) :
  headless (state w0) = true ->
  (SnakeGameState_reset w0).1 = Ok tt ->
  Forall valid_action actions ->
  let n := Z.of_nat (length actions) in
  exists g c,
    st_game (state (run_actions actions (SnakeGameState_reset w0).2)) = Some g /\
    cherry g = Some c /\
    within n (cherry_position c) /\
    Forall (fun p => within n (piece_position p)) (pieces g) /\
    (forall x, x ∈ free_space g -> within n x).
Proof.
  intros Hh Hok Hv n.
  destruct (episode_state_reset w0 Hh Hok) as [H0 _].
  destruct (episode_state_run actions 0 _ ltac:(lia) Hv H0) as (Hfin & _ & _).
  destruct Hfin as (_ & _ & _ & g & c & Hg & Hc & _ & _ & Hcw & Hfree & Hps & _).
  replace (0 + Z.of_nat (length actions)) with n in * by (subst n; lia).
  exists g, c. split; [exact Hg|]. split; [exact Hc|]. split; [exact Hcw|].
  split; [exact Hps | exact Hfree].
Qed.

(** X9: in a running headless episode the reward of a step is 1 exactly
    when the Head's position plus the chosen direction is the cherry's
    cell, and the length grows by the reward; a move through the upper
    edge never eats, even when it wraps the Head onto the cherry. *)
Theorem reward_is_cherry_ahead (w0 : World) (actions : list Z) (action : Z) :
  headless (state w0) = true ->
  (SnakeGameState_reset w0).1 = Ok tt ->
  Forall valid_action actions -> valid_action action ->
  let w := run_actions actions (SnakeGameState_reset w0).2 in
  exists d g c g',
    action_direction action = Some d /\
    st_game (state w) = Some g /\ cherry g = Some c /\
    st_game (state (SnakeEnv_step action w).2) = Some g' /\
    let q := Vector2_add (head_position (head g)) d in
    let reward := if decide (q = cherry_position c) then 1 else 0 in
    (SnakeGameState_step d w).1 = Ok reward /\
    head_length (head g') = head_length (head g) + reward /\
    head_position (head g') = wrap_overflow q /\
    (q.1 >= PLAY_AREA.1 \/ q.2 >= PLAY_AREA.2 -> reward = 0).
Proof.
  intros Hh Hok Hv Ha w.
  destruct (episode_state_reset w0 Hh Hok) as [H0 _].
  destruct (episode_state_run actions 0 _ ltac:(lia) Hv H0) as (Hfin & _ & _).
  fold w in Hfin.
  destruct (episode_state_step (0 + Z.of_nat (length actions)) w action ltac:(lia) Ha Hfin)
    as (d & g & c & s1 & Hd & Hg & Hc & Hrun & Hstep & Henv & Hlen & Hnext).
  cbv zeta in Hstep, Henv, Hlen.
  exists d, g, c, (game s1). split; [exact Hd|]. split; [exact Hg|]. split; [exact Hc|].
  split; [rewrite Henv; reflexivity|]. cbv zeta.
  split; [rewrite Hstep; reflexivity|]. split; [exact Hlen|].
  split.
  - destruct (action_direction_unit _ _ Hd) as (Hd0 & _).
    destruct (Game_run_step_full (mkSim (process_random w) (set_controller_direction d g)) c)
      as (s1' & c' & Hrun' & Hpos & _); [exact Hc | exact Hd0 |].
    rewrite Hrun in Hrun'. injection Hrun' as <-. exact Hpos.
  - intros Hover. destruct (decide _) as [He|]; [|reflexivity].
    destruct Hfin as (_ & _ & _ & g2 & c2 & Hg2 & Hc2 & _ & _ & Hcw & _).
    rewrite Hg in Hg2. injection Hg2 as <-. rewrite Hc in Hc2. injection Hc2 as <-.
    rewrite He in Hover. unfold within in Hcw. lia.
Qed.

Lemma within_index_ok (st : SnakeGameState) (n : Z) (c : Vector2) :
  (height st, width st) = PLAY_AREA -> width st = height st -> n <= width st ->
  within n c -> index_ok st c.
Proof.
  intros Hpa Hsq Hn [Hx Hy]. rewrite <- Hpa in Hx, Hy. cbn [fst snd] in Hx, Hy.
  unfold index_ok. lia.
Qed.

Lemma episode_state_encodes (st0 : SnakeGameState) (n : Z) (w : World) :
  shape st0 = (width st0, height st0, 4) ->
  (height st0, width st0) = PLAY_AREA -> width st0 = height st0 ->
  same_config st0 (state w) -> n <= width st0 ->
  episode_state n w ->
  exists T, SnakeGameState_encode (state w) = Ok T.
Proof.
  intros Hshape Hpa Hsq (Hs & Hw & Hh & _) Hn
    (_ & _ & _ & g & c & Hg & Hc & _ & _ & Hcw & _ & Hps & _).
  assert (Hpa' : (height (state w), width (state w)) = PLAY_AREA) by congruence.
  destruct (SnakeGameState_encode_returns (state w) g c Hg Hc) as (T & E & _).
  - congruence.
  - eapply Forall_impl; [exact Hps|]. cbv beta. intros p.
    apply (within_index_ok _ n); [exact Hpa' | congruence | congruence].
  - apply (within_index_ok _ n); [exact Hpa' | congruence | congruence | exact Hcw].
  - eauto.
Qed.

Lemma steps_return (st0 : SnakeGameState) (actions : list Z) (n : Z) (w : World) :
  shape st0 = (width st0, height st0, 4) ->
  (height st0, width st0) = PLAY_AREA -> width st0 = height st0 ->
  same_config st0 (state w) ->
  0 <= n -> n + Z.of_nat (length actions) <= width st0 ->
  Forall valid_action actions -> episode_state n w ->
  Forall (fun r => exists obs reward, r = Ok (obs, reward, false))
         (step_results actions w).
Proof.
  intros Hshape Hpa Hsq. revert n w.
  induction actions as [|a l IH]; intros n w Hcfg Hn Hle Hv Hw; [constructor|].
  inversion Hv as [|? ? Ha Hl]; subst. cbn [length] in Hle.
  destruct (episode_state_step n w a Hn Ha Hw)
    as (d & g & c & s1 & Hd & Hg & Hc & Hrun & Hstep & Henv & Hlen & Hnext).
  cbv zeta in Henv, Hnext. cbn [step_results]. rewrite Henv.
  assert (Hcfg' : same_config st0
                    (state (mkWorld (py_random s1) (set_game (Some (game s1)) (state w))))).
  { eapply same_config_trans; [exact Hcfg|]. env_simpl. repeat split. }
  constructor.
  - destruct (episode_state_encodes st0 (n + 1) _ Hshape Hpa Hsq Hcfg' ltac:(lia) Hnext)
      as [T ->].
    cbn [result_map]. eauto.
  - apply (IH (n + 1)); [exact Hcfg' | lia | lia | exact Hl | exact Hnext].
Qed.

(** X12: on a square play area of side [a], in a headless environment
    built for it, [reset] returns an observation and so does each of the
    first [a] steps: no coordinate has left the range numpy accepts. *)
Theorem first_steps_return (w0 : World) (actions : list Z) :
  headless (state w0) = true ->
  shape (state w0) = (width (state w0), height (state w0), 4) ->
  (height (state w0), width (state w0)) = PLAY_AREA ->
  width (state w0) = height (state w0) ->
  (SnakeGameState_reset w0).1 = Ok tt ->
  Forall valid_action actions ->
  Z.of_nat (length actions) <= width (state w0) ->
  (exists T, (SnakeEnv_reset w0).1 = Ok T) /\
  Forall (fun r => exists obs reward, r = Ok (obs, reward, false))
         (step_results actions (SnakeGameState_reset w0).2).
Proof.
  intros Hh Hshape Hpa Hsq Hok Hv Hlen.
  destruct (episode_state_reset w0 Hh Hok) as [H0 Hcfg].
  assert (Hw : 0 <= width (state w0)) by lia.
  split.
  - destruct (episode_state_encodes (state w0) 0 _ Hshape Hpa Hsq Hcfg Hw H0) as [T E].
    exists T. unfold SnakeEnv_reset. cbv [bind].
    destruct (SnakeGameState_reset w0) as [[[]|e] w1]; cbn [fst snd] in *; [|discriminate].
    unfold encode. cbn [fst]. exact E.
  - apply (steps_return (state w0) actions 0); try assumption; lia.
Qed.

(** X13: whatever observation a step of a running headless episode
    returns, every entry lies between 0 and the Head's length, so the
    observation lies within the declared observation space as long as the
    length does not exceed height * width. *)
Theorem observation_entries_bounded (w0 : World) (actions : list Z) (action : Z)
    (obs : ndarray) (reward : Z) (done : bool) (w' : World) :
  headless (state w0) = true ->
  (SnakeGameState_reset w0).1 = Ok tt ->
  Forall valid_action actions -> valid_action action ->
  SnakeEnv_step action (run_actions actions (SnakeGameState_reset w0).2)
  = (Ok (obs, reward, done), w') ->
  exists g, st_game (state w') = Some g /\
    head_length (head g) <= 4 + Z.of_nat (length actions) /\
    forall i j k,
      0 <= np_get obs i j k <= head_length (head g) /\
      forall height width,
        head_length (head g) <= height * width ->
        Box_contains_entry (observation_space (SnakeEnv_spaces height width))
          (np_get obs i j k).
Proof.
  intros Hh Hok Hv Ha Hstep.
  destruct (episode_state_reset w0 Hh Hok) as [H0 _].
  destruct (episode_state_run actions 0 _ ltac:(lia) Hv H0) as (Hfin & _ & _).
  destruct (episode_state_step (0 + Z.of_nat (length actions)) _ action ltac:(lia) Ha Hfin)
    as (d & g & c & s1 & Hd & Hg & Hc & Hrun & _ & Henv & _ & Hnext).
  cbv zeta in Henv, Hnext. rewrite Henv in Hstep.
  destruct (SnakeGameState_encode _) as [T|e] eqn:E; cbn [result_map] in Hstep;
    [|discriminate].
  injection Hstep as <- <- <- <-.
  destruct Hnext as (_ & _ & _ & g' & c' & Hg' & _ & _ & _ & _ & _ & _ & Hlen & Hages).
  exists g'. split; [exact Hg'|]. split; [lia|].
  intros i j k.
  assert (Hb : 0 <= np_get T i j k <= head_length (head g')).
  { destruct (SnakeGameState_encode_entry _ g' T Hg' E i j k) as [->|[->|(p & Hp & ->)]];
      [lia | lia |].
    pose proof (proj1 (Forall_forall _ _) (ages_run_bounds _ _ _ Hages) p Hp) as Hage.
    cbv beta in Hage. lia. }
  split; [exact Hb|].
  intros height width Hle. unfold Box_contains_entry, SnakeEnv_spaces. cbn. lia.
Qed.

End EpisodeTheorems.

Section SpaceTheorems.
Context {P : Platform}.

(** X1: [occupy_space] and [unoccupy_space] never raise (the removal is
    guarded, so there is no KeyError), change the free set at the given
    cell only, are idempotent, and undo each other on a cell that was in
    the state the first call changed. *)
Theorem space_bookkeeping (p : Vector2) (s : Sim) :
  let s1 := (Level_occupy_space p s).2 in
  let s2 := (Level_unoccupy_space p s).2 in
  (Level_occupy_space p s).1 = Ok tt /\ (Level_unoccupy_space p s).1 = Ok tt /\
  (forall x, x ∈ free_space (game s1) <-> x ∈ free_space (game s) /\ x <> p) /\
  (forall x, x ∈ free_space (game s2) <-> x ∈ free_space (game s) \/ x = p) /\
  Level_occupy_space p s1 = (Ok tt, s1) /\
  Level_unoccupy_space p s2 = (Ok tt, s2) /\
  (p ∈ free_space (game s) -> Level_unoccupy_space p s1 = (Ok tt, s)) /\
  (p ∉ free_space (game s) -> Level_occupy_space p s2 = (Ok tt, s)).
Proof.
  cbv zeta. rewrite !Level_occupy_space_run, !Level_unoccupy_space_run.
  cbn [fst snd]. rewrite ?Level_occupy_space_run, ?Level_unoccupy_space_run.
  destruct s as [r [F h c ps cd ex]]. unfold on_game. record_simpl.
  split; [reflexivity|]. split; [reflexivity|].
  split; [intros x; set_solver|]. split; [intros x; set_solver|].
  assert (E1 : F ∖ {[p]} ∖ {[p]} = F ∖ {[p]}) by set_solver.
  assert (E2 : F ∪ {[p]} ∪ {[p]} = F ∪ {[p]}) by set_solver.
  rewrite E1, E2. split; [reflexivity|]. split; [reflexivity|].
  split; intros Hp.
  - assert (E3 : F ∖ {[p]} ∪ {[p]} = F).
    { apply set_eq. intros x. rewrite elem_of_union, elem_of_difference, elem_of_singleton.
      destruct (decide (x = p)) as [->|]; tauto. }
    rewrite E3. reflexivity.
  - assert (E4 : (F ∪ {[p]}) ∖ {[p]} = F) by set_solver.
    rewrite E4. reflexivity.
Qed.

End SpaceTheorems.

Section ResetTheorems.
Context {P : Platform}.


(** X4: whatever was played before, a [reset] that returns leaves a fresh
    game: Head at (0, 0) facing (1, 0) with length 3, no pieces, every
    cell of the play area free, the cherry on one of them, the exit flag
    cleared; the environment's configuration is unchanged and its numpy
    generator has advanced by the one draw of the sub-seed. *)
Theorem reset_starts_afresh (w : World) :
  (SnakeGameState_reset w).1 = Ok tt ->
  let w' := (SnakeGameState_reset w).2 in
  exists g c,
    st_game (state w') = Some g /\
    head g = mkSnakeHead (0, 0) (1, 0) 3 /\
    pieces g = [] /\
    (forall x y, (x, y) ∈ free_space g <-> 0 <= x < PLAY_AREA.1 /\ 0 <= y < PLAY_AREA.2) /\
    cherry g = Some c /\ cherry_position c ∈ free_space g /\
    should_exit g = false /\ controller_direction g = (0, 0) /\
    same_config (state w) (state w') /\
    random (state w') = (np_randint (random (state w)) 99999).2.
Proof.
  intros Hok. cbv zeta.
  destruct (SnakeGameState_reset_game w Hok) as (Hp1 & Hp2 & x & Hx1 & Hx2 & E).
  rewrite E. env_simpl. eexists _, (mkCherry x). split; [reflexivity|]. record_simpl.
  split; [reflexivity|]. split; [reflexivity|].
  assert (Hfree : forall a b, (a, b) ∈ (list_to_set all_cells : gset Vector2)
                              <-> 0 <= a < PLAY_AREA.1 /\ 0 <= b < PLAY_AREA.2).
  { intros a b. rewrite elem_of_list_to_set. apply elem_of_all_cells. }
  split; [exact Hfree|]. split; [reflexivity|].
  split; [destruct x as [a b]; apply Hfree; cbn in *; lia|].
  split; [reflexivity|]. split; [reflexivity|]. split; [repeat split | reflexivity].
Qed.

End ResetTheorems.

Section ConstructorTheorems.
Context {P : Platform}.

Lemma SnakeEnv_new_mismatch (height width : Z) (headless : bool) :
  (height, width) <> PLAY_AREA -> SnakeEnv_new height width headless = Raise ValueError.
Proof.
  intros Hne. unfold SnakeEnv_new, SnakeGameState_new.
  destruct (decide ((height, width) <> PLAY_AREA)); [reflexivity | contradiction].
Qed.

Lemma SnakeEnv_new_ok (height width : Z) (headless : bool) (st : SnakeGameState) :
  SnakeEnv_new height width headless = Ok st ->
  (height, width) = PLAY_AREA /\
  np_RandomState 1234 = Some (random st) /\
  st = mkSnakeGameState (width, height, 4) width height headless false (random st) None.
Proof.
  unfold SnakeEnv_new, SnakeGameState_new, seed_or_default.
  destruct (decide ((height, width) <> PLAY_AREA)) as [Hne|He]; [discriminate|].
  apply dec_stable in He.
  destruct (np_RandomState 1234) as [r|]; cbn [rbind]; [|discriminate].
  cbn [shape]. unfold np_zeros.
  destruct (decide (0 <= width /\ 0 <= height /\ 0 <= 4)); cbn [rbind]; [|discriminate].
  intros [= <-]. cbn. auto.
Qed.

(** X3: the constructor accepts exactly the dimensions of the play area
    constant: with any other [(height, width)] it raises ValueError, it
    raises nothing but ValueError, and an environment it returns has
    shape (width, height, 4), the given [headless] flag, [loop] off, no
    game yet and the generator of the default seed 1234. *)
Theorem constructor_accepts_play_area_only (height width : Z) (headless : bool) :
  ((height, width) <> PLAY_AREA ->
   SnakeEnv_new height width headless = Raise ValueError) /\
  (forall e, SnakeEnv_new height width headless = Raise e -> e = ValueError) /\
  (forall st, SnakeEnv_new height width headless = Ok st ->
     (height, width) = PLAY_AREA /\
     np_RandomState 1234 = Some (random st) /\
     st = mkSnakeGameState (width, height, 4) width height headless false (random st) None).
Proof.
  split; [apply SnakeEnv_new_mismatch|]. split; [|apply SnakeEnv_new_ok].
  unfold SnakeEnv_new, SnakeGameState_new, seed_or_default.
  destruct (decide ((height, width) <> PLAY_AREA)); [cbn; congruence|].
  destruct (np_RandomState 1234); cbn [rbind]; [|congruence].
  cbn [shape]. unfold np_zeros.
  destruct (decide (0 <= width /\ 0 <= height /\ 0 <= 4)); cbn [rbind]; congruence.
Qed.

(** X16: [register()] registers five presets under distinct ids, of the
    sides 4, 8 and 20; since the constructor accepts one size only, two
    presets that can both be constructed have the same dimensions, and
    whatever the play area constant is, some preset raises ValueError. *)
Theorem presets_fit_one_size :
  exists regs, register = Ok regs /\ length regs = 5%nat /\
    NoDup (map reg_id regs) /\
    (forall r1 r2 st1 st2, r1 ∈ regs -> r2 ∈ regs ->
       registration_make r1 = Ok st1 -> registration_make r2 = Ok st2 ->
       reg_width r1 = reg_width r2 /\ reg_height r1 = reg_height r2) /\
    (exists r, r ∈ regs /\ registration_make r = Raise ValueError).
Proof.
  eexists. split; [reflexivity|]. split; [reflexivity|].
  split; [cbn; repeat (constructor; [set_solver|]); constructor|].
  split.
  - intros r1 r2 st1 st2 _ _ H1 H2. unfold registration_make in *.
    destruct (SnakeEnv_new_ok _ _ _ _ H1) as [E1 _].
    destruct (SnakeEnv_new_ok _ _ _ _ H2) as [E2 _].
    rewrite <- E2 in E1. injection E1 as -> ->. auto.
  - destruct (decide ((4, 4) = PLAY_AREA)) as [E|E].
    + exists (mkRegistration "Snake-v0" 8 8 false 25). split; [set_solver|].
      apply SnakeEnv_new_mismatch. cbn. rewrite <- E. discriminate.
    + exists (mkRegistration "SnakeSmall-v0" 4 4 false 25). split; [set_solver|].
      apply SnakeEnv_new_mismatch. exact E.
Qed.

End ConstructorTheorems.

Section CallTheorems.
Context {P : Platform}.

(** X6: before the first [reset] there is no game: [step] with an action
    in 0..3 raises AttributeError, and any other action raises ValueError
    first; [encode] allocates its tensor before it looks for the game, so
    it raises ValueError when the shape has a negative dimension and
    AttributeError otherwise.  Neither changes anything. *)
Theorem step_before_reset (w : World) (action : Z) :
  st_game (state w) = None ->
  encode w
  = (Raise (if decide (0 <= (shape (state w)).1.1 /\ 0 <= (shape (state w)).1.2 /\
                       0 <= (shape (state w)).2)
            then AttributeError else ValueError), w) /\
  SnakeEnv_step action w
  = (Raise (if decide (valid_action action) then AttributeError else ValueError), w).
Proof.
  intros Hg. split.
  - unfold encode, SnakeGameState_encode, np_zeros. rewrite Hg.
    destruct (shape (state w)) as [[a b] c]. cbn [fst snd].
    destruct (decide (0 <= a /\ 0 <= b /\ 0 <= c)); reflexivity.
  - unfold SnakeEnv_step.
    destruct (action_direction action) as [d|] eqn:Hd.
    + assert (Hv : valid_action action) by (apply action_direction_valid; eauto).
      destruct (decide (valid_action action)); [|contradiction].
      unfold SnakeGameState_step, with_game. cbv [bind]. rewrite Hg. reflexivity.
    + destruct (decide (valid_action action)) as [Hv|]; [|reflexivity].
      apply action_direction_valid in Hv. destruct Hv as [d Hd']. congruence.
Qed.

(** X7: whenever [step] returns, the action lies in the declared action
    space Discrete(4), the reward lies in the declared reward range
    (-1, 1) and is an integer of it, done is True exactly when the reward
    is -1, and then the game left behind has its exit flag set. *)
Theorem reward_in_declared_range (w w' : World) (action : Z)
    (obs : ndarray) (reward : Z) (done : bool) (height width : Z) :
  SnakeEnv_step action w = (Ok (obs, reward, done), w') ->
  let spaces := SnakeEnv_spaces height width in
  Discrete_contains (action_space spaces) action /\
  (reward_range spaces).1 <= reward <= (reward_range spaces).2 /\
  (done = true <-> reward = -1) /\
  exists g', st_game (state w') = Some g' /\ (done = true -> should_exit g' = true).
Proof.
  intros Hstep. cbv zeta.
  unfold SnakeEnv_step in Hstep.
  destruct (action_direction action) as [d|] eqn:Hd; [|discriminate].
  assert (Hv : valid_action action) by (apply action_direction_valid; eauto).
  destruct (st_game (state w)) as [g|] eqn:Hg.
  2:{ unfold SnakeGameState_step, with_game in Hstep. cbv [bind] in Hstep.
      rewrite Hg in Hstep. discriminate. }
  destruct (Game_run_step (mkSim (process_random w) (set_controller_direction d g)))
    as [[[]|e] s1] eqn:Hrun.
  2:{ cbv [bind] in Hstep. rewrite (SnakeGameState_step_raise w d g s1 e Hg Hrun) in Hstep.
      discriminate. }
  pose proof (SnakeGameState_step_run w d g s1 Hg Hrun) as E. cbv zeta in E.
  cbv [bind] in Hstep. rewrite E in Hstep. unfold encode, ret in Hstep.
  destruct (SnakeGameState_encode _) as [o|e]; [|discriminate].
  injection Hstep as <- <- <- <-. env_simpl.
  unfold Discrete_contains, SnakeEnv_spaces, valid_action in *. cbn [action_space reward_range fst snd].
  split; [lia|].
  set (g2 := if headless (state w) then game s1 else extrastep (game s1)).
  destruct (decide (head_length (head g2) > head_length (head g))).
  - split; [lia|]. split; [split; [intros H; apply bool_decide_eq_true in H; lia | lia]|].
    exists g2. split; [reflexivity|]. intros H. apply bool_decide_eq_true in H. lia.
  - destruct (should_exit g2) eqn:Hex.
    + split; [lia|]. split; [split; [reflexivity | intros _; apply bool_decide_eq_true; lia]|].
      exists g2. split; [reflexivity | intros _; exact Hex].
    + split; [lia|]. split; [split; [intros H; apply bool_decide_eq_true in H; lia | lia]|].
      exists g2. split; [reflexivity|]. intros H. apply bool_decide_eq_true in H. lia.
Qed.

Lemma with_game_set_random {A} (m : M Sim A) (r : np_state) (w : World) :
  with_game m (on_state (set_random r) w)
  = ((with_game m w).1, on_state (set_random r) (with_game m w).2).
Proof.
  unfold with_game, on_state. destruct w as [pr [sh wd ht hl lp rd [g|]]]; env_simpl;
    [|reflexivity].
  destruct (m _) as [x s]. reflexivity.
Qed.

Lemma SnakeGameState_step_set_random (d : Vector2) (r : np_state) (w : World) :
  SnakeGameState_step d (on_state (set_random r) w)
  = ((SnakeGameState_step d w).1, on_state (set_random r) (SnakeGameState_step d w).2).
Proof.
  destruct (st_game (state w)) as [g|] eqn:Hg.
  2:{ unfold SnakeGameState_step, with_game. cbv [bind].
      destruct w as [pr [sh wd ht hl lp rd og]]; env_simpl. cbn in Hg. subst og.
      reflexivity. }
  assert (Hg' : st_game (state (on_state (set_random r) w)) = Some g).
  { destruct w as [pr [sh wd ht hl lp rd og]]; exact Hg. }
  assert (Hpr : process_random (on_state (set_random r) w) = process_random w)
    by reflexivity.
  assert (Hhl : headless (state (on_state (set_random r) w)) = headless (state w)).
  { destruct w as [pr [sh wd ht hl lp rd og]]; reflexivity. }
  destruct (Game_run_step (mkSim (process_random w) (set_controller_direction d g)))
    as [[[]|e] s1] eqn:Hrun.
  - pose proof (SnakeGameState_step_run w d g s1 Hg Hrun) as E1.
    pose proof (SnakeGameState_step_run (on_state (set_random r) w) d g s1 Hg') as E2.
    rewrite Hpr in E2. specialize (E2 Hrun). cbv zeta in E1, E2.
    rewrite E1, E2, Hhl. cbn [fst snd].
    destruct w as [pr [sh wd ht hl lp rd og]]; reflexivity.
  - pose proof (SnakeGameState_step_raise w d g s1 e Hg Hrun) as E1.
    pose proof (SnakeGameState_step_raise (on_state (set_random r) w) d g s1 e Hg') as E2.
    rewrite Hpr in E2. specialize (E2 Hrun).
    rewrite E1, E2. cbn [fst snd].
    destruct w as [pr [sh wd ht hl lp rd og]]; reflexivity.
Qed.

Lemma SnakeGameState_encode_set_random (r : np_state) (st : SnakeGameState) :
  SnakeGameState_encode (set_random r st) = SnakeGameState_encode st.
Proof. destruct st; reflexivity. Qed.

(** X14: reseeding in the middle of an episode does not touch the running
    game: a [step] after [seed(s)] returns what it would have returned,
    and leaves the world the other order leaves; the new seed only shows
    at the next [reset], which draws its sub-seed from the new generator. *)
Theorem seed_waits_for_reset (seed : option Z) (action : Z) (w : World) (r : np_state) :
  np_RandomState (seed_or_default seed) = Some r ->
  let w1 := (SnakeEnv_seed seed w).2 in
  (SnakeEnv_seed seed w).1 = Ok tt /\
  (SnakeEnv_step action w1).1 = (SnakeEnv_step action w).1 /\
  (SnakeEnv_step action w1).2 = (SnakeEnv_seed seed (SnakeEnv_step action w).2).2 /\
  SnakeGameState_reset w1
  = SnakeGameState_reset (mkWorld (process_random w) (set_random r (state w))).
Proof.
  intros Hr. cbv zeta.
  assert (Hseed : forall w0, SnakeEnv_seed seed w0 = (Ok tt, on_state (set_random r) w0)).
  { intros w0. unfold SnakeEnv_seed, SnakeGameState_seed. cbv zeta. rewrite Hr. reflexivity. }
  rewrite !Hseed. cbn [fst snd]. split; [reflexivity|].
  assert (Hstep : SnakeEnv_step action (on_state (set_random r) w)
                  = ((SnakeEnv_step action w).1,
                     on_state (set_random r) (SnakeEnv_step action w).2)).
  { unfold SnakeEnv_step. destruct (action_direction action) as [d|]; [|reflexivity].
    cbv [bind]. rewrite SnakeGameState_step_set_random.
    destruct (SnakeGameState_step d w) as [[x|e] w2]; cbn [fst snd]; [|reflexivity].
    unfold encode, on_state. env_simpl. rewrite SnakeGameState_encode_set_random.
    destruct (SnakeGameState_encode (state w2)); reflexivity. }
  rewrite Hstep. cbn [fst snd]. split; [reflexivity|]. split; reflexivity.
Qed.

End CallTheorems.

Section RenderFacts.
Context {P : Platform}.

Lemma for_each_writes {A} (f : A -> list Ascii.ascii) (body : A -> M (list Ascii.ascii) unit) (l : list A) :
  (forall a out, a ∈ l -> body a out = (Ok tt, out ++ f a)) ->
  forall out, for_each l body out = (Ok tt, out ++ concat (map f l)).
Proof.
  induction l as [|a l IH]; intros Hb out; cbn [for_each map concat].
  - unfold ret. rewrite app_nil_r. reflexivity.
  - cbv [bind]. rewrite Hb by (left). rewrite IH.
    + rewrite <- app_assoc. reflexivity.
    + intros b o Hin. apply Hb. right. exact Hin.
Qed.

Lemma np_setitem_shape (f f' : ndarray) (w h c : nat) (x y k v : Z) :
  np_setitem f x y k v = Ok f' -> has_shape f w h c -> has_shape f' w h c.
Proof.
  unfold np_setitem, has_shape. intros H [Hl Hrows].
  destruct (np_index (length f) x) as [i|] eqn:Ei; cbn [rbind] in H; [|discriminate].
  unfold lookup_or_raise in H.
  destruct (f !! i) as [row|] eqn:Er; cbn [rbind] in H; [|discriminate].
  destruct (np_index (length row) y) as [j|] eqn:Ej; cbn [rbind] in H; [|discriminate].
  destruct (row !! j) as [cell|] eqn:Ec; cbn [rbind] in H; [|discriminate].
  destruct (np_index (length cell) k) as [n|] eqn:Ek; cbn [rbind] in H; [|discriminate].
  injection H as <-.
  pose proof (proj1 (Forall_forall _ _) Hrows row (list_elem_of_lookup_2 _ _ _ Er)) as [Hrl Hcells].
  pose proof (proj1 (Forall_forall _ _) Hcells cell (list_elem_of_lookup_2 _ _ _ Ec)) as Hcl.
  cbv beta in Hcl.
  split; [rewrite length_insert; exact Hl|].
  apply Forall_insert; [exact Hrows|]. cbv beta.
  split; [rewrite length_insert; exact Hrl|].
  apply Forall_insert; [exact Hcells|]. cbv beta. rewrite length_insert. exact Hcl.
Qed.

Lemma encode_pieces_shape (l : list SnakePiece) (f f' : ndarray) (w h c : nat) :
  encode_pieces f l = Ok f' -> has_shape f w h c -> has_shape f' w h c.
Proof.
  revert f. induction l as [|p l IH]; intros f H Hs; cbn [encode_pieces] in H.
  - injection H as <-. exact Hs.
  - destruct (np_setitem f _ _ 0 _) as [f1|] eqn:E1; cbn [rbind] in H; [|discriminate].
    apply (IH f1 H). exact (np_setitem_shape _ _ _ _ _ _ _ _ _ E1 Hs).
Qed.

Lemma SnakeGameState_encode_shape (st : SnakeGameState) (T : ndarray) :
  shape st = (width st, height st, 4) ->
  SnakeGameState_encode st = Ok T ->
  0 <= width st /\ 0 <= height st /\
  has_shape T (Z.to_nat (width st)) (Z.to_nat (height st)) 4.
Proof.
  intros Hshape H. unfold SnakeGameState_encode in H.
  rewrite Hshape in H. unfold np_zeros in H.
  destruct (decide (0 <= width st /\ 0 <= height st /\ 0 <= 4)) as [(Hw & Hh & _)|];
    cbn [rbind] in H; [|discriminate].
  destruct (st_game st) as [g|]; cbn [rbind] in H; [|discriminate].
  match type of H with
  | context [encode_pieces ?f _] => set (f0 := f) in H
  end.
  assert (Hs0 : has_shape f0 (Z.to_nat (width st)) (Z.to_nat (height st)) 4).
  { subst f0. split; [apply length_replicate|].
    apply Forall_replicate. split; [apply length_replicate|].
    apply Forall_replicate. apply length_replicate. }
  destruct (encode_pieces f0 _) as [f1|] eqn:E1; cbn [rbind] in H; [|discriminate].
  pose proof (encode_pieces_shape _ _ _ _ _ _ E1 Hs0) as Hs1.
  cbv zeta in H.
  destruct (if in_bounds st (head_position (head g)) then _ else _) as [f2|] eqn:E2;
    cbn [rbind] in H; [|discriminate].
  assert (Hs2 : has_shape f2 (Z.to_nat (width st)) (Z.to_nat (height st)) 4).
  { destruct (in_bounds st _); [exact (np_setitem_shape _ _ _ _ _ _ _ _ _ E2 Hs1)|].
    injection E2 as <-. exact Hs1. }
  destruct (if loop st then _ else _) as [n|]; cbn [rbind] in H; [|discriminate].
  destruct (if in_bounds st n then _ else _) as [f3|] eqn:E3;
    cbn [rbind] in H; [|discriminate].
  assert (Hs3 : has_shape f3 (Z.to_nat (width st)) (Z.to_nat (height st)) 4).
  { destruct (in_bounds st n); [exact (np_setitem_shape _ _ _ _ _ _ _ _ _ E3 Hs2)|].
    injection E3 as <-. exact Hs2. }
  destruct (cherry g) as [c|]; cbn [rbind] in H; [|discriminate].
  split; [exact Hw|]. split; [exact Hh|].
  exact (np_setitem_shape _ _ _ _ _ _ _ _ _ H Hs3).
Qed.

Lemma np_getitem_ok (f : ndarray) (w h c : nat) (x y k : Z) :
  has_shape f w h c ->
  0 <= x < Z.of_nat w -> 0 <= y < Z.of_nat h -> 0 <= k < Z.of_nat c ->
  np_getitem f x y k = Ok (np_get f (Z.to_nat x) (Z.to_nat y) (Z.to_nat k)).
Proof.
  intros [Hl Hrows] Hx Hy Hk. unfold np_getitem, np_get, np_index, lookup_or_raise.
  rewrite Hl. destruct (decide (0 <= x < Z.of_nat w)); [|lia]. cbn [rbind].
  destruct (f !! Z.to_nat x) as [row|] eqn:Er.
  2:{ apply lookup_ge_None in Er. lia. }
  cbn [rbind].
  pose proof (proj1 (Forall_forall _ _) Hrows row (list_elem_of_lookup_2 _ _ _ Er)) as [Hrl Hcells].
  rewrite Hrl. destruct (decide (0 <= y < Z.of_nat h)); [|lia]. cbn [rbind].
  destruct (row !! Z.to_nat y) as [cell|] eqn:Ec.
  2:{ apply lookup_ge_None in Ec. lia. }
  cbn [rbind].
  pose proof (proj1 (Forall_forall _ _) Hcells cell (list_elem_of_lookup_2 _ _ _ Ec)) as Hcl.
  cbv beta in Hcl. rewrite Hcl.
  destruct (decide (0 <= k < Z.of_nat c)); [|lia]. cbn [rbind].
  destruct (cell !! Z.to_nat k) as [v|] eqn:Ev; [reflexivity|].
  apply lookup_ge_None in Ev. lia.
Qed.

End RenderFacts.

Section RenderTheorems.
Context {P : Platform}.

Lemma write_run (s : string) (out : list Ascii.ascii) :
  write s out = (Ok tt, out ++ String.list_ascii_of_string s).
Proof. reflexivity. Qed.

Lemma length_concat_map {A} (f : A -> list Ascii.ascii) (n : nat) (l : list A) :
  (forall a, length (f a) = n) -> length (concat (map f l)) = (n * length l)%nat.
Proof.
  intros Hf. induction l as [|a l IH]; cbn [map concat length]; [lia|].
  rewrite length_app, Hf, IH. lia.
Qed.

Lemma SnakeGameState_render_ansi_run (st : SnakeGameState) (out : list Ascii.ascii) :
  shape st = (width st, height st, 4) ->
  SnakeGameState_render_ansi st out
  = match SnakeGameState_encode st with
    | Raise e => (Raise e, out)
    | Ok T => (Ok tt, out ++ frame st T)
    end.
Proof.
  intros Hshape. unfold SnakeGameState_render_ansi. cbv [bind lift].
  destruct (SnakeGameState_encode st) as [T|e] eqn:E; [|reflexivity].
  destruct (SnakeGameState_encode_shape st T Hshape E) as (Hw & Hh & Hs).
  rewrite (for_each_writes (fun _ => String.list_ascii_of_string "#"))
    by (intros; apply write_run).
  rewrite write_run.
  rewrite (for_each_writes (frame_line st T)).
  - rewrite (for_each_writes (fun _ => String.list_ascii_of_string "#"))
      by (intros; apply write_run).
    rewrite write_run. unfold frame, frame_border. rewrite <- !app_assoc. reflexivity.
  - intros y o Hy. apply elem_of_seqZ in Hy.
    rewrite write_run.
    rewrite (for_each_writes (fun x => String.list_ascii_of_string (glyph T x y))).
    + rewrite write_run. unfold frame_line. rewrite <- !app_assoc. reflexivity.
    + intros x o' Hx. apply elem_of_seqZ in Hx. unfold glyph.
      rewrite !(np_getitem_ok T _ _ 4 x y) by (first [exact Hs | lia]).
      change (Z.to_nat 0) with 0%nat. change (Z.to_nat 1) with 1%nat.
      change (Z.to_nat 3) with 3%nat.
      repeat (destruct (decide _); [apply write_run|]). apply write_run.
Qed.

(** X15: [render_ansi] writes nothing when [encode] raises and raises
    nothing of its own; otherwise it appends the frame of the
    observation: height + 2 lines of 2 * width + 3 characters and a
    newline each, where a cell shows O for a piece, else @ for the Head,
    else % for the cherry, else a dot, and the next-cell channel is not
    shown. *)
Theorem render_ansi_frame (st : SnakeGameState) (out : list Ascii.ascii) :
  shape st = (width st, height st, 4) ->
  match SnakeGameState_encode st with
  | Raise e => SnakeGameState_render_ansi st out = (Raise e, out)
  | Ok T =>
      SnakeGameState_render_ansi st out = (Ok tt, out ++ frame st T) /\
      Z.of_nat (length (frame st T)) = (2 * width st + 4) * (height st + 2) /\
      Forall (fun y => Z.of_nat (length (frame_line st T y)) = 2 * width st + 4)
             (seqZ 0 (height st))
  end.
Proof.
  intros Hshape. pose proof (SnakeGameState_render_ansi_run st out Hshape) as Hrun.
  destruct (SnakeGameState_encode st) as [T|e] eqn:E; [|exact Hrun].
  destruct (SnakeGameState_encode_shape st T Hshape E) as (Hw & Hh & _).
  split; [exact Hrun|].
  assert (Hline : forall y, Z.of_nat (length (frame_line st T y)) = 2 * width st + 4).
  { intros y. unfold frame_line. rewrite !length_app.
    rewrite (length_concat_map _ 2).
    - rewrite length_seqZ.
      change (length (String.list_ascii_of_string "# ")) with 2%nat.
      change (length (String.list_ascii_of_string ("#" +:+ newline))) with 2%nat. lia.
    - intros x. unfold glyph. repeat (destruct (decide _); [reflexivity|]). reflexivity. }
  assert (Hborder : Z.of_nat (length (frame_border st)) = 2 * width st + 4).
  { unfold frame_border. rewrite length_app, (length_concat_map _ 1) by reflexivity.
    rewrite length_seqZ.
    change (length (String.list_ascii_of_string newline)) with 1%nat. lia. }
  split; [|apply Forall_forall; intros y _; apply Hline].
  unfold frame. rewrite !length_app.
  assert (Hbody : Z.of_nat (length (concat (map (frame_line st T) (seqZ 0 (height st)))))
                  = (2 * width st + 4) * height st).
  { generalize (seqZ 0 (height st)) (length_seqZ 0 (height st)). intros l Hl.
    rewrite <- (Z2Nat.id (height st)) by lia. rewrite <- Hl. clear Hl.
    induction l as [|y l IH]; cbn [map concat length]; [lia|].
    rewrite length_app. specialize (Hline y). lia. }
  lia.
Qed.

(** X18: [render] tells only the mode "ansi" apart: it then returns a new
    StringIO holding the frame and leaves the standard output alone; any
    other mode, known or not, appends the same frame to the standard
    output and returns it.  When [encode] raises, so does [render], and
    nothing is printed. *)
Theorem render_modes (mode : string) (st : SnakeGameState) (stdout : list Ascii.ascii) :
  shape st = (width st, height st, 4) ->
  SnakeEnv_render mode st stdout
  = match SnakeGameState_encode st with
    | Raise e => (Raise e, stdout)
    | Ok T => if decide (mode = "ansi") then (Ok (StringIO (frame st T)), stdout)
              else (Ok sys_stdout, stdout ++ frame st T)
    end.
Proof.
  intros Hshape. unfold SnakeEnv_render.
  destruct (decide (mode = "ansi")).
  - rewrite (SnakeGameState_render_ansi_run st [] Hshape).
    destruct (SnakeGameState_encode st); reflexivity.
  - cbv [bind]. rewrite (SnakeGameState_render_ansi_run st stdout Hshape).
    destruct (SnakeGameState_encode st); reflexivity.
Qed.

End RenderTheorems.

Section FirstFrame.
Context {P : Platform}.

Lemma set_iter_nil : set_iter [] = [].
Proof. apply Permutation_nil_r, set_iter_perm. Qed.

(** The observation of a game without pieces. *)
Lemma encode_without_pieces (st : SnakeGameState) (g : Game) (c : Cherry) :
  st_game st = Some g -> cherry g = Some c -> pieces g = [] ->
  shape st = (width st, height st, 4) ->
  index_ok st (cherry_position c) ->
  let ahead := Vector2_add (head_position (head g)) (head_direction (head g)) in
  let next := if loop st then cell_of st ahead else ahead in
  exists T, SnakeGameState_encode st = Ok T /\
    forall x y k, 0 <= x < width st -> 0 <= y < height st ->
      np_get T (Z.to_nat x) (Z.to_nat y) k
      = if decide (cell_of st (cherry_position c) = (x, y) /\ k = 3%nat) then 1
        else if decide (next = (x, y) /\ k = 2%nat) then 1
        else if decide (head_position (head g) = (x, y) /\ k = 1%nat) then 1
        else 0.
Proof.
  intros Hg Hc Hps Hshape Hcherry ahead next.
  assert (Hw : 0 < width st) by (destruct Hcherry; lia).
  assert (Hh : 0 < height st) by (destruct Hcherry; lia).
  unfold SnakeGameState_encode. rewrite Hg, Hshape. cbn [rbind].
  destruct (np_zeros_shape (width st) (height st) 4) as (f0 & -> & Hs0 & Hz);
    [lia | lia | lia |].
  cbn [rbind]. change (Z.to_nat 4) with 4%nat in Hs0.
  rewrite Hps, set_iter_nil. cbn [encode_pieces rbind].
  destruct (guarded_setitem_cell st f0 (head_position (head g)) 1 Hs0 ltac:(lia))
    as (f2 & -> & Hs2 & Hget2).
  cbn [rbind]. fold ahead.
  assert (Hnext : (if loop st
                   then x <~ py_mod ahead.1 (width st) ;;
                        y <~ py_mod ahead.2 (height st) ;; Ok (x, y)
                   else Ok ahead) = Ok next).
  { subst next. destruct (loop st); [|reflexivity].
    unfold py_mod. destruct (decide (width st = 0)); [lia|]. cbn [rbind].
    destruct (decide (height st = 0)); [lia|]. reflexivity. }
  rewrite Hnext. cbn [rbind].
  destruct (guarded_setitem_cell st f2 next 2 Hs2 ltac:(lia)) as (f3 & -> & Hs3 & Hget3).
  cbn [rbind]. rewrite Hc. cbn [rbind].
  destruct (np_setitem_cell st f3 (cherry_position c) 3 1 Hs3 Hcherry ltac:(lia))
    as (T & -> & HsT & HgetT).
  exists T. split; [reflexivity|]. intros x y k Hx Hy.
  rewrite (HgetT x y k Hx Hy), (Hget3 x y k Hx Hy), (Hget2 x y k Hx Hy), Hz. reflexivity.
Qed.

(** X5: on a square play area the observation [reset] returns is all
    zero except for one 1 per channel 1 to 3: at the origin for the
    Head, at (1, 0) for the cell ahead (none on a 1 by 1 area without
    loop), and at the cherry's cell; channel 0 is empty.  Its frame
    shows @ at the origin, also when the cherry was drawn there, %
    at the cherry's cell otherwise, and dots elsewhere. *)
Theorem reset_observation (w : World) :
  shape (state w) = (width (state w), height (state w), 4) ->
  (height (state w), width (state w)) = PLAY_AREA ->
  width (state w) = height (state w) ->
  (SnakeGameState_reset w).1 = Ok tt ->
  exists T g c,
    SnakeEnv_reset w = (Ok T, (SnakeGameState_reset w).2) /\
    st_game (state (SnakeGameState_reset w).2) = Some g /\ cherry g = Some c /\
    forall x y, 0 <= x < width (state w) -> 0 <= y < height (state w) ->
      let v k := np_get T (Z.to_nat x) (Z.to_nat y) k in
      v 0%nat = 0 /\
      v 1%nat = (if decide ((x, y) = (0, 0)) then 1 else 0) /\
      v 2%nat = (if decide ((x, y) = (1, 0) /\ (1 < width (state w) \/ loop (state w) = true))
                 then 1
                 else if decide ((x, y) = (0, 0) /\ width (state w) = 1 /\ loop (state w) = true)
                 then 1 else 0) /\
      v 3%nat = (if decide ((x, y) = cherry_position c) then 1 else 0) /\
      glyph T x y = (if decide ((x, y) = (0, 0)) then "@ "
                     else if decide ((x, y) = cherry_position c) then "% " else ". ")%string.
Proof.
  intros Hshape Hpa Hsq Hok.
  destruct (SnakeGameState_reset_game w Hok) as (Hp1 & Hp2 & c & Hc1 & Hc2 & E).
  set (st' := state (SnakeGameState_reset w).2) in *.
  assert (Hcfg : shape st' = shape (state w) /\ width st' = width (state w) /\
                 height st' = height (state w) /\ loop st' = loop (state w)).
  { rewrite E. destruct (state w). repeat split. }
  destruct Hcfg as (Es & Ew & Eh & El).
  rewrite <- Hpa in Hp1, Hp2, Hc1, Hc2. cbn [fst snd] in Hp1, Hp2, Hc1, Hc2.
  assert (Hidx : index_ok st' (cherry_position (mkCherry c))).
  { unfold index_ok. rewrite Ew, Eh. cbn. lia. }
  destruct (encode_without_pieces st' _ (mkCherry c)
              ltac:(rewrite E; destruct (state w); reflexivity) eq_refl eq_refl
              ltac:(congruence) Hidx) as (T & ET & Hget).
  cbv zeta in Hget. cbn [head head_position head_direction SnakeHead_init Vector2_add
                         cherry_position fst snd] in Hget.
  eexists T, _, (mkCherry c). split.
  { unfold SnakeEnv_reset. cbv [bind].
    destruct (SnakeGameState_reset w) as [[[]|e] w1]; cbn [fst snd] in *; [|discriminate].
    unfold encode. subst st'. rewrite ET. reflexivity. }
  split; [rewrite E; destruct (state w); reflexivity|]. split; [reflexivity|].
  intros x y Hx Hy. cbv zeta.
  rewrite <- Ew in Hx. rewrite <- Eh in Hy.
  rewrite !(Hget x y _ Hx Hy). rewrite Ew in Hx. rewrite Eh in Hy.
  assert (Hcell : cell_of st' c = c).
  { unfold cell_of. rewrite Ew, Eh. destruct c as [a b]. cbn [fst snd] in *.
    rewrite !Z.mod_small by lia. reflexivity. }
  rewrite Hcell. cbn [cherry_position].
  match goal with
  | |- ?A /\ ?B /\ ?C /\ ?D /\ _ => assert (Hv : A /\ B /\ C /\ D)
  end.
  2:{ destruct Hv as (H0 & H1 & H2 & H3).
      split; [exact H0|]. split; [exact H1|]. split; [exact H2|]. split; [exact H3|].
      unfold glyph. rewrite !(Hget x y _ ltac:(lia) ltac:(lia)), Hcell.
      rewrite H0, H1, H3. clear.
      repeat case_decide; try reflexivity; exfalso; naive_solver lia. }
  split; [|split; [|split]].
  - repeat (destruct (decide (_ /\ _)) as [[_ ?]|_]; [discriminate|]). reflexivity.
  - repeat (destruct (decide (_ /\ (1%nat = _))) as [[_ ?]|_]; [discriminate|]).
    destruct (decide (_ /\ _)) as [[? _]|Hn]; destruct (decide (_ = _)) as [?|Hm];
      try reflexivity; try congruence.
    exfalso. apply Hn. split; [congruence | reflexivity].
  - rewrite El. unfold cell_of, Vector2_add. rewrite ?Ew, ?Eh. cbn [fst snd].
    change (0 + 1) with 1. change (0 + 0) with 0.
    assert (Hmod : 1 < width (state w) /\ 1 mod width (state w) = 1 \/
                   width (state w) = 1 /\ 1 mod width (state w) = 0).
    { destruct (decide (1 < width (state w))); [left; split; [lia|apply Z.mod_small; lia]|].
      right. assert (Hw1 : width (state w) = 1) by lia. rewrite Hw1. split; reflexivity. }
    destruct (loop (state w)); [rewrite Z.mod_0_l by lia|];
      destruct Hmod as [[Hgt Em]|[Hw1 Em]]; rewrite ?Em;
      repeat case_decide; try reflexivity; exfalso; naive_solver lia.
  - destruct (decide (_ /\ _)) as [[? _]|Hn]; destruct (decide (_ = _)) as [?|Hm];
      try reflexivity; try congruence.
    + exfalso. apply Hn. split; [congruence | reflexivity].
    + repeat (destruct (decide (_ /\ _)) as [[_ ?]|_]; [discriminate|]). reflexivity.
Qed.

End FirstFrame.

Section WalkFacts.
Context {P : Platform}.

Lemma np_setitem_bad (f : ndarray) (w h c : nat) (x y k v : Z) :
  has_shape f w h c ->
  ~ (- Z.of_nat w <= x < Z.of_nat w /\ - Z.of_nat h <= y < Z.of_nat h) ->
  np_setitem f x y k v = Raise IndexError.
Proof.
  intros [Hl Hrows] Hbad. unfold np_setitem.
  destruct (decide (- Z.of_nat w <= x < Z.of_nat w)) as [Hx|Hx].
  - destruct (np_index_ok (length f) x) as [-> Hi]; [rewrite Hl; exact Hx|].
    cbn [rbind]. unfold lookup_or_raise.
    destruct (f !! _) as [row|] eqn:Er.
    2:{ apply lookup_ge_None in Er. lia. }
    cbn [rbind].
    pose proof (proj1 (Forall_forall _ _) Hrows row (list_elem_of_lookup_2 _ _ _ Er))
      as [Hrl _].
    unfold np_index. rewrite Hrl.
    destruct (decide (0 <= y < Z.of_nat h)); [lia|].
    destruct (decide (- Z.of_nat h <= y < 0)); [lia|]. reflexivity.
  - unfold np_index. rewrite Hl.
    destruct (decide (0 <= x < Z.of_nat w)); [lia|].
    destruct (decide (- Z.of_nat w <= x < 0)); [lia|]. reflexivity.
Qed.

Lemma encode_pieces_bad (st : SnakeGameState) (l : list SnakePiece) (f : ndarray) (p : SnakePiece) :
  0 <= width st -> 0 <= height st ->
  has_shape f (Z.to_nat (width st)) (Z.to_nat (height st)) 4 ->
  p ∈ l -> ~ index_ok st (piece_position p) ->
  encode_pieces f l = Raise IndexError.
Proof.
  intros Hw Hh. revert f. induction l as [|a l IH]; intros f Hs Hin Hbad.
  - inversion Hin.
  - cbn [encode_pieces].
    destruct (decide (index_ok st (piece_position a))) as [Hok|Hno].
    + destruct (np_setitem_cell st f (piece_position a) 0 (piece_age a + 1) Hs Hok
                  ltac:(lia)) as (f' & -> & Hs' & _).
      cbn [rbind]. apply IH; [exact Hs'| |exact Hbad].
      apply elem_of_cons in Hin. destruct Hin as [->|Hin]; [contradiction | exact Hin].
    + rewrite (np_setitem_bad f _ _ _ _ _ _ _ Hs); [reflexivity|].
      unfold index_ok in Hno. rewrite !Z2Nat.id by lia. exact Hno.
Qed.

Lemma SnakeGameState_encode_bad (st : SnakeGameState) (g : Game) (p : SnakePiece) :
  st_game st = Some g ->
  shape st = (width st, height st, 4) ->
  0 <= width st -> 0 <= height st ->
  p ∈ pieces g -> ~ index_ok st (piece_position p) ->
  SnakeGameState_encode st = Raise IndexError.
Proof.
  intros Hg Hshape Hw Hh Hin Hbad. unfold SnakeGameState_encode.
  rewrite Hg, Hshape. cbn [rbind].
  destruct (np_zeros_shape (width st) (height st) 4) as (f0 & -> & Hs0 & _);
    [lia | lia | lia |].
  cbn [rbind]. change (Z.to_nat 4) with 4%nat in Hs0.
  rewrite (encode_pieces_bad st _ f0 p Hw Hh Hs0); [reflexivity| |exact Hbad].
  rewrite (set_iter_perm (pieces g)). exact Hin.
Qed.

Lemma wrap_overflow_inside (q : Vector2) :
  q.1 < PLAY_AREA.1 -> q.2 < PLAY_AREA.2 -> wrap_overflow q = q.
Proof.
  intros H1 H2. unfold wrap_overflow. destruct q as [x y]. cbn [fst snd] in *.
  destruct (decide (x >= PLAY_AREA.1)); [lia|].
  destruct (decide (y >= PLAY_AREA.2)); [lia|]. reflexivity.
Qed.

(** One step of a running headless episode: where the Head goes and the
    piece it leaves. *)
Lemma episode_step_trail (n : Z) (w : World) (action : Z) (d : Vector2) (g : Game) :
  0 <= n -> action_direction action = Some d ->
  episode_state n w -> st_game (state w) = Some g ->
  exists g',
    let w' := (SnakeEnv_step action w).2 in
    (SnakeEnv_step action w).1
    = result_map (fun obs => (obs, (if decide (head_length (head g') > head_length (head g))
                                    then 1 else 0), false))
                 (SnakeGameState_encode (state w')) /\
    st_game (state w') = Some g' /\
    same_config (state w) (state w') /\
    episode_state (n + 1) w' /\
    head_position (head g') = wrap_overflow (Vector2_add (head_position (head g)) d) /\
    mkSnakePiece (head_position (head g)) 0 ∈ pieces g'.
Proof.
  intros Hn Hd Hw Hg.
  assert (Ha : valid_action action) by (apply action_direction_valid; eauto).
  destruct (episode_state_step n w action Hn Ha Hw)
    as (d' & g0 & c & s1 & Hd' & Hg0 & Hc & Hrun & Hstep & Henv & Hlen & Hnext).
  rewrite Hd in Hd'. injection Hd' as <-. rewrite Hg in Hg0. injection Hg0 as <-.
  cbv zeta in Henv, Hnext, Hlen.
  destruct (action_direction_unit _ _ Hd) as (Hd0 & _).
  destruct (Game_run_step_full (mkSim (process_random w) (set_controller_direction d g)) c)
    as (s1' & c' & Hrun' & Hpos & _ & _ & _ & _ & _ & _ & _ & Hpieces);
    [exact Hc | exact Hd0 |].
  rewrite Hrun in Hrun'. injection Hrun' as <-.
  exists (game s1). cbv zeta. rewrite Henv. cbn [fst snd]. env_simpl.
  split.
  { rewrite Hlen. destruct (decide (_ = _)); destruct (decide (_ > _)); try reflexivity; lia. }
  split; [reflexivity|]. split; [repeat split|]. split; [exact Hnext|].
  split; [exact Hpos|].
  rewrite Hpieces. apply elem_of_app. right. apply list_elem_of_singleton. reflexivity.
Qed.

Lemma straight_walk (action : Z) (d : Vector2) (j : nat) :
  action_direction action = Some d ->
  forall (n : Z) (w : World) (g : Game),
    0 <= n -> episode_state n w -> st_game (state w) = Some g ->
    (forall i, 0 < i <= Z.of_nat j ->
       (head_position (head g)).1 + i * d.1 < PLAY_AREA.1 /\
       (head_position (head g)).2 + i * d.2 < PLAY_AREA.2) ->
    let w' := run_actions (replicate j action) w in
    episode_state (n + Z.of_nat j) w' /\ same_config (state w) (state w') /\
    exists g', st_game (state w') = Some g' /\
      head_position (head g')
      = ((head_position (head g)).1 + Z.of_nat j * d.1,
         (head_position (head g)).2 + Z.of_nat j * d.2).
Proof.
  intros Hd. induction j as [|j IH]; intros n w g Hn Hw Hg Hin; cbv zeta.
  - cbn [replicate run_actions fold_left]. replace (n + Z.of_nat 0) with n by lia.
    split; [exact Hw|]. split; [apply same_config_refl|]. exists g. split; [exact Hg|].
    destruct (head_position (head g)) as [x y]. cbn [fst snd]. f_equal; lia.
  - cbn [replicate run_actions fold_left].
    destruct (episode_step_trail n w action d g Hn Hd Hw Hg)
      as (g1 & _ & Hg1 & Hcfg & Hnext & Hpos & _).
    cbv zeta in Hg1, Hcfg, Hnext.
    assert (Hp1 : head_position (head g1)
                  = ((head_position (head g)).1 + d.1, (head_position (head g)).2 + d.2)).
    { rewrite Hpos. destruct (Hin 1 ltac:(lia)) as [H1 H2].
      unfold Vector2_add. apply wrap_overflow_inside; cbn [fst snd]; lia. }
    destruct (IH (n + 1) _ g1 ltac:(lia) Hnext Hg1) as (Hfin & Hcfg' & g' & Hg' & Hpos').
    { intros i Hi. rewrite Hp1. cbn [fst snd].
      destruct (Hin (i + 1) ltac:(lia)) as [H1 H2]. lia. }
    fold (run_actions (replicate j action) (SnakeEnv_step action w).2).
    replace (n + Z.of_nat (S j)) with (n + 1 + Z.of_nat j) by lia.
    split; [exact Hfin|]. split; [eapply same_config_trans; eassumption|].
    exists g'. split; [exact Hg'|]. rewrite Hpos', Hp1. cbn [fst snd]. f_equal; lia.
Qed.

(** After [reset], [j] steps in one direction that do not reach an upper
    edge, and one more: the observation cannot be encoded when the cell
    the Head then leaves is not a valid index. *)
Lemma straight_walk_raises (w0 : World) (action : Z) (d : Vector2) (j : nat) :
  headless (state w0) = true ->
  shape (state w0) = (width (state w0), height (state w0), 4) ->
  (SnakeGameState_reset w0).1 = Ok tt ->
  action_direction action = Some d ->
  (forall i, 0 < i <= Z.of_nat j -> i * d.1 < PLAY_AREA.1 /\ i * d.2 < PLAY_AREA.2) ->
  0 <= width (state w0) -> 0 <= height (state w0) ->
  ~ index_ok (state w0) (Z.of_nat j * d.1, Z.of_nat j * d.2) ->
  (SnakeEnv_step action (run_actions (replicate j action) (SnakeGameState_reset w0).2)).1
  = Raise IndexError.
Proof.
  intros Hh Hshape Hok Hd Hin Hw Hht Hbad.
  destruct (episode_state_reset w0 Hh Hok) as [H0 Hcfg0].
  destruct (SnakeGameState_reset_game w0 Hok) as (_ & _ & x & _ & _ & E).
  assert (Hg0 : exists g0, st_game (state (SnakeGameState_reset w0).2) = Some g0 /\
                           head_position (head g0) = (0, 0)).
  { rewrite E. env_simpl. eexists. split; reflexivity. }
  destruct Hg0 as (g0 & Hg0 & Hp0).
  destruct (straight_walk action d j Hd 0 _ g0 ltac:(lia) H0 Hg0)
    as (Hfin & Hcfg & g & Hg & Hpos).
  { intros i Hi. rewrite Hp0. cbn [fst snd]. destruct (Hin i Hi). lia. }
  rewrite Hp0 in Hpos. cbn [fst snd] in Hpos.
  destruct (episode_step_trail (0 + Z.of_nat j) _ action d g ltac:(lia) Hd Hfin Hg)
    as (g' & Hres & Hg' & Hcfg' & _ & _ & Hpiece).
  cbv zeta in Hres, Hg', Hcfg'. rewrite Hres.
  pose proof (same_config_trans _ _ _ Hcfg0 (same_config_trans _ _ _ Hcfg Hcfg'))
    as (Es & Ew & Eh & _).
  rewrite (SnakeGameState_encode_bad _ g' (mkSnakePiece (head_position (head g)) 0) Hg');
    [reflexivity| | | |exact Hpiece|].
  - rewrite <- Es, <- Ew, <- Eh. exact Hshape.
  - rewrite <- Ew. exact Hw.
  - rewrite <- Eh. exact Hht.
  - cbn [piece_position]. rewrite Hpos. unfold index_ok in *. rewrite <- Ew, <- Eh.
    replace (0 + Z.of_nat j * d.1) with (Z.of_nat j * d.1) by lia.
    replace (0 + Z.of_nat j * d.2) with (Z.of_nat j * d.2) by lia. exact Hbad.
Qed.

(** X17: nothing wraps a coordinate that became negative, so walking left
    from [reset] always ends in an IndexError: after width + 1 steps of
    action 1 the next one leaves a piece on x = -(width + 1), which no
    tensor of that width can index. *)
Theorem walking_left_raises (w0 : World) :
  headless (state w0) = true ->
  shape (state w0) = (width (state w0), height (state w0), 4) ->
  0 <= width (state w0) -> 0 <= height (state w0) ->
  (SnakeGameState_reset w0).1 = Ok tt ->
  (SnakeEnv_step 1 (run_actions (replicate (Z.to_nat (width (state w0) + 1)) 1)
                                (SnakeGameState_reset w0).2)).1
  = Raise IndexError.
Proof.
  intros Hh Hshape Hw Hht Hok.
  destruct (SnakeGameState_reset_game w0 Hok) as (Hp1 & Hp2 & _).
  apply (straight_walk_raises w0 1 (-1, 0)); try assumption; [reflexivity| |].
  - intros i Hi. cbn [fst snd]. lia.
  - unfold index_ok. cbn [fst snd]. lia.
Qed.

(** X19: the Level takes the first component of the play area as its
    width while the constructor takes it as the height, so a play area
    that is not square cannot be played: walking from [reset] along the
    longer side, the step after min(height, width) steps raises
    IndexError. *)
Theorem non_square_area_raises (w0 : World) :
  headless (state w0) = true ->
  shape (state w0) = (width (state w0), height (state w0), 4) ->
  (height (state w0), width (state w0)) = PLAY_AREA ->
  height (state w0) <> width (state w0) ->
  (SnakeGameState_reset w0).1 = Ok tt ->
  let action := if decide (height (state w0) < width (state w0)) then 2 else 0 in
  let n := Z.to_nat (Z.min (height (state w0)) (width (state w0))) in
  (SnakeEnv_step action (run_actions (replicate n action) (SnakeGameState_reset w0).2)).1
  = Raise IndexError.
Proof.
  intros Hh Hshape Hpa Hne Hok. cbv zeta.
  destruct (SnakeGameState_reset_game w0 Hok) as (Hp1 & Hp2 & _).
  rewrite <- Hpa in Hp1, Hp2. cbn [fst snd] in Hp1, Hp2.
  assert (Hpa1 : PLAY_AREA.1 = height (state w0)) by (rewrite <- Hpa; reflexivity).
  assert (Hpa2 : PLAY_AREA.2 = width (state w0)) by (rewrite <- Hpa; reflexivity).
  destruct (decide (height (state w0) < width (state w0))) as [Hlt|Hge].
  - apply (straight_walk_raises w0 2 (0, 1)); try assumption; try lia; [reflexivity| |].
    + intros i Hi. cbn [fst snd]. lia.
    + unfold index_ok. cbn [fst snd]. lia.
  - apply (straight_walk_raises w0 0 (1, 0)); try assumption; try lia; [reflexivity| |].
    + intros i Hi. cbn [fst snd]. lia.
    + unfold index_ok. cbn [fst snd]. lia.
Qed.

End WalkFacts.

Section ScoreFacts.
Context {P : Platform}.

Lemma total_reward_growth (actions : list Z) :
  Forall valid_action actions ->
  forall (n : Z) (w : World) (g : Game),
    0 <= n -> episode_state n w -> st_game (state w) = Some g ->
    exists g', st_game (state (run_actions actions w)) = Some g' /\
      total_reward (step_results actions w) <= head_length (head g') - head_length (head g) /\
      (Forall (fun r => exists x, r = Ok x) (step_results actions w) ->
       total_reward (step_results actions w) = head_length (head g') - head_length (head g)).
Proof.
  induction 1 as [|a l Ha Hl IH]; intros n w g Hn Hw Hg.
  - cbn. exists g. split; [exact Hg|]. split; [lia|]. intros _. lia.
  - destruct (episode_state_step n w a Hn Ha Hw)
      as (d & g0 & c & s1 & Hd & Hg0 & Hc & Hrun & Hstep & Henv & Hlen & Hnext).
    rewrite Hg in Hg0. injection Hg0 as <-. cbv zeta in Henv, Hlen, Hnext.
    cbn [step_results run_actions fold_left]. rewrite Henv. cbn [fst snd].
    destruct (IH (n + 1) _ (game s1) ltac:(lia) Hnext ltac:(env_simpl; reflexivity))
      as (g' & Hg' & Hle & Heq).
    exists g'. split; [exact Hg'|]. cbn [total_reward foldr].
    fold (total_reward (step_results l
            (mkWorld (py_random s1) (set_game (Some (game s1)) (state w))))).
    assert (Hr : 0 <= head_length (head (game s1)) - head_length (head g)).
    { rewrite Hlen. destruct (decide _); lia. }
    destruct (SnakeGameState_encode _) as [obs|e]; cbn [result_map].
    + split; [lia|]. intros Hall. inversion Hall as [|? ? _ Hall']; subst.
      specialize (Heq Hall'). lia.
    + split; [lia|]. intros Hall. inversion Hall as [|? ? [x Hx] _]; subst. discriminate Hx.
Qed.

(** X20: the Head starts at length 3 and grows by one with every reward:
    in a headless episode the rewards handed back never add up to more
    than length - 3, and to exactly that when no step raised (a step
    that raises while encoding has already moved the snake, and its
    reward is lost). *)
Theorem score_is_growth (w0 : World) (actions : list Z) :
  headless (state w0) = true ->
  (SnakeGameState_reset w0).1 = Ok tt ->
  Forall valid_action actions ->
  let results := step_results actions (SnakeGameState_reset w0).2 in
  exists g, st_game (state (run_actions actions (SnakeGameState_reset w0).2)) = Some g /\
    total_reward results <= head_length (head g) - 3 /\
    (Forall (fun r => exists x, r = Ok x) results ->
     total_reward results = head_length (head g) - 3).
Proof.
  intros Hh Hok Hv. cbv zeta.
  destruct (episode_state_reset w0 Hh Hok) as [H0 _].
  destruct (SnakeGameState_reset_game w0 Hok) as (_ & _ & x & _ & _ & E).
  destruct (total_reward_growth actions Hv 0 (SnakeGameState_reset w0).2
              (mkGame (list_to_set all_cells) SnakeHead_init (Some (mkCherry x)) []
                      (0, 0) false) ltac:(lia) H0)
    as (g & Hg & Hle & Heq).
  { rewrite E. env_simpl. reflexivity. }
  exists g. split; [exact Hg|]. split; [exact Hle | exact Heq].
Qed.

(** X21: in a running headless episode a step draws from the
    interpreter's generator only when the cherry is eaten: a step that
    leaves the length as it was leaves the generator and the cherry as
    they were, and no step touches the environment's numpy generator. *)
Theorem quiet_step_draws_nothing (w0 : World) (actions : list Z) (action : Z) :
  headless (state w0) = true ->
  (SnakeGameState_reset w0).1 = Ok tt ->
  Forall valid_action actions -> valid_action action ->
  let w := run_actions actions (SnakeGameState_reset w0).2 in
  let w' := (SnakeEnv_step action w).2 in
  exists g g', st_game (state w) = Some g /\ st_game (state w') = Some g' /\
    random (state w') = random (state w) /\
    (head_length (head g') = head_length (head g) ->
     process_random w' = process_random w /\ cherry g' = cherry g).
Proof.
  intros Hh Hok Hv Ha. cbv zeta.
  destruct (episode_state_reset w0 Hh Hok) as [H0 _].
  destruct (episode_state_run actions 0 _ ltac:(lia) Hv H0) as (Hfin & _ & _).
  set (w := run_actions actions (SnakeGameState_reset w0).2) in *.
  destruct (episode_state_step (0 + Z.of_nat (length actions)) w action ltac:(lia) Ha Hfin)
    as (d & g & c & s1 & Hd & Hg & Hc & Hrun & _ & Henv & Hlen & _).
  cbv zeta in Henv, Hlen.
  destruct (action_direction_unit _ _ Hd) as (Hd0 & _).
  destruct (Game_run_step_full (mkSim (process_random w) (set_controller_direction d g)) c)
    as (s1' & c' & Hrun' & _ & _ & Hc' & Hmiss & _); [exact Hc | exact Hd0 |].
  rewrite Hrun in Hrun'. injection Hrun' as <-. record_simpl.
  exists g, (game s1). rewrite Henv. cbn [fst snd]. env_simpl.
  split; [exact Hg|]. split; [reflexivity|].
  split; [destruct (state w); reflexivity|].
  intros Hsame. rewrite Hsame in Hlen.
  destruct (decide (Vector2_add (head_position (head g)) d = cherry_position c)) as [|Hne];
    [lia|].
  destruct (Hmiss Hne) as (-> & _ & Hpr). split; [exact Hpr|]. congruence.
Qed.

End ScoreFacts.

(** ** Runs on the small platform *)

Section FurtherRuns.
#[local] Existing Instance Toy.small.

(** Cell (1, 1) of [Toy.sim0] is free: occupying it and releasing it again
    gives the simulation back. *)
Lemma space_bookkeeping_witness :
  (1, 1) ∈ free_space (game Toy.sim0) /\
  Level_unoccupy_space (1, 1) (Level_occupy_space (1, 1) Toy.sim0).2 = (Ok tt, Toy.sim0).
Proof.
  assert (H : (1, 1) ∈ free_space (game Toy.sim0)) by (cbn; set_solver).
  split; [exact H|].
  destruct (space_bookkeeping (1, 1) Toy.sim0) as (_ & _ & _ & _ & _ & _ & Hback & _).
  exact (Hback H).
Defined.


(** A reset in the middle of an episode. *)
Lemma reset_starts_afresh_witness :
  let w := run_actions [0; 2] (Toy.start None) in
  (SnakeGameState_reset w).1 = Ok tt /\
  exists g, st_game (state (SnakeGameState_reset w).2) = Some g /\
    head g = mkSnakeHead (0, 0) (1, 0) 3 /\ pieces g = [].
Proof.
  intros w.
  assert (H : (SnakeGameState_reset w).1 = Ok tt) by (vm_compute; reflexivity).
  split; [exact H|].
  destruct (@reset_starts_afresh Toy.small w H) as (g & c & Hg & Hh & Hp & _).
  exists g. auto.
Defined.

(** The small platform is 4 by 4: five rows are refused. *)
Lemma constructor_accepts_play_area_only_witness :
  (5, 4) <> PLAY_AREA /\ SnakeEnv_new 5 4 true = Raise ValueError.
Proof.
  assert (H : (5, 4) <> PLAY_AREA) by discriminate.
  split; [exact H|].
  exact (proj1 (@constructor_accepts_play_area_only Toy.small 5 4 true) H).
Defined.

(** A freshly constructed environment refuses to step. *)
Lemma step_before_reset_witness :
  let w : World := mkWorld 0%nat Toy.state0 in
  st_game (state w) = None /\
  SnakeEnv_step 0 w = (Raise AttributeError, w) /\
  SnakeEnv_step 4 w = (Raise ValueError, w).
Proof.
  intros w. split; [reflexivity|]. split.
  - exact (proj2 (@step_before_reset Toy.small w 0 eq_refl)).
  - exact (proj2 (@step_before_reset Toy.small w 4 eq_refl)).
Defined.

(** The step onto the cherry below the origin. *)
Lemma reward_in_declared_range_witness :
  let w := Toy.start None in
  let r := SnakeEnv_step 2 w in
  let obs := match r.1 with Ok x => x.1.1 | Raise _ => [] end in
  r = (Ok (obs, 1, false), r.2) /\
  -1 <= 1 <= 1 /\ 0 <= 2 < 4.
Proof.
  intros w r obs.
  assert (H : r = (Ok (obs, 1, false), r.2)) by (vm_compute; reflexivity).
  split; [exact H|].
  destruct (@reward_in_declared_range Toy.small w r.2 2 obs 1 false 4 4 H) as (Ha & Hr & _).
  split; [exact Hr | exact Ha].
Defined.

(** Reseeding with 7 before the first step. *)
Lemma seed_waits_for_reset_witness :
  let w := Toy.start None in
  np_RandomState (seed_or_default (Some 7)) = Some 7 /\
  (SnakeEnv_step 0 (SnakeEnv_seed (Some 7) w).2).1 = (SnakeEnv_step 0 w).1.
Proof.
  intros w. split; [reflexivity|].
  exact (proj1 (proj2 (@seed_waits_for_reset Toy.small (Some 7) 0 w 7 eq_refl))).
Defined.


(** Five steps to the right: the tail has three pieces. *)
Lemma tail_follows_length_witness :
  let w0 : World := mkWorld 0%nat Toy.state0 in
  headless (state w0) = true /\
  (SnakeGameState_reset w0).1 = Ok tt /\
  Forall valid_action [0; 0; 0; 0; 0] /\
  exists g, st_game (state (run_actions [0; 0; 0; 0; 0] (SnakeGameState_reset w0).2)) = Some g /\
    3 <= head_length (head g) <= 8 /\
    Z.of_nat (length (pieces g)) = Z.min 5 (head_length (head g)).
Proof.
  intros w0.
  assert (Hv : Forall valid_action [0; 0; 0; 0; 0]).
  { repeat constructor; unfold valid_action; lia. }
  assert (Hok : (SnakeGameState_reset w0).1 = Ok tt) by (vm_compute; reflexivity).
  split; [reflexivity|]. split; [exact Hok|]. split; [exact Hv|].
  destruct (@tail_follows_length Toy.small w0 [0; 0; 0; 0; 0] eq_refl Hok Hv)
    as (g & Hg & Hlen & Hcount & _).
  exists g. split; [exact Hg|]. split; [exact Hlen | exact Hcount].
Defined.

(** Left, then up: nothing lies more than two cells below zero. *)
Lemma cells_stay_within_witness :
  let w0 : World := mkWorld 0%nat Toy.state0 in
  headless (state w0) = true /\
  (SnakeGameState_reset w0).1 = Ok tt /\
  Forall valid_action [1; 3] /\
  exists g, st_game (state (run_actions [1; 3] (SnakeGameState_reset w0).2)) = Some g /\
    Forall (fun p => within 2 (piece_position p)) (pieces g).
Proof.
  intros w0.
  assert (Hv : Forall valid_action [1; 3]).
  { repeat constructor; unfold valid_action; lia. }
  assert (Hok : (SnakeGameState_reset w0).1 = Ok tt) by (vm_compute; reflexivity).
  split; [reflexivity|]. split; [exact Hok|]. split; [exact Hv|].
  destruct (@cells_stay_within Toy.small w0 [1; 3] eq_refl Hok Hv)
    as (g & c & Hg & _ & _ & Hps & _).
  exists g. split; [exact Hg | exact Hps].
Defined.

(** The first step of an episode, downwards. *)
Lemma reward_is_cherry_ahead_witness :
  let w0 : World := mkWorld 0%nat Toy.state0 in
  headless (state w0) = true /\
  (SnakeGameState_reset w0).1 = Ok tt /\
  Forall valid_action [] /\ valid_action 2 /\
  exists d reward, action_direction 2 = Some d /\
    (SnakeGameState_step d (run_actions [] (SnakeGameState_reset w0).2)).1 = Ok reward.
Proof.
  intros w0.
  assert (Hok : (SnakeGameState_reset w0).1 = Ok tt) by (vm_compute; reflexivity).
  assert (Ha : valid_action 2) by (unfold valid_action; lia).
  split; [reflexivity|]. split; [exact Hok|]. split; [constructor|]. split; [exact Ha|].
  destruct (@reward_is_cherry_ahead Toy.small w0 [] 2 eq_refl Hok (@List.Forall_nil Z valid_action) Ha)
    as (d & g & c & g' & Hd & _ & _ & _ & Hr & _).
  exists d. eexists. split; [exact Hd | exact Hr].
Defined.

(** Four steps on the 4 by 4 platform all return. *)
Lemma first_steps_return_witness :
  let w0 : World := mkWorld 0%nat Toy.state0 in
  headless (state w0) = true /\
  shape (state w0) = (width (state w0), height (state w0), 4) /\
  (height (state w0), width (state w0)) = PLAY_AREA /\
  width (state w0) = height (state w0) /\
  (SnakeGameState_reset w0).1 = Ok tt /\
  Forall valid_action [1; 1; 3; 3] /\
  Z.of_nat (length [1; 1; 3; 3]) <= width (state w0) /\
  Forall (fun r => exists obs reward, r = Ok (obs, reward, false))
         (step_results [1; 1; 3; 3] (SnakeGameState_reset w0).2).
Proof.
  intros w0.
  assert (Hv : Forall valid_action [1; 1; 3; 3]).
  { repeat constructor; unfold valid_action; lia. }
  assert (Hok : (SnakeGameState_reset w0).1 = Ok tt) by (vm_compute; reflexivity).
  assert (Hl : Z.of_nat (length [1; 1; 3; 3]) <= width (state w0)) by (cbn; lia).
  split; [reflexivity|]. split; [reflexivity|]. split; [reflexivity|]. split; [reflexivity|].
  split; [exact Hok|]. split; [exact Hv|]. split; [exact Hl|].
  exact (proj2 (@first_steps_return Toy.small w0 [1; 1; 3; 3]
                  eq_refl eq_refl eq_refl eq_refl Hok Hv Hl)).
Defined.

(** The observation of the step onto the cherry. *)
Lemma observation_entries_bounded_witness :
  let w0 : World := mkWorld 0%nat Toy.state0 in
  let r := SnakeEnv_step 2 (run_actions [] (SnakeGameState_reset w0).2) in
  let obs := match r.1 with Ok x => x.1.1 | Raise _ => [] end in
  headless (state w0) = true /\
  (SnakeGameState_reset w0).1 = Ok tt /\
  Forall valid_action [] /\ valid_action 2 /\
  r = (Ok (obs, 1, false), r.2) /\
  exists g, st_game (state r.2) = Some g /\
    forall i j k, 0 <= np_get obs i j k <= head_length (head g).
Proof.
  intros w0 r obs.
  assert (Hok : (SnakeGameState_reset w0).1 = Ok tt) by (vm_compute; reflexivity).
  assert (Ha : valid_action 2) by (unfold valid_action; lia).
  assert (H : r = (Ok (obs, 1, false), r.2)) by (vm_compute; reflexivity).
  split; [reflexivity|]. split; [exact Hok|]. split; [constructor|]. split; [exact Ha|].
  split; [exact H|].
  destruct (@observation_entries_bounded Toy.small w0 [] 2 obs 1 false r.2
              eq_refl Hok (@List.Forall_nil Z valid_action) Ha H) as (g & Hg & _ & Hb).
  exists g. split; [exact Hg|]. intros i j k. exact (proj1 (Hb i j k)).
Defined.


(** The first observation on the small platform: the Head's channel holds
    its 1 at the origin. *)
Lemma reset_observation_witness :
  let w0 : World := mkWorld 0%nat Toy.state0 in
  shape (state w0) = (width (state w0), height (state w0), 4) /\
  (height (state w0), width (state w0)) = PLAY_AREA /\
  width (state w0) = height (state w0) /\
  (SnakeGameState_reset w0).1 = Ok tt /\
  exists T, SnakeEnv_reset w0 = (Ok T, (SnakeGameState_reset w0).2) /\
    np_get T 0 0 1 = 1 /\ np_get T 0 0 0 = 0.
Proof.
  intros w0.
  assert (Hok : (SnakeGameState_reset w0).1 = Ok tt) by (vm_compute; reflexivity).
  split; [reflexivity|]. split; [reflexivity|]. split; [reflexivity|]. split; [exact Hok|].
  destruct (@reset_observation Toy.small w0 eq_refl eq_refl eq_refl Hok)
    as (T & g & c & Hres & _ & _ & Hcells).
  exists T. split; [exact Hres|].
  destruct (Hcells 0 0) as (H0 & H1 & _); [cbn; lia | cbn; lia |].
  split; [exact H1 | exact H0].
Defined.

(** The frame of the first observation on the small platform has six
    lines of twelve characters. *)
Lemma render_ansi_frame_witness :
  let st := state (Toy.start None) in
  shape st = (width st, height st, 4) /\
  exists T, SnakeGameState_encode st = Ok T /\
    SnakeGameState_render_ansi st [] = (Ok tt, frame st T) /\
    Z.of_nat (length (frame st T)) = 72.
Proof.
  intros st.
  assert (Hs : shape st = (width st, height st, 4)) by (vm_compute; reflexivity).
  split; [exact Hs|].
  pose proof (@render_ansi_frame Toy.small st [] Hs) as H.
  destruct (SnakeGameState_encode st) as [T|e] eqn:E.
  - exists T. split; [reflexivity|]. destruct H as (Hrun & Hlen & _).
    split; [exact Hrun | exact Hlen].
  - exfalso. vm_compute in E. discriminate E.
Defined.

(** Rendering the first observation for a human prints it. *)
Lemma render_modes_witness :
  let st := state (Toy.start None) in
  shape st = (width st, height st, 4) /\
  exists T, SnakeGameState_encode st = Ok T /\
    SnakeEnv_render "human" st [] = (Ok sys_stdout, frame st T) /\
    SnakeEnv_render "ansi" st [] = (Ok (StringIO (frame st T)), []).
Proof.
  intros st.
  assert (Hs : shape st = (width st, height st, 4)) by (vm_compute; reflexivity).
  split; [exact Hs|].
  pose proof (@render_modes Toy.small "human" st [] Hs) as H1.
  pose proof (@render_modes Toy.small "ansi" st [] Hs) as H2.
  destruct (SnakeGameState_encode st) as [T|e] eqn:E.
  - exists T. split; [reflexivity|]. split; [exact H1 | exact H2].
  - exfalso. vm_compute in E. discriminate E.
Defined.

(** On the small platform the sixth step to the left raises. *)
Lemma walking_left_raises_witness :
  let w0 : World := mkWorld 0%nat Toy.state0 in
  headless (state w0) = true /\
  shape (state w0) = (width (state w0), height (state w0), 4) /\
  0 <= width (state w0) /\ 0 <= height (state w0) /\
  (SnakeGameState_reset w0).1 = Ok tt /\
  (SnakeEnv_step 1 (run_actions [1; 1; 1; 1; 1] (SnakeGameState_reset w0).2)).1
  = Raise IndexError.
Proof.
  intros w0.
  assert (Hok : (SnakeGameState_reset w0).1 = Ok tt) by (vm_compute; reflexivity).
  assert (Hw : 0 <= width (state w0)) by (cbn; lia).
  assert (Hh : 0 <= height (state w0)) by (cbn; lia).
  split; [reflexivity|]. split; [reflexivity|]. split; [exact Hw|]. split; [exact Hh|].
  split; [exact Hok|].
  exact (@walking_left_raises Toy.small w0 eq_refl eq_refl Hw Hh Hok).
Defined.

(** A play area of two by three: the third step down raises. *)
Lemma non_square_area_raises_witness :
  let w0 : Interpreter nat Z :=
    mkWorld 0%nat (mkSnakeGameState (3, 2, 4) 3 2 true false 1234 None) in
  headless (state w0) = true /\
  shape (state w0) = (width (state w0), height (state w0), 4) /\
  (height (state w0), width (state w0)) = @PLAY_AREA (Toy.platform (2, 3)) /\
  height (state w0) <> width (state w0) /\
  (@SnakeGameState_reset (Toy.platform (2, 3)) w0).1 = Ok tt /\
  (@SnakeEnv_step (Toy.platform (2, 3)) 2
     (@run_actions (Toy.platform (2, 3)) [2; 2]
        (@SnakeGameState_reset (Toy.platform (2, 3)) w0).2)).1
  = Raise IndexError.
Proof.
  intros w0.
  assert (Hok : (@SnakeGameState_reset (Toy.platform (2, 3)) w0).1 = Ok tt)
    by (vm_compute; reflexivity).
  assert (Hne : height (state w0) <> width (state w0)) by (cbn; lia).
  split; [reflexivity|]. split; [reflexivity|]. split; [reflexivity|]. split; [exact Hne|].
  split; [exact Hok|].
  exact (@non_square_area_raises (Toy.platform (2, 3)) w0 eq_refl eq_refl eq_refl Hne Hok).
Defined.

(** Down onto the cherry, then right: one reward, length 4. *)
Lemma score_is_growth_witness :
  let w0 : World := mkWorld 0%nat Toy.state0 in
  headless (state w0) = true /\
  (SnakeGameState_reset w0).1 = Ok tt /\
  Forall valid_action [2; 0] /\
  exists g, st_game (state (run_actions [2; 0] (SnakeGameState_reset w0).2)) = Some g /\
    total_reward (step_results [2; 0] (SnakeGameState_reset w0).2)
    <= head_length (head g) - 3.
Proof.
  intros w0.
  assert (Hv : Forall valid_action [2; 0]).
  { repeat constructor; unfold valid_action; lia. }
  assert (Hok : (SnakeGameState_reset w0).1 = Ok tt) by (vm_compute; reflexivity).
  split; [reflexivity|]. split; [exact Hok|]. split; [exact Hv|].
  destruct (@score_is_growth Toy.small w0 [2; 0] eq_refl Hok Hv) as (g & Hg & Hle & _).
  exists g. split; [exact Hg | exact Hle].
Defined.

(** A first step to the right misses the cherry. *)
Lemma quiet_step_draws_nothing_witness :
  let w0 : World := mkWorld 0%nat Toy.state0 in
  let w := run_actions [] (SnakeGameState_reset w0).2 in
  headless (state w0) = true /\
  (SnakeGameState_reset w0).1 = Ok tt /\
  Forall valid_action [] /\ valid_action 0 /\
  random (state (SnakeEnv_step 0 w).2) = random (state w).
Proof.
  intros w0 w.
  assert (Hok : (SnakeGameState_reset w0).1 = Ok tt) by (vm_compute; reflexivity).
  assert (Ha : valid_action 0) by (unfold valid_action; lia).
  split; [reflexivity|]. split; [exact Hok|]. split; [constructor|]. split; [exact Ha|].
  destruct (@quiet_step_draws_nothing Toy.small w0 [] 0 eq_refl Hok
              (@List.Forall_nil Z valid_action) Ha) as (g & g' & _ & _ & Hr & _).
  exact Hr.
Defined.

End FurtherRuns.
